(** * Parameter learning by fixpoint iteration (pasp, [src/pasp/clearn.c])

    A shallow embedding of the learning core: the index builder
    [init_indices], the parameter storage [init_parameters], the EM loop
    [learn_fixpoint] and the publish-back adapter
    [update_program_parameters], followed by the properties the
    specification states about them.

    Conventions of the embedding.
    - A C array with its length field ([PF]/[PF_n], [AD]/[AD_n], [P]/[n]) is
      a list; the length field is the length of the list.
    - [double] arithmetic is taken through the interface [DoubleOps], with
      two instances: IEEE 754 binary64 (round to nearest even, no fused
      operations), and exact rational arithmetic, in which the formulas of
      the specification are read. The interface [DoubleVal] gives a double
      its rational value; the accuracy of a floating-point operation, where
      a property depends on it, is a hypothesis on the operations a run
      performs, not a fact derived from the definition of binary64.
    - [malloc]/[free] act on a heap of blocks; each allocation request
      succeeds or fails according to a plan carried by the state.
    - [PyErr_SetString] appends to a log of raised errors.
    - The collaborators that are declared in headers but defined elsewhere
      ([init_observations], [init_prob_storage_seq], [prob_obs_reuse]) are
      parameters of the driver; they are taken to leave the program and the
      Python objects alone.
    - The index arrays live in the heap; the loops of the driver, which do
      not write to the heap, read them once at loop entry.
    - A read past the end of an array, undefined in C, yields a default
      value. The reads through the index arrays are always in range, an
      index stored being at most the position it stands for.
    - [import_array()] and the reference counts ([Py_DECREF]) are left
      out. *)

From Stdlib Require Import ZArith QArith Qcanon Lia.
From Stdlib Require Import Floats.SpecFloat.
From stdpp Require Import base list sorting gmap strings.

Local Open Scope Z_scope.
Local Open Scope nat_scope.

(** ** Arithmetic on [double] *)

Class DoubleOps (D : Type) := {
  d0 : D;                   (* the constant 0 *)
  dadd : D → D → D;
  dmul : D → D → D;
  ddiv : D → D → D;
  d_of_int : Z → D;         (* conversion of an [int] operand *)
  d_of_size : Z → D         (* conversion of a [size_t] operand *)
}.

Module B64.
Definition prec : Z := 53.
Definition emax : Z := 1024.
Definition of_Z (z : Z) : spec_float := binary_normalize prec emax z 0 false.
Definition add : spec_float → spec_float → spec_float := SFadd prec emax.
Definition mul : spec_float → spec_float → spec_float := SFmul prec emax.
Definition div : spec_float → spec_float → spec_float := SFdiv prec emax.
(** The double nearest to the decimal literal [n/d]. *)
Definition lit (n d : Z) : spec_float := div (of_Z n) (of_Z d).
(** The rational value of a finite double (0 for infinities and NaN). *)
Definition to_Q (x : spec_float) : Q :=
  match x with
  | S754_finite sg m e =>
      let v := (inject_Z (Z.pos m) * Qpower 2 e)%Q in
      if sg then Qopp v else v
  | _ => 0%Q
  end.
(** Neither an infinity nor a NaN. *)
Definition finite (x : spec_float) : bool :=
  match x with
  | S754_zero _ | S754_finite _ _ _ => true
  | _ => false
  end.
End B64.

#[export] Instance binary64 : DoubleOps spec_float := {|
  d0 := S754_zero false;
  dadd := B64.add;
  dmul := B64.mul;
  ddiv := B64.div;
  d_of_int := B64.of_Z;
  d_of_size := B64.of_Z
|}.

#[export] Instance exact : DoubleOps Qc := {|
  d0 := Q2Qc 0;
  dadd := Qcplus;
  dmul := Qcmult;
  ddiv := Qcdiv;
  d_of_int := Qc_of_Z;
  d_of_size := Qc_of_Z
|}.

(** What a [double] is worth as a number: whether it is finite, and its
    rational value when it is (for an infinity or a NaN the value is 0 and
    means nothing). *)
Class DoubleVal (D : Type) := {
  dfinite : D → bool;
  dval : D → Qc
}.

#[export] Instance binary64_val : DoubleVal spec_float := {|
  dfinite := B64.finite;
  dval x := Q2Qc (B64.to_Q x)
|}.

#[export] Instance exact_val : DoubleVal Qc := {|
  dfinite _ := true;
  dval x := x
|}.

(** ** Integer conversions of the source *)

(** [I_F[j++] = i]: a [size_t] stored into a [uint16_t]. *)
Definition to_u16 (i : nat) : Z := (Z.of_nat i mod 65536)%Z.

(** [N += (int) c] on a [size_t]. *)
Definition size_add (N c : Z) : Z := ((N + c) mod 2 ^ 64)%Z.

(** ** Python errors *)

Inductive pyexc :=
| PyExc_MemoryError
| PyExc_ValueError
| PyExc_AttributeError
| PyExc_TypeError.

Definition pyerr : Type := pyexc * string.

(** A [PyObject*]. *)
Abbreviation handle := positive.

(** A C pointer into the heap; [None] is [NULL]. *)
Abbreviation ptr := (option positive).

Section Model.
Context {D : Type} `{DoubleOps D}.

(** ** Data model *)

Record prob_fact_t := {
  pf_p : D;
  pf_learnable : bool;
  pf_self : handle
}.

(** [n] is the length of [P]. *)
Record annot_disj_t := {
  ad_P : list D;
  ad_learnable : bool;
  ad_self : handle
}.

Record program_t := {
  PF : list prob_fact_t;
  AD : list annot_disj_t
}.

Definition ad_n (ad : annot_disj_t) : nat := length (ad_P ad).

Inductive block :=
| U16s (xs : list Z)                (* uint16_t[] *)
| Pairs (xs : list (D * D))         (* double[][2] *)
| Ptrs (xs : list ptr)              (* double*[] *)
| Doubles (xs : list D).            (* double[] *)

(** What Python sees of a program element: the attribute [p] of a fact
    object (with whether the object lets it be set), the list attribute
    [P] of a disjunction object (absent when the object has none). *)
Record py_obj := {
  py_p : D;
  py_p_settable : bool;
  py_P : option (list D)
}.

(** The phases of one pass of the loop, logged as they are executed. *)
Inductive phase := Solve | Reset | Accumulate | Normalize.

Record state := {
  heap : gmap positive block;
  plan : list bool;                 (* outcome of the next allocation requests *)
  errs : list pyerr;                (* calls of PyErr_SetString, oldest first *)
  py : gmap handle py_obj;
  workers : nat;                    (* worker storages currently allocated *)
  trace : list phase
}.

Definition set_heap (h : gmap positive block) (s : state) : state :=
  {| heap := h; plan := plan s; errs := errs s; py := py s;
     workers := workers s; trace := trace s |}.
Definition set_plan (pl : list bool) (s : state) : state :=
  {| heap := heap s; plan := pl; errs := errs s; py := py s;
     workers := workers s; trace := trace s |}.
Definition set_py (o : gmap handle py_obj) (s : state) : state :=
  {| heap := heap s; plan := plan s; errs := errs s; py := o;
     workers := workers s; trace := trace s |}.
Definition set_workers (w : nat) (s : state) : state :=
  {| heap := heap s; plan := plan s; errs := errs s; py := py s;
     workers := w; trace := trace s |}.
Definition log (ph : phase) (s : state) : state :=
  {| heap := heap s; plan := plan s; errs := errs s; py := py s;
     workers := workers s; trace := trace s ++ [ph] |}.

Definition PyErr_SetString (e : pyexc) (msg : string) (s : state) : state :=
  {| heap := heap s; plan := plan s; errs := errs s ++ [(e, msg)]; py := py s;
     workers := workers s; trace := trace s |}.

(** ** The allocator *)

(** The next allocation request fails exactly when the plan says [false];
    an exhausted plan lets every request succeed. *)
Definition next_alloc (s : state) : bool * state :=
  match plan s with
  | [] => (true, s)
  | b :: pl => (b, set_plan pl s)
  end.

(** [malloc]: the block is given with its initial (indeterminate) contents. *)
Definition malloc (b : block) (s : state) : ptr * state :=
  let '(ok, s1) := next_alloc s in
  if ok then
    let a := fresh (dom (heap s1)) in
    (Some a, set_heap (<[a := b]> (heap s1)) s1)
  else (None, s1).

(** [free]; [free(NULL)] does nothing. *)
Definition free (p : ptr) (s : state) : state :=
  match p with
  | None => s
  | Some a => set_heap (delete a (heap s)) s
  end.

Definition store (a : positive) (b : block) (s : state) : state :=
  set_heap (<[a := b]> (heap s)) s.

(** The contents of an index array; a [NULL] array has no entries. *)
Definition load_u16 (h : gmap positive block) (p : ptr) : list Z :=
  match p with
  | None => []
  | Some a => match h !! a with Some (U16s xs) => xs | _ => [] end
  end.

Definition load_ptrs (h : gmap positive block) (p : ptr) : list ptr :=
  match p with
  | None => []
  | Some a => match h !! a with Some (Ptrs xs) => xs | _ => [] end
  end.

(** ** Index builder *)

Record indices_t := {
  i_n : nat;
  i_m : nat;
  i_F : ptr;
  i_A : ptr
}.

(** [for (i = 0; i < len; ++i) if (X[i].learnable) ++n;] *)
Definition count_learnable {A} (learnable : A → bool) (l : list A) : nat :=
  fold_left (λ n x, if learnable x then S n else n) l 0.

(** [for (i = j = 0; i < len; ++i) if (X[i].learnable) I[j++] = i;]
    started at position [i] with [j] entries written. *)
Fixpoint fill_indices {A} (learnable : A → bool) (l : list A)
    (i j : nat) (arr : list Z) : list Z :=
  match l with
  | [] => arr
  | x :: l' =>
      if learnable x
      then fill_indices learnable l' (S i) (S j) (<[j := to_u16 i]> arr)
      else fill_indices learnable l' (S i) j arr
  end.

(** One of the two scans: [Some p] is the array built ([NULL] when nothing is
    learnable), [None] is the jump to [cleanup]. *)
Definition build_index_array {A} (learnable : A → bool) (l : list A)
    (n : nat) (s : state) : option ptr * state :=
  match n with
  | O => (Some None, s)
  | _ =>
      match malloc (U16s (replicate n 0%Z)) s with
      | (None, s1) => (None, s1)
      | (Some a, s1) =>
          (Some (Some a),
           store a (U16s (fill_indices learnable l 0 0 (replicate n 0%Z))) s1)
      end
  end.

Definition init_indices_cleanup (I_F I_A : ptr) (s : state)
    : option indices_t * state :=
  let s1 := PyErr_SetString PyExc_MemoryError
              "could not allocate memory in init_indices!" s in
  (None, free I_A (free I_F s1)).

(** [init_indices]: [Some I] when the source returns [true] with [*I]
    filled, [None] when it returns [false]. *)
Definition init_indices (P : program_t) (s : state) : option indices_t * state :=
  let n := count_learnable pf_learnable (PF P) in
  match build_index_array pf_learnable (PF P) n s with
  | (None, s1) => init_indices_cleanup None None s1
  | (Some I_F, s1) =>
      let m := count_learnable ad_learnable (AD P) in
      match build_index_array ad_learnable (AD P) m s1 with
      | (None, s2) => init_indices_cleanup I_F None s2
      | (Some I_A, s2) =>
          (Some {| i_n := n; i_m := m; i_F := I_F; i_A := I_A |}, s2)
      end
  end.

Definition free_indices_contents (I : indices_t) (s : state) : state :=
  free (i_A I) (free (i_F I) s).

(** ** Parameter storage *)

Record parameters_t := {
  w_n : nat;
  w_m : nat;
  w_F : ptr;
  w_A : ptr;
  w_I_F : ptr;
  w_I_A : ptr
}.

(** [x = X[k]] for an index read from an index array. *)
Definition index_at (ixs : list Z) (k : nat) : nat :=
  Z.to_nat (default 0%Z (ixs !! k)).

(** [A[i] = p] *)
Definition store_ptr (A : positive) (i : nat) (p : ptr) (s : state) : state :=
  match heap s !! A with
  | Some (Ptrs xs) => store A (Ptrs (<[i := p]> xs)) s
  | _ => s
  end.

(** [for (j = 0; j < i; ++j) free(A[j]);] *)
Definition free_rows (A : positive) (i : nat) (s : state) : state :=
  fold_left
    (λ s j, free (default None (load_ptrs (heap s) (Some A) !! j)) s)
    (seq 0 i) s.

(** The loop [for (; i < m; ++i)] of [init_parameters], with [rem = m - i]
    rounds left; [false] is the jump to [cleanup] after the rows allocated so
    far have been freed. *)
Fixpoint alloc_rows (P : program_t) (I_A : ptr) (A : positive)
    (i rem : nat) (s : state) : bool * state :=
  match rem with
  | O => (true, s)
  | S rem' =>
      let c := from_option ad_n 0
                 (AD P !! index_at (load_u16 (heap s) I_A) i) in
      match malloc (Doubles (replicate c d0)) s with
      | (None, s1) => (false, free_rows A i s1)
      | (Some r, s1) =>
          alloc_rows P I_A A (S i) rem' (store_ptr A i (Some r) s1)
      end
  end.

Definition init_parameters_cleanup (I_F I_A F A : ptr) (s : state)
    : option parameters_t * state :=
  let s1 := PyErr_SetString PyExc_MemoryError
              "could not allocate memory in init_parameters!" s in
  (None, free A (free F (free I_A (free I_F s1)))).

Definition init_parameters (P : program_t) (s : state)
    : option parameters_t * state :=
  match init_indices P s with
  | (None, s1) => (None, s1)
  | (Some ix, s1) =>
      let n := i_n ix in
      let m := i_m ix in
      let I_F := i_F ix in
      let I_A := i_A ix in
      match malloc (Pairs (replicate n (d0, d0))) s1 with
      | (None, s2) => init_parameters_cleanup I_F I_A None None s2
      | (Some f, s2) =>
          match malloc (Ptrs (replicate m None)) s2 with
          | (None, s3) => init_parameters_cleanup I_F I_A (Some f) None s3
          | (Some a, s3) =>
              match alloc_rows P I_A a 0 m s3 with
              | (false, s4) =>
                  init_parameters_cleanup I_F I_A (Some f) (Some a) s4
              | (true, s4) =>
                  (Some {| w_n := n; w_m := m; w_F := Some f; w_A := Some a;
                           w_I_F := I_F; w_I_A := I_A |}, s4)
              end
          end
      end
  end.

(** [for (i = 0; i < W->m; ++i) free(W->A[i]);] *)
Definition free_parameter_rows (A : ptr) (m : nat) (s : state) : state :=
  fold_left
    (λ s i, free (default None (load_ptrs (heap s) A !! i)) s)
    (seq 0 m) s.

Definition free_parameters_contents (W : parameters_t) (s : state) : state :=
  free (w_I_A W)
    (free (w_I_F W)
       (free (w_A W)
          (free_parameter_rows (w_A W) (w_m W) (free (w_F W) s)))).

(** ** numpy arrays, as far as the driver looks at them *)

Record PyArrayObject := {
  nd_dims : list Z;                 (* PyArray_DIMS *)
  nd_int : list Z                   (* the elements read through an [int*] *)
}.

Definition PyArray_NDIM (a : PyArrayObject) : nat := length (nd_dims a).
Definition PyArray_SIZE (a : PyArrayObject) : Z := fold_right Z.mul 1%Z (nd_dims a).
Definition PyArray_DIM (a : PyArrayObject) (k : nat) : Z := default 0%Z (nd_dims a !! k).
Definition PyArray_GETPTR1_int (a : PyArrayObject) (i : nat) : Z := default 0%Z (nd_int a !! i).

(** ** Per-observation probabilities filled by the solver *)

Record prob_obs_storage_t := {
  q_o : D;                          (* P(O) *)
  q_F : list (D * D);               (* F[i_pf][1] = P(t = i, O) *)
  q_A : list (list D)               (* A[i_ad][j] = P(t = j, O) *)
}.

Definition q_F1 (W : prob_obs_storage_t) (i_pf : nat) : D :=
  snd (default (d0, d0) (q_F W !! i_pf)).
Definition q_Aj (W : prob_obs_storage_t) (i_ad j : nat) : D :=
  default d0 (default [] (q_A W !! i_ad) !! j).
Definition q_nil : prob_obs_storage_t := {| q_o := d0; q_F := []; q_A := [] |}.

(** ** Writes into the program *)

Definition map_pf_p (g : D → D) (pf : prob_fact_t) : prob_fact_t :=
  {| pf_p := g (pf_p pf); pf_learnable := pf_learnable pf; pf_self := pf_self pf |}.

(** [for (j = 0; j < AD->n; ++j) AD->P[j] = g j (AD->P[j]);] *)
Definition map_ad_P (g : nat → D → D) (ad : annot_disj_t) : annot_disj_t :=
  {| ad_P := fold_left (λ Pj j, alter (g j) j Pj) (seq 0 (ad_n ad)) (ad_P ad);
     ad_learnable := ad_learnable ad; ad_self := ad_self ad |}.

Definition upd_PF (f : prob_fact_t → prob_fact_t) (k : nat) (P : program_t) : program_t :=
  {| PF := alter f k (PF P); AD := AD P |}.
Definition upd_AD (f : annot_disj_t → annot_disj_t) (k : nat) (P : program_t) : program_t :=
  {| PF := PF P; AD := alter f k (AD P) |}.

(** [for (i_pf = 0; i_pf < n; ++i_pf) P->PF[I.F[i_pf]].p = g i_pf (...);] *)
Definition for_facts (I_F : list Z) (n : nat) (g : nat → D → D)
    (P : program_t) : program_t :=
  fold_left (λ Q i_pf, upd_PF (map_pf_p (g i_pf)) (index_at I_F i_pf) Q) (seq 0 n) P.

(** [for (i_ad = 0; i_ad < m; ++i_ad) { AD = &P->AD[I.A[i_ad]];
      for (j = 0; j < AD->n; ++j) AD->P[j] = g i_ad j (AD->P[j]); }] *)
Definition for_disjs (I_A : list Z) (m : nat) (g : nat → nat → D → D)
    (P : program_t) : program_t :=
  fold_left (λ Q i_ad, upd_AD (map_ad_P (g i_ad)) (index_at I_A i_ad) Q) (seq 0 m) P.

(** ** One pass of the learning loop, after the solver has filled [Q0] *)

Section Pass.
Variables (I_F I_A : list Z) (n m : nat).

Definition reset (P : program_t) : program_t :=
  for_disjs I_A m (λ _ _ _, d0) (for_facts I_F n (λ _ _, d0) P).

(** The soft count [c*(x/W->o)] added for one observation. *)
Definition soft (c : Z) (W : prob_obs_storage_t) (x : D) : D :=
  dmul (d_of_int c) (ddiv x (q_o W)).

Definition accumulate_obs (W : prob_obs_storage_t) (c : Z) (P : program_t) : program_t :=
  for_disjs I_A m (λ i_ad j p, dadd p (soft c W (q_Aj W i_ad j)))
    (for_facts I_F n (λ i_pf p, dadd p (soft c W (q_F1 W i_pf))) P).

Definition accumulate (Q0 : list prob_obs_storage_t) (obs_counts : PyArrayObject)
    (O_n : nat) (P : program_t) : program_t :=
  fold_left
    (λ Q i_o, accumulate_obs (default q_nil (Q0 !! i_o))
                (PyArray_GETPTR1_int obs_counts i_o) Q)
    (seq 0 O_n) P.

Definition normalize (N : Z) (P : program_t) : program_t :=
  for_disjs I_A m (λ _ _ p, ddiv p (d_of_size N))
    (for_facts I_F n (λ _ p, ddiv p (d_of_size N)) P).

Definition pass (Q0 : list prob_obs_storage_t) (obs_counts : PyArrayObject)
    (O_n : nat) (N : Z) (P : program_t) : program_t :=
  normalize N (accumulate Q0 obs_counts O_n (reset P)).

End Pass.

(** ** Publish-back adapter *)

Definition pf_nil : prob_fact_t :=
  {| pf_p := d0; pf_learnable := false; pf_self := 1%positive |}.
Definition ad_nil : annot_disj_t :=
  {| ad_P := []; ad_learnable := false; ad_self := 1%positive |}.

(** [PyFloat_FromDouble] allocates a Python float. *)
Definition PyFloat_FromDouble (s : state) : bool * state := next_alloc s.

(** [PyObject_SetAttrString(o, "p", v) >= 0] *)
Definition PyObject_SetAttrString_p (h : handle) (v : D) (s : state) : bool * state :=
  match py s !! h with
  | Some o =>
      if py_p_settable o
      then (true, set_py (<[h := {| py_p := v; py_p_settable := true;
                                    py_P := py_P o |}]> (py s)) s)
      else (false, s)
  | None => (false, s)
  end.

(** [PyObject_GetAttrString(o, "P") != NULL] *)
Definition PyObject_GetAttrString_P (h : handle) (s : state) : bool :=
  match py s !! h with
  | Some o => match py_P o with Some _ => true | None => false end
  | None => false
  end.

(** [PyList_SetItem(o.P, j, v) >= 0]: fails past the end of the list. *)
Definition PyList_SetItem (h : handle) (j : nat) (v : D) (s : state) : bool * state :=
  match py s !! h with
  | Some o =>
      match py_P o with
      | Some l =>
          if j <? length l
          then (true, set_py (<[h := {| py_p := py_p o;
                                        py_p_settable := py_p_settable o;
                                        py_P := Some (<[j := v]> l) |}]> (py s)) s)
          else (false, s)
      | None => (false, s)
      end
  | None => (false, s)
  end.

Definition float_error : pyerr :=
  (PyExc_TypeError, "could not create a Python double from C double!"%string).

(** The first loop of [update_program_parameters], from [i] with [rem]
    rounds left. *)
Fixpoint publish_facts (P : program_t) (I_F : list Z) (i rem : nat) (s : state)
    : bool * state :=
  match rem with
  | O => (true, s)
  | S rem' =>
      let pf := default pf_nil (PF P !! index_at I_F i) in
      match PyFloat_FromDouble s with
      | (false, s1) => (false, PyErr_SetString (fst float_error) (snd float_error) s1)
      | (true, s1) =>
          match PyObject_SetAttrString_p (pf_self pf) (pf_p pf) s1 with
          | (false, s2) =>
              (false, PyErr_SetString PyExc_AttributeError "could not update PF.p!" s2)
          | (true, s2) => publish_facts P I_F (S i) rem' s2
          end
      end
  end.

(** The loop over the outcomes of one disjunction. *)
Fixpoint publish_outcomes (ad : annot_disj_t) (j rem : nat) (s : state)
    : bool * state :=
  match rem with
  | O => (true, s)
  | S rem' =>
      match PyFloat_FromDouble s with
      | (false, s1) => (false, PyErr_SetString (fst float_error) (snd float_error) s1)
      | (true, s1) =>
          match PyList_SetItem (ad_self ad) j (default d0 (ad_P ad !! j)) s1 with
          | (false, s2) => (false, s2)
          | (true, s2) => publish_outcomes ad (S j) rem' s2
          end
      end
  end.

(** The second loop of [update_program_parameters]. *)
Fixpoint publish_disjs (P : program_t) (I_A : list Z) (i rem : nat) (s : state)
    : bool * state :=
  match rem with
  | O => (true, s)
  | S rem' =>
      let ad := default ad_nil (AD P !! index_at I_A i) in
      if PyObject_GetAttrString_P (ad_self ad) s
      then
        match publish_outcomes ad 0 (ad_n ad) s with
        | (false, s1) => (false, s1)
        | (true, s1) => publish_disjs P I_A (S i) rem' s1
        end
      else (false, PyErr_SetString PyExc_AttributeError "could not retrieve AD.P!" s)
  end.

Definition update_program_parameters (P : program_t) (ix : indices_t) (s : state)
    : bool * state :=
  match publish_facts P (load_u16 (heap s) (i_F ix)) 0 (i_n ix) s with
  | (false, s1) => (false, s1)
  | (true, s1) => publish_disjs P (load_u16 (heap s1) (i_A ix)) 0 (i_m ix) s1
  end.

(** ** The driver *)

Section Driver.
(** The observation store and the solver are defined outside this file:
    [observations_t] with its field [n], [init_observations] (failure is
    [None]), [init_prob_storage_seq] (the number of workers set up, 0 on
    failure) and [prob_obs_reuse], which fills [Q[0].P] with one entry per
    observation (failure is [None]). *)
Variable observations_t : Type.
Variable O_n : observations_t → nat.
Variable init_observations : PyArrayObject → PyArrayObject → option observations_t.
Variable init_prob_storage_seq : program_t → observations_t → nat.
Variable prob_obs_reuse :
  program_t → observations_t → bool → option (list prob_obs_storage_t).

Definition free_prob_storage_contents (s : state) : state :=
  set_workers (pred (workers s)) s.

(** The label [cleanup] of [learn_fixpoint]. *)
Definition learn_cleanup (num_procs : nat) (ix : indices_t) (P : program_t)
    (s : state) : bool * program_t * state :=
  (false, P,
   free_indices_contents ix
     (fold_left (λ s _, free_prob_storage_contents s) (seq 0 num_procs) s)).

(** [for (i = 0; i < O.n; ++i) N += (int) obs_counts[i];] *)
Definition total_count (obs_counts : PyArrayObject) (On : nat) : Z :=
  fold_left (λ N i, size_add N (PyArray_GETPTR1_int obs_counts i)) (seq 0 On) 0%Z.

(** The loop [for (i = 0; i < niters; ++i)], with [rem] passes left. *)
Fixpoint iterate (Ob : observations_t) (obs_counts : PyArrayObject)
    (lstable_sat : bool) (I_F I_A : list Z) (n m : nat) (N : Z)
    (rem : nat) (P : program_t) (s : state) : bool * program_t * state :=
  match rem with
  | O => (true, P, s)
  | S rem' =>
      match prob_obs_reuse P Ob lstable_sat with
      | None => (false, P, log Solve s)
      | Some Q0 =>
          let P1 := reset I_F I_A n m P in
          let P2 := accumulate I_F I_A n m Q0 obs_counts (O_n Ob) P1 in
          let P3 := normalize I_F I_A n m N P2 in
          iterate Ob obs_counts lstable_sat I_F I_A n m N rem' P3
            (log Normalize (log Accumulate (log Reset (log Solve s))))
      end
  end.

Definition indices_zero : indices_t :=
  {| i_n := 0; i_m := 0; i_F := None; i_A := None |}.

(** The test of the dimensions at the head of [learn_fixpoint]. *)
Definition bad_dimensions (obs obs_counts atoms : PyArrayObject) : bool :=
  negb (PyArray_NDIM obs =? 2) || negb (PyArray_NDIM obs_counts =? 1)
  || negb (PyArray_NDIM atoms =? 1)
  || negb (PyArray_SIZE atoms =? PyArray_DIM obs 1)%Z
  || negb (PyArray_SIZE obs_counts =? PyArray_DIM obs 0)%Z.

(** [learn_fixpoint]: the value returned, the program as the call leaves it,
    and the final state. *)
Definition learn_fixpoint (P : program_t) (obs obs_counts atoms : PyArrayObject)
    (niters : nat) (lstable_sat : bool) (s : state) : bool * program_t * state :=
  if bad_dimensions obs obs_counts atoms then
    learn_cleanup 0 indices_zero P
      (PyErr_SetString PyExc_ValueError
         "unexpected size dimension for obs, obs_counts and/or atoms in learn_fixpoint!" s)
  else
    match init_observations obs atoms with
    | None => learn_cleanup 0 indices_zero P s
    | Some Ob =>
        match init_indices P s with
        | (None, s1) => learn_cleanup 0 indices_zero P s1
        | (Some ix, s1) =>
            if (i_n ix =? 0) && (i_m ix =? 0) then
              (false, P,
               PyErr_SetString PyExc_ValueError "program is not learnable!" s1)
            else
              let num_procs := init_prob_storage_seq P Ob in
              let s2 := set_workers (workers s1 + num_procs) s1 in
              if num_procs =? 0 then learn_cleanup num_procs ix P s2
              else
                let N := total_count obs_counts (O_n Ob) in
                let I_F := load_u16 (heap s2) (i_F ix) in
                let I_A := load_u16 (heap s2) (i_A ix) in
                match iterate Ob obs_counts lstable_sat I_F I_A (i_n ix) (i_m ix) N
                        niters P s2 with
                | (false, P', s3) => learn_cleanup num_procs ix P' s3
                | (true, P', s3) =>
                    match update_program_parameters P' ix s3 with
                    | (false, s4) =>
                        learn_cleanup num_procs ix P'
                          (PyErr_SetString PyExc_AttributeError
                             "could not update program parameters!" s4)
                    | (true, s4) => (true, P', s4)
                    end
                end
        end
    end.

End Driver.

End Model.

Arguments prob_fact_t : clear implicits.
Arguments annot_disj_t : clear implicits.
Arguments program_t : clear implicits.
Arguments block : clear implicits.
Arguments py_obj : clear implicits.
Arguments state : clear implicits.
Arguments prob_obs_storage_t : clear implicits.

(** ** Notions of the specification *)

(** The positions of the learnable entries of a collection, counted from
    [i], in ascending order. *)
Fixpoint learnable_from {A} (learnable : A → bool) (i : nat) (l : list A) : list nat :=
  match l with
  | [] => []
  | x :: l' =>
      if learnable x then i :: learnable_from learnable (S i) l'
      else learnable_from learnable (S i) l'
  end.

(** The phases of one pass, in the order of the source. *)
Definition pass_phases : list phase := [Solve; Reset; Accumulate; Normalize].

(** The invariant of an index sequence of [n] entries over a collection. *)
Definition index_set {A} (learnable : A → bool) (l : list A) (n : nat)
    (ixs : list Z) : Prop :=
  (∀ i : nat, Z.of_nat i ∈ ixs ↔ ∃ x, l !! i = Some x ∧ learnable x = true)
  ∧ StronglySorted Z.lt ixs
  ∧ NoDup ixs
  ∧ (∀ z, z ∈ ixs → (0 ≤ z < Z.of_nat (length l))%Z)
  ∧ length ixs = n
  ∧ n = length (filter (λ x, learnable x = true) l).

Section Notions.
Context {D : Type} `{DoubleOps D}.

(** Two states that differ at most in the heap and in the allocation plan. *)
Definition same_world (s s' : state D) : Prop :=
  errs s' = errs s ∧ py s' = py s ∧ workers s' = workers s ∧ trace s' = trace s.

(** [h'] is [h] with the blocks at the fresh addresses [new] added. *)
Definition heap_grows (h h' : gmap positive (block D)) (new : list positive) : Prop :=
  NoDup new
  ∧ (∀ a, a ∈ new → h !! a = None ∧ is_Some (h' !! a))
  ∧ (∀ a, a ∉ new → h' !! a = h !! a).

(** The accumulator of the fact at index-set position [k] after the first
    [On] observations, started from [p0]: the sum over the observations [o]
    of [c_o * (P(t = k, O) / P(O))], added from left to right. *)
Definition fact_acc (Q0 : list (prob_obs_storage_t D)) (obs_counts : PyArrayObject)
    (On : nat) (k : nat) (p0 : D) : D :=
  fold_left
    (λ acc i_o,
       let W := default q_nil (Q0 !! i_o) in
       dadd acc (soft (PyArray_GETPTR1_int obs_counts i_o) W (q_F1 W k)))
    (seq 0 On) p0.

(** The same for outcome [j] of the disjunction at index-set position [k]. *)
Definition outcome_acc (Q0 : list (prob_obs_storage_t D)) (obs_counts : PyArrayObject)
    (On : nat) (k j : nat) (p0 : D) : D :=
  fold_left
    (λ acc i_o,
       let W := default q_nil (Q0 !! i_o) in
       dadd acc (soft (PyArray_GETPTR1_int obs_counts i_o) W (q_Aj W k j)))
    (seq 0 On) p0.

(** The sum of the first [On] repeat counts. *)
Definition sum_counts (obs_counts : PyArrayObject) (On : nat) : Z :=
  fold_left Z.add (PyArray_GETPTR1_int obs_counts <$> seq 0 On) 0%Z.

(** Two facts, two disjunctions, two programs that differ at most in their
    probabilities. *)
Definition pf_like (a b : prob_fact_t D) : Prop :=
  pf_learnable b = pf_learnable a ∧ pf_self b = pf_self a.
Definition ad_like (a b : annot_disj_t D) : Prop :=
  ad_learnable b = ad_learnable a ∧ ad_self b = ad_self a ∧ ad_n b = ad_n a.
Definition same_shape (P P' : program_t D) : Prop :=
  Forall2 pf_like (PF P) (PF P') ∧ Forall2 ad_like (AD P) (AD P').

(** The error raised by [learn_fixpoint] when publishing fails. *)
Definition publish_error : pyerr :=
  (PyExc_AttributeError, "could not update program parameters!"%string).

(** The writes of the publish-back adapter into Python objects: the
    attribute [p] of the object at [h], or item [j] of its list [P]. *)
Inductive py_write :=
| WriteFact (h : handle) (v : D)
| WriteOutcome (h : handle) (j : nat) (v : D).

Definition write_target (w : py_write) : handle :=
  match w with WriteFact h _ => h | WriteOutcome h _ _ => h end.

Definition apply_write (o : gmap handle (py_obj D)) (w : py_write)
    : gmap handle (py_obj D) :=
  match w with
  | WriteFact h v =>
      alter (λ ob, {| py_p := v; py_p_settable := true; py_P := py_P ob |}) h o
  | WriteOutcome h j v =>
      alter (λ ob, {| py_p := py_p ob; py_p_settable := py_p_settable ob;
                      py_P := (λ l, <[j := v]> l) <$> py_P ob |}) h o
  end.

(** The writes that publish a program, in the order of
    [update_program_parameters]. *)
Definition fact_write (P : program_t D) (I_F : list Z) (i : nat) : py_write :=
  let pf := default pf_nil (PF P !! index_at I_F i) in
  WriteFact (pf_self pf) (pf_p pf).
Definition outcome_write (ad : annot_disj_t D) (j : nat) : py_write :=
  WriteOutcome (ad_self ad) j (default d0 (ad_P ad !! j)).
Definition disj_writes (P : program_t D) (I_A : list Z) (i : nat) : list py_write :=
  let ad := default ad_nil (AD P !! index_at I_A i) in
  outcome_write ad <$> seq 0 (ad_n ad).
Definition publish_writes (P : program_t D) (I_F I_A : list Z) (n m : nat)
    : list py_write :=
  (fact_write P I_F <$> seq 0 n) ++ mjoin (disj_writes P I_A <$> seq 0 m).

(** The Python side is ready to receive the program: the object of every
    fact named by the index array has an attribute [p] that can be set, the
    object of every disjunction named by the index array has a list [P]
    with room for all its outcomes. *)
Definition py_ready (P : program_t D) (I_F I_A : list Z) (n m : nat)
    (o : gmap handle (py_obj D)) : Prop :=
  (∀ i, i < n →
     ∃ ob, o !! pf_self (default pf_nil (PF P !! index_at I_F i)) = Some ob
           ∧ py_p_settable ob = true)
  ∧ (∀ i, i < m →
       ∃ ob l, o !! ad_self (default ad_nil (AD P !! index_at I_A i)) = Some ob
               ∧ py_P ob = Some l
               ∧ ad_n (default ad_nil (AD P !! index_at I_A i)) ≤ length l).

(** [o'] has every object of [o], and what lets a write succeed is kept:
    an attribute that could be set can still be set, a list is still a list
    of the same length. *)
Definition py_keeps (o o' : gmap handle (py_obj D)) : Prop :=
  ∀ h ob, o !! h = Some ob →
    ∃ ob', o' !! h = Some ob'
           ∧ (py_p_settable ob = true → py_p_settable ob' = true)
           ∧ (∀ l, py_P ob = Some l →
                ∃ l', py_P ob' = Some l' ∧ length l' = length l).

(** The state of the heap after [i] rounds of the row loop of
    [init_parameters], started on the heap [h0] with the array of row
    pointers at [A]: [rows] are the [i] rows allocated so far. *)
Definition rows_inv (P : program_t D) (I_A : list Z) (A : positive) (m : nat)
    (h0 : gmap positive (block D)) (i : nat) (s : state D) (rows : list positive)
    : Prop :=
  length rows = i
  ∧ NoDup rows
  ∧ (∀ r, r ∈ rows → h0 !! r = None)
  ∧ heap s !! A = Some (Ptrs ((Some <$> rows) ++ replicate (m - i) None))
  ∧ (∀ a, a ∉ rows → a ≠ A → heap s !! a = h0 !! a)
  ∧ (∀ j r, rows !! j = Some r →
       heap s !! r
       = Some (Doubles (replicate (from_option ad_n 0 (AD P !! index_at I_A j)) d0))).

End Notions.

(** ** Concrete programs and states used in examples *)

Section Scenarios.
Context {D : Type} `{DoubleOps D}.

(** A state with an empty heap, in which no allocation request fails. *)
Definition state_init (o : gmap handle (py_obj D)) : state D :=
  {| heap := ∅; plan := []; errs := []; py := o; workers := 0; trace := [] |}.

Definition fact (p : D) (learnable : bool) (self : handle) : prob_fact_t D :=
  {| pf_p := p; pf_learnable := learnable; pf_self := self |}.

Definition disj (ps : list D) (learnable : bool) (self : handle) : annot_disj_t D :=
  {| ad_P := ps; ad_learnable := learnable; ad_self := self |}.

(** One fact that is not learnable. *)
Definition program_fixed (p : D) : program_t D :=
  {| PF := [fact p false 1%positive]; AD := [] |}.

(** One learnable fact and two learnable disjunctions, of 2 and 3 outcomes. *)
Definition program_rows (p : D) : program_t D :=
  {| PF := [fact p true 1%positive];
     AD := [disj [p; p] true 2%positive; disj [p; p; p] true 3%positive] |}.

(** A state with an empty heap in which the allocation requests succeed or
    fail as listed. *)
Definition state_plan (pl : list bool) : state D :=
  {| heap := ∅; plan := pl; errs := []; py := ∅; workers := 0; trace := [] |}.

(** The scenario of the specification: one learnable fact, whose Python
    object is at handle 7, and the solver's answer for the two observations,
    [P(t = 1, O) = p09, P(O) = one] and [P(t = 1, O) = p01, P(O) = one]. *)
Definition program_one (p : D) : program_t D :=
  {| PF := [fact p true 7%positive]; AD := [] |}.
Definition py_one (p : D) : gmap handle (py_obj D) :=
  {[ 7%positive := {| py_p := p; py_p_settable := true; py_P := None |} ]}.
Definition scenario (one p09 p01 : D) : list (prob_obs_storage_t D) :=
  [ {| q_o := one; q_F := [(p01, p09)]; q_A := [] |};
    {| q_o := one; q_F := [(p09, p01)]; q_A := [] |} ].

(** Three facts, the last two learnable. *)
Definition program_small (p : D) : program_t D :=
  {| PF := [fact p false 1%positive; fact p true 2%positive;
            fact p true 3%positive];
     AD := [] |}.

(** 65536 facts that are not learnable, followed by a learnable one. *)
Definition program_wide (p : D) : program_t D :=
  {| PF := replicate (Z.to_nat 65536) (fact p false 1%positive)
           ++ [fact p true 2%positive];
     AD := [] |}.

(** Collaborators for examples: the observation store is its number of
    observations (the row count of the matrix), one worker is set up, and the
    solver returns the same probabilities at every call. *)
Definition observe (obs atoms : PyArrayObject) : option nat :=
  Some (Z.to_nat (PyArray_DIM obs 0)).
Definition one_worker (P : program_t D) (On : nat) : nat := 1.
Definition solver_fixed (Q0 : list (prob_obs_storage_t D))
    (P : program_t D) (On : nat) (lstable_sat : bool)
    : option (list (prob_obs_storage_t D)) := Some Q0.

Definition learn_with (Q0 : list (prob_obs_storage_t D)) :=
  learn_fixpoint nat (λ n, n) observe one_worker (solver_fixed Q0).

(** Two observations over one atom, seen 3 times and once. *)
Definition obs_2x1 : PyArrayObject := {| nd_dims := [2; 1]%Z; nd_int := [1; 0]%Z |}.
Definition counts_3_1 : PyArrayObject := {| nd_dims := [2]%Z; nd_int := [3; 1]%Z |}.
Definition atoms_1 : PyArrayObject := {| nd_dims := [1]%Z; nd_int := [] |}.
(** Two atom labels for a matrix of one column. *)
Definition atoms_2 : PyArrayObject := {| nd_dims := [2]%Z; nd_int := [] |}.

(** Two learnable facts whose Python objects are at handles 1 and 2; the
    second object does not let its attribute [p] be set. *)
Definition program_pair (p : D) : program_t D :=
  {| PF := [fact p true 1%positive; fact p true 2%positive]; AD := [] |}.
Definition py_pair (p : D) (second_settable : bool) : gmap handle (py_obj D) :=
  {[ 1%positive := {| py_p := p; py_p_settable := true; py_P := None |};
     2%positive := {| py_p := p; py_p_settable := second_settable; py_P := None |} ]}.
Definition scenario_pair (one p09 p01 : D) : list (prob_obs_storage_t D) :=
  [ {| q_o := one; q_F := [(p01, p09); (p01, p09)]; q_A := [] |};
    {| q_o := one; q_F := [(p09, p01); (p09, p01)]; q_A := [] |} ].

(** A fact that is not learnable followed by a learnable one. *)
Definition program_mixed (p : D) : program_t D :=
  {| PF := [fact p false 1%positive; fact p true 2%positive]; AD := [] |}.

End Scenarios.

(** The runs used as examples, in rational arithmetic. *)
Definition half : Qc := Q2Qc (1 # 2).
Definition scenario_Qc : list (prob_obs_storage_t Qc) :=
  scenario (Q2Qc 1) (Q2Qc (9 # 10)) (Q2Qc (1 # 10)).

(** Publishing fails at the second fact. *)
Definition run_pair : bool * program_t Qc * state Qc :=
  learn_with (scenario_pair (Q2Qc 1) (Q2Qc (9 # 10)) (Q2Qc (1 # 10)))
    (program_pair half) obs_2x1 counts_3_1 atoms_1 1 false
    (state_init (py_pair half false)).

(** A learnable fact at position 65536. *)
Definition run_wide : bool * program_t Qc * state Qc :=
  learn_with scenario_Qc (program_wide half) obs_2x1 counts_3_1 atoms_1 1 false
    (state_init (py_pair half true)).

(** The sum of a list of rationals. *)
Definition sum_Qc (l : list Qc) : Qc := foldr Qcplus 0%Qc l.

(** The contract of the solver for one call, over the program [P] and the
    disjunction index array [I_A] of [m] entries: for each of the [On]
    observations, [P(O)] is not zero and, for every disjunction of the index
    array, the joint probabilities of its outcomes sum to [P(O)]. *)
Definition solver_contract (P : program_t Qc) (I_A : list Z) (m On : nat)
    (Q0 : list (prob_obs_storage_t Qc)) : Prop :=
  ∀ i_o, i_o < On →
    q_o (default q_nil (Q0 !! i_o)) ≠ 0%Qc
    ∧ ∀ k ad, k < m → AD P !! index_at I_A k = Some ad →
        sum_Qc (q_Aj (default q_nil (Q0 !! i_o)) k <$> seq 0 (ad_n ad))
        = q_o (default q_nil (Q0 !! i_o)).

(** One learnable disjunction of two outcomes, with its Python object at
    handle 1, and probabilities of the solver for two observations that
    satisfy the contract. *)
Definition program_disj {D} (p : D) : program_t D :=
  {| PF := []; AD := [disj [p; p] true 1%positive] |}.
Definition py_disj {D} (p : D) : gmap handle (py_obj D) :=
  {[ 1%positive := {| py_p := p; py_p_settable := true; py_P := Some [p; p] |} ]}.
Definition scenario_disj : list (prob_obs_storage_t Qc) :=
  [ {| q_o := Q2Qc 1; q_F := []; q_A := [[Q2Qc (3 # 4); Q2Qc (1 # 4)]] |};
    {| q_o := Q2Qc (1 # 2); q_F := []; q_A := [[Q2Qc (1 # 4); Q2Qc (1 # 4)]] |} ].

(** One observation seen zero times, in binary64; the probabilities of the
    solver satisfy the contract: 0.5 + 0.5 = 1. *)
Definition obs_1x1 : PyArrayObject := {| nd_dims := [1; 1]%Z; nd_int := [1]%Z |}.
Definition counts_0 : PyArrayObject := {| nd_dims := [1]%Z; nd_int := [0]%Z |}.
Definition scenario_zero : list (prob_obs_storage_t spec_float) :=
  [ {| q_o := B64.lit 1 1; q_F := [];
       q_A := [[B64.lit 1 2; B64.lit 1 2]] |} ].
Definition run_zero_count : bool * program_t spec_float * state spec_float :=
  learn_with scenario_zero (program_disj (B64.lit 1 2)) obs_1x1 counts_0 atoms_1
    1 false (state_init (py_disj (B64.lit 1 2))).

Definition run_mixed : bool * program_t Qc * state Qc :=
  learn_with scenario_Qc (program_mixed half) obs_2x1 counts_3_1 atoms_1 1 false
    (state_init (py_pair half true)).

(** *** Accuracy of the arithmetic of a pass *)

(** [v] is [r] up to the relative error [ε], for [r] not negative. *)
Definition rel_err (ε r v : Qc) : Prop :=
  ((1 - ε) * r ≤ v ∧ v ≤ (1 + ε) * r)%Qc.

(** The operation that gave [z] from [x] and [y] was accurate: [z] is finite
    and its value is the exact result [f] on the values of [x] and [y], up
    to the relative error [ε]. IEEE 754 promises this of binary64 with
    [ε = 2^-53] wherever the result neither overflows nor underflows. *)
Definition op_accurate {D} `{DoubleVal D} (ε : Qc) (f : Qc → Qc → Qc)
    (x y z : D) : Prop :=
  dfinite z = true ∧ rel_err ε (f (dval x) (dval y)) (dval z).

(** Every operation that a pass performs for outcome [j] of the disjunction
    at position [k] of the index array was accurate: for each observation
    the division [W->A[k][j] / W->o], the product with the repeat count and
    the addition to the accumulator, and at the end the division by [N]. *)
Definition outcome_accurate {D} `{DoubleOps D} `{DoubleVal D} (ε : Qc)
    (Q0 : list (prob_obs_storage_t D)) (obs_counts : PyArrayObject)
    (On : nat) (N : Z) (k j : nat) : Prop :=
  (∀ o, o < On →
     let W := default q_nil (Q0 !! o) in
     let c := d_of_int (PyArray_GETPTR1_int obs_counts o) in
     let q := ddiv (q_Aj W k j) (q_o W) in
     let acc := outcome_acc Q0 obs_counts o k j d0 in
     op_accurate ε Qcdiv (q_Aj W k j) (q_o W) q
     ∧ op_accurate ε Qcmult c q (dmul c q)
     ∧ op_accurate ε Qcplus acc (dmul c q) (dadd acc (dmul c q)))
  ∧ op_accurate ε Qcdiv (outcome_acc Q0 obs_counts On k j d0) (d_of_size N)
      (ddiv (outcome_acc Q0 obs_counts On k j d0) (d_of_size N)).

(** The repeat counts are not negative, and they, their total [N] and the
    constant 0 are converted to [double] without error. *)
Definition counts_exact {D} `{DoubleOps D} `{DoubleVal D}
    (obs_counts : PyArrayObject) (On : nat) (N : Z) : Prop :=
  dval d0 = 0%Qc
  ∧ dval (d_of_size N) = Qc_of_Z N
  ∧ ∀ o, o < On →
      (0 ≤ PyArray_GETPTR1_int obs_counts o)%Z
      ∧ dval (d_of_int (PyArray_GETPTR1_int obs_counts o))
        = Qc_of_Z (PyArray_GETPTR1_int obs_counts o).

(** The contract of the solver on the values of the doubles it returns: for
    each of the [On] observations [P(O)] is positive and, for every
    disjunction of the index array, the joint probabilities of its outcomes
    are not negative and sum (as numbers) to [P(O)]. *)
Definition solver_contract_val {D} `{DoubleOps D} `{DoubleVal D}
    (P : program_t D) (I_A : list Z) (m On : nat)
    (Q0 : list (prob_obs_storage_t D)) : Prop :=
  ∀ o, o < On →
    (0 < dval (q_o (default q_nil (Q0 !! o))))%Qc
    ∧ ∀ k ad, k < m → AD P !! index_at I_A k = Some ad →
        (∀ j, j < ad_n ad → (0 ≤ dval (q_Aj (default q_nil (Q0 !! o)) k j))%Qc)
        ∧ sum_Qc ((λ j, dval (q_Aj (default q_nil (Q0 !! o)) k j))
                    <$> seq 0 (ad_n ad))
          = dval (q_o (default q_nil (Q0 !! o))).

(** The number that exact arithmetic gives to the accumulator of outcome [j]
    of the disjunction at position [k] after [On] observations. *)
Definition outcome_ref {D} `{DoubleOps D} `{DoubleVal D}
    (Q0 : list (prob_obs_storage_t D)) (obs_counts : PyArrayObject)
    (On k j : nat) : Qc :=
  sum_Qc ((λ o, Qc_of_Z (PyArray_GETPTR1_int obs_counts o)
                * (dval (q_Aj (default q_nil (Q0 !! o)) k j)
                   / dval (q_o (default q_nil (Q0 !! o)))))%Qc
            <$> seq 0 On).

(** A run in binary64 whose divisions round: [P(O) = 3] with joint
    probabilities 1 and 2, and [P(O) = 1/2] with 1/4 and 1/4. *)
Definition scenario_thirds : list (prob_obs_storage_t spec_float) :=
  [ {| q_o := B64.of_Z 3; q_F := []; q_A := [[B64.of_Z 1; B64.of_Z 2]] |};
    {| q_o := B64.lit 1 2; q_F := []; q_A := [[B64.lit 1 4; B64.lit 1 4]] |} ].

(** Two observations with the repeat counts 2^30 and -(2^30 - 1), whose sum
    is 1; the joint probabilities 1 and 2 (and 2 and 1) sum to [P(O) = 3]
    without rounding. *)
Definition counts_cancel : PyArrayObject :=
  {| nd_dims := [2]%Z; nd_int := [1073741824; -1073741823]%Z |}.
Definition scenario_cancel : list (prob_obs_storage_t spec_float) :=
  [ {| q_o := B64.of_Z 3; q_F := []; q_A := [[B64.of_Z 1; B64.of_Z 2]] |};
    {| q_o := B64.of_Z 3; q_F := []; q_A := [[B64.of_Z 2; B64.of_Z 1]] |} ].
Definition run_cancel : bool * program_t spec_float * state spec_float :=
  learn_with scenario_cancel (program_disj (B64.lit 1 2)) obs_2x1 counts_cancel
    atoms_1 1 false (state_init (py_disj (B64.lit 1 2))).

(** One learnable disjunction of three outcomes, and one observation seen
    once for which [P(O) = 3] and the joint probabilities are 2^30 + 1, 1
    and 1 - 2^30: they sum to 3, one of them is negative. *)
Definition program_three : program_t spec_float :=
  {| PF := [];
     AD := [disj [B64.lit 1 2; B64.lit 1 2; B64.lit 1 2] true 1%positive] |}.
Definition counts_1 : PyArrayObject := {| nd_dims := [1]%Z; nd_int := [1]%Z |}.
Definition scenario_negative : list (prob_obs_storage_t spec_float) :=
  [ {| q_o := B64.of_Z 3; q_F := [];
       q_A := [[B64.of_Z 1073741825; B64.of_Z 1; B64.of_Z (-1073741823)]] |} ].
Definition run_negative : bool * program_t spec_float * state spec_float :=
  iterate nat (λ n, n) (solver_fixed scenario_negative) 1 counts_1 false
    [] [0%Z] 0 1 1 1 program_three (state_init ∅).

(** A solver that answers only as long as the first fact of the program has
    probability 1/2. *)
Definition solver_while_half (Q0 : list (prob_obs_storage_t Qc))
    (P : program_t Qc) (On : nat) (lstable_sat : bool)
    : option (list (prob_obs_storage_t Qc)) :=
  match PF P !! 0 with
  | Some pf => if Qeq_bool (this (pf_p pf)) (1 # 2) then Some Q0 else None
  | None => None
  end.

(** The index arrays of [program_pair], as [init_indices] builds them on an
    empty heap, and the state that holds them. *)
Definition indices_pair : indices_t :=
  {| i_n := 2; i_m := 0; i_F := Some 1%positive; i_A := None |}.
Definition state_pair (second_settable : bool) : state Qc :=
  {| heap := {[ 1%positive := U16s [0; 1]%Z ]}; plan := []; errs := [];
     py := py_pair half second_settable; workers := 0; trace := [] |}.

(** ** Properties of the index builder *)

Section IndexBuilder.
Context {A : Type} (learnable : A → bool).

Lemma count_learnable_from (l : list A) (i : nat) :
  count_learnable learnable l = length (learnable_from learnable i l).
Proof.
  unfold count_learnable.
  enough (G : ∀ a, fold_left (λ n x, if learnable x then S n else n) l a
                   = a + length (learnable_from learnable i l))
    by (rewrite G; lia).
  revert i. induction l as [|x l IH]; intros i a; simpl; [lia|].
  rewrite (IH (S i)). destruct (learnable x); simpl; lia.
Qed.

Lemma learnable_from_filter (l : list A) (i : nat) :
  length (learnable_from learnable i l) = length (filter (λ x, learnable x = true) l).
Proof.
  revert i. induction l as [|x l IH]; intros i; [done|].
  simpl. rewrite filter_cons. destruct (learnable x) eqn:E.
  - rewrite decide_True by done. simpl. by rewrite IH.
  - rewrite decide_False by congruence. apply IH.
Qed.

Lemma learnable_from_elem (l : list A) (i k : nat) :
  k ∈ learnable_from learnable i l
  ↔ i ≤ k ∧ ∃ x, l !! (k - i) = Some x ∧ learnable x = true.
Proof.
  revert i. induction l as [|x l IH]; intros i; simpl.
  - split; [by intros ?%elem_of_nil | by intros (_ & y & ? & _)].
  - assert (R : k ∈ learnable_from learnable (S i) l
                ↔ i < k ∧ ∃ y, (x :: l) !! (k - i) = Some y ∧ learnable y = true).
    { rewrite IH. split.
      - intros (Hle & y & Hy & Hl). split; [lia|]. exists y. split; [|done].
        replace (k - i) with (S (k - S i)) by lia. done.
      - intros (Hlt & y & Hy & Hl). split; [lia|]. exists y. split; [|done].
        replace (k - i) with (S (k - S i)) in Hy by lia. done. }
    destruct (learnable x) eqn:E.
    + rewrite elem_of_cons, R. split.
      * intros [->|(Hlt & Hx)]; [|split; [lia|done]].
        split; [lia|]. exists x. by rewrite Nat.sub_diag.
      * intros (Hle & Hx). destruct (decide (k = i)) as [->|]; [by left|].
        right. split; [lia|done].
    + rewrite R. split.
      * intros (Hlt & Hx). split; [lia|done].
      * intros (Hle & y & Hy & Hl). destruct (decide (k = i)) as [->|].
        { rewrite Nat.sub_diag in Hy. simpl in Hy. congruence. }
        split; [lia|]. by exists y.
Qed.

Lemma learnable_from_bounds (l : list A) (i k : nat) :
  k ∈ learnable_from learnable i l → i ≤ k < i + length l.
Proof.
  rewrite learnable_from_elem. intros (Hle & x & Hx & _).
  apply lookup_lt_Some in Hx. lia.
Qed.

Lemma learnable_from_sorted (l : list A) (i : nat) :
  StronglySorted lt (learnable_from learnable i l).
Proof.
  revert i. induction l as [|x l IH]; intros i; simpl; [constructor|].
  destruct (learnable x); [|apply IH].
  constructor; [apply IH|].
  apply Forall_forall. intros k Hk%learnable_from_bounds. lia.
Qed.

Lemma fill_indices_spec (l : list A) (i j : nat) (arr : list Z) :
  j + length (learnable_from learnable i l) ≤ length arr →
  fill_indices learnable l i j arr
  = take j arr ++ (to_u16 <$> learnable_from learnable i l)
    ++ drop (j + length (learnable_from learnable i l)) arr.
Proof.
  revert i j arr. induction l as [|x l IH]; intros i j arr Hlen; simpl in *.
  - by rewrite Nat.add_0_r, take_drop.
  - destruct (learnable x); simpl in *; [|by apply IH].
    rewrite IH by (rewrite length_insert; lia).
    rewrite (take_S_r _ j (to_u16 i)) by (apply list_lookup_insert_eq; lia).
    rewrite take_insert_ge by lia.
    rewrite drop_insert_lt by lia.
    rewrite <- app_assoc. simpl. do 4 f_equal. lia.
Qed.

Lemma fill_indices_exact (l : list A) :
  fill_indices learnable l 0 0
    (replicate (count_learnable learnable l) 0%Z)
  = to_u16 <$> learnable_from learnable 0 l.
Proof.
  rewrite fill_indices_spec
    by (rewrite length_replicate, (count_learnable_from l 0); lia).
  simpl. rewrite drop_ge, app_nil_r; [done|].
  rewrite length_replicate, (count_learnable_from l 0). lia.
Qed.

Lemma StronglySorted_lt_NoDup (l : list nat) : StronglySorted lt l → NoDup l.
Proof.
  induction 1 as [|x l _ IH Hall]; constructor; [|done].
  intros Hin. rewrite Forall_forall in Hall. specialize (Hall x Hin). lia.
Qed.

(** Within the range of [uint16_t] the index array is the ascending list of
    the learnable positions. *)
Lemma index_set_learnable_from (l : list A) :
  (Z.of_nat (length l) ≤ 65536)%Z →
  index_set learnable l (count_learnable learnable l)
    (to_u16 <$> learnable_from learnable 0 l).
Proof.
  intros Hlen.
  assert (E : to_u16 <$> learnable_from learnable 0 l
              = Z.of_nat <$> learnable_from learnable 0 l).
  { apply Forall_fmap_ext, Forall_forall. intros k Hk%learnable_from_bounds.
    unfold to_u16. apply Z.mod_small. lia. }
  rewrite E. repeat split.
  - rewrite (list_elem_of_fmap_inj Z.of_nat), learnable_from_elem.
    rewrite Nat.sub_0_r. by intros (_ & Hx).
  - intros Hx. rewrite (list_elem_of_fmap_inj Z.of_nat), learnable_from_elem.
    rewrite Nat.sub_0_r. split; [lia|done].
  - eapply StronglySorted_fmap; [|apply learnable_from_sorted].
    intros x y. lia.
  - apply (NoDup_fmap Z.of_nat), StronglySorted_lt_NoDup, learnable_from_sorted.
  - apply list_elem_of_fmap in H as (k & -> & Hk). lia.
  - apply list_elem_of_fmap in H as (k & -> & Hk%learnable_from_bounds). lia.
  - rewrite length_fmap. by rewrite (count_learnable_from l 0).
  - rewrite (count_learnable_from l 0). apply learnable_from_filter.
Qed.

End IndexBuilder.

Section Allocator.
Context {D : Type} `{DoubleOps D}.
Implicit Types (s : state D) (b : block D) (h : gmap positive (block D)).

Lemma same_world_refl s : same_world s s.
Proof. by repeat split. Qed.

Lemma same_world_trans s1 s2 s3 :
  same_world s1 s2 → same_world s2 s3 → same_world s1 s3.
Proof.
  intros (?&?&?&?) (?&?&?&?). repeat split; congruence.
Qed.

Lemma malloc_inv b s p s' :
  malloc b s = (p, s') →
  same_world s s' ∧ plan s' = tail (plan s)
  ∧ match p with
    | Some a => heap s !! a = None ∧ heap s' = <[a := b]> (heap s)
                ∧ head (plan s) ≠ Some false
    | None => heap s' = heap s ∧ head (plan s) = Some false
    end.
Proof.
  unfold malloc, next_alloc.
  destruct (plan s) as [|[] pl] eqn:E; intros [= <- <-]; simpl;
    (split; [by repeat split|]); (split; [done|]); try done.
  - split; [|done]. apply not_elem_of_dom, is_fresh.
  - split; [|done]. apply not_elem_of_dom, is_fresh.
Qed.

Lemma free_same_world p s : same_world s (free p s).
Proof. by destruct p; repeat split. Qed.

Lemma heap_grows_nil h : heap_grows h h [].
Proof.
  split; [constructor|]. split; [by intros a ?%elem_of_nil | done].
Qed.

Lemma heap_grows_insert h a b :
  h !! a = None → heap_grows h (<[a := b]> h) [a].
Proof.
  intros Ha. split; [apply NoDup_singleton|]. split.
  - intros a' ->%list_elem_of_singleton. by rewrite lookup_insert_eq.
  - intros a' Hne. rewrite list_elem_of_singleton in Hne.
    by rewrite lookup_insert_ne.
Qed.

Lemma heap_grows_app h h1 h2 n1 n2 :
  heap_grows h h1 n1 → heap_grows h1 h2 n2 → heap_grows h h2 (n1 ++ n2).
Proof.
  intros (ND1 & New1 & Old1) (ND2 & New2 & Old2).
  assert (Hdisj : ∀ a, a ∈ n1 → a ∉ n2).
  { intros a H1 H2. destruct (New1 a H1) as [_ [x Hx]].
    destruct (New2 a H2) as [Hn _]. congruence. }
  split; [|split].
  - apply NoDup_app. done.
  - intros a [H1|H2]%elem_of_app.
    + destruct (New1 a H1) as [? ?]. split; [done|].
      rewrite Old2 by auto. done.
    + destruct (New2 a H2) as [Hn ?]. split; [|done].
      rewrite <- Old1; [done|]. intros H1. by apply (Hdisj a).
  - intros a Hn. rewrite not_elem_of_app in Hn. destruct Hn.
    rewrite Old2, Old1; done.
Qed.

End Allocator.

Section Indices.
Context {D : Type} `{DoubleOps D}.
Implicit Types (s : state D) (P : program_t D).

Lemma build_index_array_inv {A} (learnable : A → bool) (l : list A) s r s' :
  build_index_array learnable l (count_learnable learnable l) s = (r, s') →
  same_world s s'
  ∧ (false ∉ plan s → false ∉ plan s')
  ∧ match r with
    | None => heap s' = heap s ∧ false ∈ plan s
    | Some None => heap s' = heap s ∧ learnable_from learnable 0 l = []
    | Some (Some a) =>
        heap s !! a = None
        ∧ heap s' = <[a := U16s (to_u16 <$> learnable_from learnable 0 l)]> (heap s)
    end.
Proof.
  unfold build_index_array.
  destruct (count_learnable learnable l) as [|n] eqn:En.
  - intros [= <- <-]. split; [apply same_world_refl|]. split; [done|].
    split; [done|]. rewrite (count_learnable_from learnable l 0) in En.
    by apply nil_length_inv.
  - rewrite <- En. destruct (malloc _ s) as [[a|] s1] eqn:Em;
      apply malloc_inv in Em as (Hw & Hpl & Hm); intros [= <- <-].
    + destruct Hm as (Hfresh & Hheap & _).
      split; [by destruct Hw as (?&?&?&?)|]. split.
      { simpl. rewrite Hpl. intros Hn Hin. apply Hn.
        destruct (plan s); [done|]. by right. }
      split; [done|]. simpl. rewrite Hheap, insert_insert_eq.
      by rewrite fill_indices_exact.
    + destruct Hm as (Hheap & Hhd). split; [done|]. split.
      { rewrite Hpl. intros Hn Hin. apply Hn.
        destruct (plan s); [done|]. by right. }
      split; [done|]. destruct (plan s) as [|b pl]; [done|].
      injection Hhd as ->. by left.
Qed.

Lemma init_indices_inv P s r s' :
  init_indices P s = (r, s') →
  (false ∉ plan s → false ∉ plan s')
  ∧ match r with
    | Some ix =>
        same_world s s'
        ∧ i_n ix = count_learnable pf_learnable (PF P)
        ∧ i_m ix = count_learnable ad_learnable (AD P)
        ∧ load_u16 (heap s') (i_F ix) = to_u16 <$> learnable_from pf_learnable 0 (PF P)
        ∧ load_u16 (heap s') (i_A ix) = to_u16 <$> learnable_from ad_learnable 0 (AD P)
        ∧ heap_grows (heap s) (heap s') (option_list (i_F ix) ++ option_list (i_A ix))
    | None =>
        heap s' = heap s
        ∧ errs s' = errs s ++ [(PyExc_MemoryError,
                                "could not allocate memory in init_indices!"%string)]
        ∧ py s' = py s ∧ workers s' = workers s ∧ trace s' = trace s
        ∧ false ∈ plan s
    end.
Proof.
  unfold init_indices, init_indices_cleanup.
  destruct (build_index_array pf_learnable _ _ s) as [[pF|] s1] eqn:E1;
    apply build_index_array_inv in E1 as ((He1&Hp1&Hk1&Ht1) & Hpl1 & H1).
  2:{ intros [= <- <-]. destruct H1 as [Hh Hf]. simpl.
      split; [tauto|]. by rewrite Hh, He1. }
  destruct (build_index_array ad_learnable _ _ s1) as [[pA|] s2] eqn:E2;
    apply build_index_array_inv in E2 as ((He2&Hp2&Hk2&Ht2) & Hpl2 & H2).
  2:{ intros [= <- <-]. destruct H2 as [Hh Hf]. split; [tauto|].
      assert (Hf' : false ∈ plan s) by (destruct (decide (false ∈ plan s)); tauto).
      destruct pF as [a|]; simpl.
      - destruct H1 as [Hn Hh1]. rewrite Hh, Hh1, delete_insert_id by done.
        repeat split; congruence.
      - destruct H1 as [Hh1 _]. repeat split; congruence. }
  intros [= <- <-]. split; [tauto|]. simpl.
  split; [repeat split; congruence|]. do 2 (split; [done|]).
  assert (G1 : heap_grows (heap s) (heap s1) (option_list pF)
               ∧ load_u16 (heap s1) pF = to_u16 <$> learnable_from pf_learnable 0 (PF P)).
  { destruct pF as [a|]; simpl.
    - destruct H1 as [Hn ->]. split; [by apply heap_grows_insert|].
      by rewrite lookup_insert_eq.
    - destruct H1 as [-> ->]. split; [apply heap_grows_nil | done]. }
  assert (G2 : heap_grows (heap s1) (heap s2) (option_list pA)
               ∧ load_u16 (heap s2) pA = to_u16 <$> learnable_from ad_learnable 0 (AD P)).
  { destruct pA as [a|]; simpl.
    - destruct H2 as [Hn ->]. split; [by apply heap_grows_insert|].
      by rewrite lookup_insert_eq.
    - destruct H2 as [-> ->]. split; [apply heap_grows_nil | done]. }
  destruct G1 as [G1 L1], G2 as [G2 L2].
  split; [|split; [done|by eapply heap_grows_app]].
  rewrite <- L1. destruct pF as [a|]; [|done]. simpl.
  destruct G2 as (_ & New2 & Old2). rewrite Old2; [done|].
  intros Hin. destruct (New2 a Hin) as [Hn _].
  destruct H1 as [_ Hh1]. rewrite Hh1, lookup_insert_eq in Hn. done.
Qed.

(** Within the range of [uint16_t] the arrays built are index sets. *)
Lemma init_indices_built P s ix s' :
  (Z.of_nat (length (PF P)) ≤ 65536)%Z →
  (Z.of_nat (length (AD P)) ≤ 65536)%Z →
  init_indices P s = (Some ix, s') →
  index_set pf_learnable (PF P) (i_n ix) (load_u16 (heap s') (i_F ix))
  ∧ index_set ad_learnable (AD P) (i_m ix) (load_u16 (heap s') (i_A ix)).
Proof.
  intros HF HA E.
  apply init_indices_inv in E as (_ & _ & -> & -> & -> & -> & _).
  split; by apply index_set_learnable_from.
Qed.

End Indices.

(** ** C2: the index sets *)

(** C2 (as amended). For every program with at most 65536 facts and at most
    65536 disjunctions, [init_indices] succeeds whenever no allocation
    request fails, and the two index arrays it returns hold exactly the
    positions whose learnable flag is set, strictly ascending, without
    duplicates, each a valid index into its collection, as many as there are
    learnable entries. *)
Theorem init_indices_index_sets {D : Type} `{DoubleOps D}
    (P : program_t D) (s : state D) :
  (Z.of_nat (length (PF P)) ≤ 65536)%Z →
  (Z.of_nat (length (AD P)) ≤ 65536)%Z →
  (false ∉ plan s → ∃ ix s', init_indices P s = (Some ix, s'))
  ∧ ∀ ix s', init_indices P s = (Some ix, s') →
      index_set pf_learnable (PF P) (i_n ix) (load_u16 (heap s') (i_F ix))
      ∧ index_set ad_learnable (AD P) (i_m ix) (load_u16 (heap s') (i_A ix)).
Proof.
  intros HF HA. split.
  - intros Hplan. destruct (init_indices P s) as [[ix|] s'] eqn:E; [by eauto|].
    apply init_indices_inv in E as (_ & _ & _ & _ & _ & _ & Hf). done.
  - intros ix s' E. by apply (init_indices_built P s).
Qed.

Lemma init_indices_index_sets_witness :
  (Z.of_nat (length (PF (program_small (Q2Qc 0)))) ≤ 65536)%Z
  ∧ index_set pf_learnable (PF (program_small (Q2Qc 0))) 2 [1; 2]%Z.
Proof.
  split; [vm_compute; discriminate|].
  destruct (init_indices_index_sets (program_small (Q2Qc 0)) (state_init ∅))
    as [_ Hs]; [vm_compute; discriminate..|].
  edestruct Hs as [HF _]; [vm_compute; reflexivity|]. exact HF.
Defined.

(** The index of a learnable fact at position 65536 is stored as 0: the
    index array of [program_wide] names a fact that is not learnable and
    misses the one that is. *)
Lemma init_indices_wide_program :
  ∃ ix s', init_indices (program_wide (Q2Qc 0)) (state_init ∅) = (Some ix, s')
    ∧ ¬ index_set pf_learnable (PF (program_wide (Q2Qc 0))) (i_n ix)
          (load_u16 (heap s') (i_F ix)).
Proof.
  eexists _, _. split; [vm_compute; reflexivity|].
  intros (Hmem & _). specialize (Hmem 0).
  destruct Hmem as [Hm _].
  destruct Hm as (x & Hx & Hl); [vm_compute; by left|].
  vm_compute in Hx. injection Hx as <-. discriminate Hl.
Qed.

(** ** The driver: validation, rejection, number of passes *)

Section DriverProperties.
Context {D : Type} `{DoubleOps D}.
Variable observations_t : Type.
Variable O_n : observations_t → nat.
Variable init_observations : PyArrayObject → PyArrayObject → option observations_t.
Variable init_prob_storage_seq : program_t D → observations_t → nat.
Variable prob_obs_reuse :
  program_t D → observations_t → bool → option (list (prob_obs_storage_t D)).
Implicit Types (s : state D) (P : program_t D).

Local Abbreviation learn := (learn_fixpoint observations_t O_n init_observations
                               init_prob_storage_seq prob_obs_reuse).
Local Abbreviation iter := (iterate observations_t O_n prob_obs_reuse).

Lemma bad_dimensions_true (obs obs_counts atoms : PyArrayObject) :
  bad_dimensions obs obs_counts atoms = true
  ↔ PyArray_NDIM obs ≠ 2
    ∨ PyArray_NDIM obs_counts ≠ 1
    ∨ PyArray_SIZE obs_counts ≠ PyArray_DIM obs 0
    ∨ PyArray_NDIM atoms ≠ 1
    ∨ PyArray_SIZE atoms ≠ PyArray_DIM obs 1.
Proof.
  unfold bad_dimensions.
  rewrite !orb_true_iff, !negb_true_iff, !Nat.eqb_neq, !Z.eqb_neq. tauto.
Qed.

(** C9. An observation matrix that is not 2-D, a repeat-count vector that is
    not 1-D or whose length is not the number of observations, or an
    atom-label vector that is not 1-D or whose length is not the number of
    columns of the matrix, makes [learn_fixpoint] return [false] with the
    ValueError of the dimension test as the only effect: the program, the
    heap and the allocation plan are as before the call, so the error is
    raised before any allocation is requested. *)
Theorem learn_fixpoint_bad_dimensions P obs obs_counts atoms niters lstable_sat s :
  PyArray_NDIM obs ≠ 2
  ∨ PyArray_NDIM obs_counts ≠ 1
  ∨ PyArray_SIZE obs_counts ≠ PyArray_DIM obs 0
  ∨ PyArray_NDIM atoms ≠ 1
  ∨ PyArray_SIZE atoms ≠ PyArray_DIM obs 1 →
  learn P obs obs_counts atoms niters lstable_sat s
  = (false, P,
     PyErr_SetString PyExc_ValueError
       "unexpected size dimension for obs, obs_counts and/or atoms in learn_fixpoint!" s).
Proof.
  intros Hbad%bad_dimensions_true. unfold learn_fixpoint. by rewrite Hbad.
Qed.

Lemma count_learnable_none {A} (learnable : A → bool) (l : list A) :
  (∀ x, x ∈ l → learnable x = false) → count_learnable learnable l = 0.
Proof.
  intros Hall. rewrite (count_learnable_from learnable l 0).
  assert (E : ∀ i, learnable_from learnable i l = []); [|by rewrite E].
  induction l as [|x l IH]; intros i; [done|]. simpl.
  rewrite (Hall x) by by left. apply IH. intros y Hy. apply Hall. by right.
Qed.

Lemma init_indices_none_learnable P s :
  Forall (λ pf, pf_learnable pf = false) (PF P) →
  Forall (λ ad, ad_learnable ad = false) (AD P) →
  init_indices P s = (Some indices_zero, s).
Proof.
  rewrite !Forall_forall. intros HF HA. unfold init_indices.
  by rewrite (count_learnable_none _ _ HF), (count_learnable_none _ _ HA).
Qed.

(** C5. For a program without learnable fact or disjunction: [init_indices]
    itself succeeds, with two empty ([NULL]) index arrays and without
    requesting any allocation; [learn_fixpoint] returns [false] leaving the
    heap, the allocation plan and the worker storage as they were (nothing is
    allocated, nothing is left to release); and once the dimensions have
    passed the test and the observations are set up, the error raised is the
    ValueError "program is not learnable!", raised by [learn_fixpoint]. *)
Theorem learn_fixpoint_not_learnable P obs obs_counts atoms niters lstable_sat s :
  Forall (λ pf, pf_learnable pf = false) (PF P) →
  Forall (λ ad, ad_learnable ad = false) (AD P) →
  init_indices P s = (Some indices_zero, s)
  ∧ (∃ s', learn P obs obs_counts atoms niters lstable_sat s = (false, P, s')
           ∧ heap s' = heap s ∧ plan s' = plan s ∧ workers s' = workers s
           ∧ py s' = py s)
  ∧ (bad_dimensions obs obs_counts atoms = false →
     is_Some (init_observations obs atoms) →
     learn P obs obs_counts atoms niters lstable_sat s
     = (false, P, PyErr_SetString PyExc_ValueError "program is not learnable!" s)).
Proof.
  intros HF HA. pose proof (init_indices_none_learnable P s HF HA) as Hi.
  split; [done|]. unfold learn_fixpoint. rewrite Hi. simpl. split.
  - destruct (bad_dimensions obs obs_counts atoms); [by eexists|].
    destruct (init_observations obs atoms); by eexists.
  - intros -> [Ob ->]. done.
Qed.

Lemma next_alloc_frame s b s' :
  next_alloc s = (b, s') →
  heap s' = heap s ∧ workers s' = workers s ∧ trace s' = trace s
  ∧ py s' = py s ∧ errs s' = errs s.
Proof.
  unfold next_alloc. destruct (plan s); by intros [= <- <-].
Qed.

Lemma publish_facts_frame P I_F rem : ∀ i s b s',
  publish_facts P I_F i rem s = (b, s') →
  heap s' = heap s ∧ workers s' = workers s ∧ trace s' = trace s.
Proof.
  induction rem as [|rem IH]; intros i s b s'; simpl; [by intros [= <- <-]|].
  unfold PyFloat_FromDouble.
  destruct (next_alloc s) as [[] s1] eqn:E1;
    apply next_alloc_frame in E1 as (?&?&?&_); [|intros [= <- <-]; simpl; by eauto].
  unfold PyObject_SetAttrString_p.
  destruct (py s1 !! _) as [o|]; [destruct (py_p_settable o)|].
  - intros (?&?&?)%IH. simpl in *. repeat split; congruence.
  - intros [= <- <-]. simpl. by eauto.
  - intros [= <- <-]. simpl. by eauto.
Qed.

Lemma publish_outcomes_frame ad rem : ∀ j s b s',
  publish_outcomes ad j rem s = (b, s') →
  heap s' = heap s ∧ workers s' = workers s ∧ trace s' = trace s.
Proof.
  induction rem as [|rem IH]; intros j s b s'; simpl; [by intros [= <- <-]|].
  unfold PyFloat_FromDouble.
  destruct (next_alloc s) as [[] s1] eqn:E1;
    apply next_alloc_frame in E1 as (?&?&?&_); [|intros [= <- <-]; simpl; by eauto].
  unfold PyList_SetItem.
  destruct (py s1 !! _) as [o|]; [destruct (py_P o) as [l|]|];
    [destruct (j <? length l)|..]; try (intros [= <- <-]; simpl; by eauto).
  intros (?&?&?)%IH. simpl in *. repeat split; congruence.
Qed.

Lemma publish_disjs_frame P I_A rem : ∀ i s b s',
  publish_disjs P I_A i rem s = (b, s') →
  heap s' = heap s ∧ workers s' = workers s ∧ trace s' = trace s.
Proof.
  induction rem as [|rem IH]; intros i s b s'; simpl; [by intros [= <- <-]|].
  destruct (PyObject_GetAttrString_P _ s); [|intros [= <- <-]; simpl; by eauto].
  destruct (publish_outcomes _ 0 _ s) as [[] s1] eqn:E1;
    apply publish_outcomes_frame in E1 as (?&?&?).
  - intros (?&?&?)%IH. repeat split; congruence.
  - intros [= <- <-]. by eauto.
Qed.

Lemma update_program_parameters_frame P ix s b s' :
  update_program_parameters P ix s = (b, s') →
  heap s' = heap s ∧ workers s' = workers s ∧ trace s' = trace s.
Proof.
  unfold update_program_parameters.
  destruct (publish_facts _ _ 0 _ s) as [[] s1] eqn:E1;
    apply publish_facts_frame in E1 as (?&?&?).
  - intros (?&?&?)%publish_disjs_frame. repeat split; congruence.
  - intros [= <- <-]. by eauto.
Qed.

Lemma iterate_inv Ob oc ls I_F I_A n m N rem : ∀ P s b P' s',
  iter Ob oc ls I_F I_A n m N rem P s = (b, P', s') →
  heap s' = heap s ∧ plan s' = plan s ∧ errs s' = errs s ∧ py s' = py s
  ∧ workers s' = workers s
  ∧ (b = true → trace s' = trace s ++ concat (replicate rem pass_phases)).
Proof.
  induction rem as [|rem IH]; intros P s b P' s'; simpl.
  - intros [= <- <- <-]. rewrite app_nil_r. by eauto 10.
  - destruct (prob_obs_reuse P Ob ls) as [Q0|]; [|by intros [= <- <- <-]].
    intros (?&?&?&?&?&Ht)%IH. simpl in *. do 5 (split; [done|]).
    intros Hb. rewrite (Ht Hb). by rewrite <- !app_assoc.
Qed.

(** The programs the loop goes through: the sequence starts at the program
    given, ends at the program returned, and every step is one pass (reset,
    accumulation, normalization) on the answer of the solver for the program
    before it. *)
Lemma iterate_chain Ob oc ls I_F I_A n m N rem : ∀ P s P' s',
  iter Ob oc ls I_F I_A n m N rem P s = (true, P', s') →
  ∃ Ps : list (program_t D),
    length Ps = S rem ∧ Ps !! 0 = Some P ∧ Ps !! rem = Some P'
    ∧ ∀ i, i < rem →
        ∃ Pi Q0, Ps !! i = Some Pi
                 ∧ prob_obs_reuse Pi Ob ls = Some Q0
                 ∧ Ps !! S i = Some (pass I_F I_A n m Q0 oc (O_n Ob) N Pi).
Proof.
  induction rem as [|rem IH]; intros P s P' s'; cbn [iterate].
  - intros [= <- <-]. exists [P]. do 3 (split; [done|]). intros i Hi. lia.
  - destruct (prob_obs_reuse P Ob ls) as [Q0|] eqn:EQ; [|done].
    intros (Ps & Hlen & H0 & Hlast & Hstep)%IH.
    exists (P :: Ps). split; [simpl; lia|]. do 2 (split; [done|]).
    intros [|i] Hi.
    + exists P, Q0. do 2 (split; [done|]). exact H0.
    + destruct (Hstep i) as (Pi & Qi & HPi & HQi & HS); [lia|].
      exists Pi, Qi. done.
Qed.

(** C8. A call of [learn_fixpoint] that returns [true] has run exactly
    [niters] full passes, whatever the parameter values are. The program it
    returns is the last of a sequence of [niters + 1] programs that starts
    at the program given and in which every program is obtained from the one
    before it by one pass, on the answer of the solver for that program,
    over the index arrays of [init_indices] and with the [N] of the call:
    the solver has been called [niters] times, and reset, accumulation and
    normalization have been applied [niters] times. The phases logged are
    [niters] repetitions of solver call, reset, accumulation and
    normalization: no pass is skipped or cut short. *)
Theorem learn_fixpoint_runs_niters_passes P obs obs_counts atoms niters lstable_sat s P' s' :
  learn P obs obs_counts atoms niters lstable_sat s = (true, P', s') →
  trace s' = trace s ++ concat (replicate niters pass_phases)
  ∧ ∃ Ob ix s1 (Ps : list (program_t D)),
      init_observations obs atoms = Some Ob
      ∧ init_indices P s = (Some ix, s1)
      ∧ length Ps = S niters ∧ Ps !! 0 = Some P ∧ Ps !! niters = Some P'
      ∧ ∀ i, i < niters →
          ∃ Pi Q0, Ps !! i = Some Pi
                   ∧ prob_obs_reuse Pi Ob lstable_sat = Some Q0
                   ∧ Ps !! S i
                     = Some (pass (load_u16 (heap s1) (i_F ix))
                               (load_u16 (heap s1) (i_A ix)) (i_n ix) (i_m ix)
                               Q0 obs_counts (O_n Ob)
                               (total_count obs_counts (O_n Ob)) Pi).
Proof.
  unfold learn_fixpoint, learn_cleanup.
  destruct (bad_dimensions obs obs_counts atoms); [done|].
  destruct (init_observations obs atoms) as [Ob|]; [|done].
  destruct (init_indices P s) as [[ix|] s1] eqn:Ei; [|done].
  apply init_indices_inv in Ei as (_ & (_&_&_&Ht1) & _).
  destruct (_ && _); [done|].
  destruct (init_prob_storage_seq P Ob =? 0); [done|].
  destruct (iter _ _ _ _ _ _ _ _ _ _ _) as [[[] P1] s3] eqn:Eit; [|done].
  pose proof Eit as (Ps & Hlen & H0 & Hlast & Hstep)%iterate_chain.
  apply iterate_inv in Eit as (_&_&_&_&_&Ht3). specialize (Ht3 eq_refl).
  destruct (update_program_parameters P1 ix s3) as [[] s4] eqn:Eu; [|done].
  apply update_program_parameters_frame in Eu as (_&_&Ht4).
  intros [= <- <-]. split.
  - rewrite Ht4, Ht3. simpl. by rewrite Ht1.
  - exists Ob, ix, s1, Ps. done.
Qed.

End DriverProperties.

Lemma learn_fixpoint_bad_dimensions_witness :
  PyArray_SIZE atoms_2 ≠ PyArray_DIM obs_2x1 1
  ∧ learn_with [] (program_small (Q2Qc 0)) obs_2x1 counts_3_1 atoms_2 1 false
      (state_init ∅)
    = (false, program_small (Q2Qc 0),
       PyErr_SetString PyExc_ValueError
         "unexpected size dimension for obs, obs_counts and/or atoms in learn_fixpoint!"
         (state_init ∅)).
Proof.
  split; [vm_compute; discriminate|].
  apply (learn_fixpoint_bad_dimensions nat (λ n, n) observe one_worker
           (solver_fixed [])).
  do 4 right. vm_compute. discriminate.
Defined.

Lemma learn_fixpoint_runs_niters_passes_witness :
  ∃ P' s',
    learn_with (scenario (Q2Qc 1) (Q2Qc (9 # 10)) (Q2Qc (1 # 10)))
      (program_one (Q2Qc (1 # 2))) obs_2x1 counts_3_1 atoms_1 3 false
      (state_init (py_one (Q2Qc (1 # 2))))
    = (true, P', s')
    ∧ trace s' = [] ++ concat (replicate 3 pass_phases)
    ∧ ∃ Ob ix s1 (Ps : list (program_t Qc)),
        observe obs_2x1 atoms_1 = Some Ob
        ∧ init_indices (program_one (Q2Qc (1 # 2)))
            (state_init (py_one (Q2Qc (1 # 2)))) = (Some ix, s1)
        ∧ length Ps = 4 ∧ Ps !! 0 = Some (program_one (Q2Qc (1 # 2)))
        ∧ Ps !! 3 = Some P'
        ∧ ∀ i, i < 3 →
            ∃ Pi Q0, Ps !! i = Some Pi
              ∧ solver_fixed (scenario (Q2Qc 1) (Q2Qc (9 # 10)) (Q2Qc (1 # 10)))
                  Pi Ob false = Some Q0
              ∧ Ps !! S i
                = Some (pass (load_u16 (heap s1) (i_F ix))
                          (load_u16 (heap s1) (i_A ix)) (i_n ix) (i_m ix)
                          Q0 counts_3_1 Ob (total_count counts_3_1 Ob) Pi).
Proof.
  eexists _, _. split; [vm_compute; reflexivity|].
  eapply (learn_fixpoint_runs_niters_passes nat (λ n, n) observe one_worker
           (solver_fixed (scenario (Q2Qc 1) (Q2Qc (9 # 10)) (Q2Qc (1 # 10))))
           (program_one (Q2Qc (1 # 2))) obs_2x1 counts_3_1 atoms_1 3 false
           (state_init (py_one (Q2Qc (1 # 2))))).
  vm_compute. reflexivity.
Defined.

Lemma learn_fixpoint_not_learnable_witness :
  Forall (λ pf, pf_learnable pf = false) (PF (program_fixed (Q2Qc 0)))
  ∧ learn_with [] (program_fixed (Q2Qc 0)) obs_2x1 counts_3_1 atoms_1 1 false
      (state_init ∅)
    = (false, program_fixed (Q2Qc 0),
       PyErr_SetString PyExc_ValueError "program is not learnable!" (state_init ∅)).
Proof.
  split; [by repeat constructor|].
  apply (learn_fixpoint_not_learnable nat (λ n, n) observe one_worker
           (solver_fixed []) (program_fixed (Q2Qc 0)) obs_2x1 counts_3_1 atoms_1
           1 false (state_init ∅)); [by repeat constructor..| reflexivity | by eexists].
Defined.

(** ** Parameter storage: rollback and shape *)

Section Storage.
Context {D : Type} `{DoubleOps D}.
Implicit Types (s : state D) (P : program_t D) (h : gmap positive (block D)).

Lemma free_lookup p s a :
  heap (free p s) !! a = if decide (p = Some a) then None else heap s !! a.
Proof.
  destruct (decide (p = Some a)) as [->|Hne]; simpl.
  - by rewrite lookup_delete_eq.
  - destruct p as [a'|]; simpl; [|done].
    rewrite lookup_delete_ne; [done | congruence].
Qed.

Lemma frees_lookup (ps : list ptr) s a :
  heap (foldr free s ps) !! a
  = if decide (Some a ∈ ps) then None else heap s !! a.
Proof.
  induction ps as [|p ps IH].
  - destruct (decide (Some a ∈ [])) as [Hin|]; [by apply elem_of_nil in Hin | done].
  - cbn [foldr]. rewrite free_lookup, IH.
    destruct (decide (Some a ∈ p :: ps)) as [Hn|Hn],
      (decide (p = Some a)) as [Hp|Hp]; [done| |by destruct Hn; subst; left|].
    + apply elem_of_cons in Hn as [?|?]; [congruence|].
      destruct (decide (Some a ∈ ps)); done.
    + destruct (decide (Some a ∈ ps)); [|done]. destruct Hn. by right.
Qed.

Lemma frees_same_world (ps : list ptr) s :
  same_world s (foldr free s ps) ∧ plan (foldr free s ps) = plan s.
Proof.
  induction ps as [|p ps [IH1 IH2]]; simpl; [by split; [apply same_world_refl|]|].
  split.
  - eapply same_world_trans; [exact IH1 | apply free_same_world].
  - rewrite <- IH2. by destruct p.
Qed.

Lemma free_rows_inv A (xs : list ptr) i : ∀ s (rows : list positive),
  heap s !! A = Some (Ptrs xs) →
  take i xs = Some <$> rows →
  length rows = i →
  A ∉ rows →
  same_world s (free_rows A i s)
  ∧ plan (free_rows A i s) = plan s
  ∧ ∀ a, heap (free_rows A i s) !! a
         = if decide (a ∈ rows) then None else heap s !! a.
Proof.
  unfold free_rows. induction i as [|i IH]; intros s rows HA Htake Hlen HnA.
  - destruct rows; [|done]. simpl. split; [apply same_world_refl|].
    split; [done|]. intros a.
    destruct (decide (a ∈ [])) as [Hin|]; [by apply elem_of_nil in Hin | done].
  - destruct (lookup_lt_is_Some_2 rows i) as [r Hr]; [lia|].
    assert (Hrows : rows = take i rows ++ [r]).
    { rewrite <- (take_drop i rows) at 1. f_equal.
      rewrite (drop_S _ r) by done. rewrite drop_ge by lia. done. }
    assert (Hxi : xs !! i = Some (Some r)).
    { rewrite <- (lookup_take_lt xs (S i) i) by lia. rewrite Htake.
      by rewrite list_lookup_fmap, Hr. }
    assert (Htake' : take i xs = Some <$> take i rows).
    { rewrite fmap_take, <- Htake, take_take. f_equal. lia. }
    assert (Hsub : ∀ a, a ∈ take i rows → a ∈ rows).
    { intros a (j & Hj & _)%elem_of_take. by eapply list_elem_of_lookup_2. }
    destruct (IH s (take i rows) HA Htake') as (Hw & Hpl & Hl).
    { rewrite length_take. lia. }
    { intros Hin. by apply HnA, Hsub. }
    rewrite seq_S, fold_left_app. simpl.
    set (si := fold_left _ (seq 0 i) s) in *.
    assert (HAi : heap si !! A = Some (Ptrs xs)).
    { rewrite Hl. destruct (decide (A ∈ take i rows)) as [Hin|]; [|done].
      exfalso. by apply HnA, Hsub. }
    rewrite HAi, Hxi. simpl. split; [|split].
    + destruct Hw as (?&?&?&?). by repeat split.
    + done.
    + intros a. rewrite lookup_delete, Hl.
      assert (Hiff : a ∈ rows ↔ a ∈ take i rows ∨ a = r).
      { rewrite Hrows at 1. rewrite elem_of_app, list_elem_of_singleton. done. }
      destruct (decide (a ∈ rows)) as [Hn|Hn],
        (decide (r = a)) as [Hr'|Hr']; [done| |by destruct Hn; apply Hiff; right|].
      * apply Hiff in Hn as [Hin|?]; [|congruence].
        destruct (decide (a ∈ take i rows)); done.
      * destruct (decide (a ∈ take i rows)) as [Hin|]; [|done].
        destruct Hn. apply Hiff. by left.
Qed.

Lemma rows_inv_allocated P IA A m h0 i s rows r :
  rows_inv P IA A m h0 i s rows → r ∈ rows → is_Some (heap s !! r).
Proof.
  intros (_&_&_&_&_&Hrow) (j & Hj)%list_elem_of_lookup. rewrite (Hrow j r Hj). eauto.
Qed.

Lemma alloc_rows_inv P (I_Ap : ptr) A m h0 :
  h0 !! A = Some (Ptrs (replicate m None)) →
  (∀ ia, I_Ap = Some ia → ia ≠ A ∧ is_Some (h0 !! ia)) →
  ∀ rem i s rows b s',
    i + rem = m →
    rows_inv P (load_u16 h0 I_Ap) A m h0 i s rows →
    alloc_rows P I_Ap A i rem s = (b, s') →
    same_world s s'
    ∧ (false ∉ plan s → b = true ∧ false ∉ plan s')
    ∧ if b then ∃ rows', rows_inv P (load_u16 h0 I_Ap) A m h0 m s' rows'
      else ∀ a, a ≠ A → heap s' !! a = h0 !! a.
Proof.
  intros HA0 HIA. induction rem as [|rem IH]; intros i s rows b s' Him Hinv; simpl.
  { intros [= <- <-]. split; [apply same_world_refl|]. split; [done|].
    exists rows. assert (i = m) as -> by lia. done. }
  pose proof Hinv as (Hlen & Hnd & Hfresh & HA & Hframe & Hrow).
  assert (HnA : A ∉ rows).
  { intros Hin. specialize (Hfresh A Hin). congruence. }
  assert (Hload : load_u16 (heap s) I_Ap = load_u16 h0 I_Ap).
  { destruct I_Ap as [ia|]; [|done]. simpl.
    destruct (HIA ia eq_refl) as [Hne [x Hx]]. rewrite Hframe; [done| |done].
    intros Hin. specialize (Hfresh ia Hin). congruence. }
  rewrite Hload.
  set (c := from_option ad_n 0 (AD P !! index_at (load_u16 h0 I_Ap) i)).
  destruct (malloc (Doubles (replicate c d0)) s) as [[r|] s1] eqn:Em;
    apply malloc_inv in Em as (Hw1 & Hpl1 & Hm).
  - destruct Hm as (Hr & Hh1 & Hhd).
    assert (HrA : r ≠ A) by (intros ->; congruence).
    assert (Hrrows : r ∉ rows).
    { intros Hin. destruct (rows_inv_allocated _ _ _ _ _ _ _ _ _ Hinv Hin). congruence. }
    unfold store_ptr. rewrite Hh1, lookup_insert_ne, HA by done.
    intros Hrec. eapply (IH (S i) _ (rows ++ [r])) in Hrec; [|lia|].
    + destruct Hrec as (Hw & Hplan & Hres). split; [|split; [|done]].
      * eapply same_world_trans; [exact Hw1|]. destruct Hw as (?&?&?&?).
        by repeat split.
      * intros Hn. apply Hplan. simpl. rewrite Hpl1. intros Hin. apply Hn.
        destruct (plan s); [done|]. by right.
    + unfold rows_inv. cbn [heap store set_heap]. rewrite Hh1. split; [|split; [|split; [|split; [|split]]]].
      * rewrite length_app. simpl. lia.
      * apply NoDup_app. split; [done|]. split; [|apply NoDup_singleton].
        intros x Hx ->%list_elem_of_singleton. done.
      * intros x [Hx| ->%list_elem_of_singleton]%elem_of_app; [by apply Hfresh|].
        rewrite <- Hframe; done.
      * rewrite lookup_insert_eq. do 2 f_equal.
        rewrite insert_app_r_alt by (rewrite length_fmap; lia).
        rewrite length_fmap, Hlen, Nat.sub_diag.
        replace (m - i) with (S (m - S i)) by lia. simpl.
        rewrite fmap_app, <- app_assoc. done.
      * intros a [Ha1 Ha2]%not_elem_of_app Hne.
        rewrite list_elem_of_singleton in Ha2.
        rewrite !lookup_insert_ne by done. by apply Hframe.
      * intros j x [[Hj Hx]|[-> ->]]%lookup_snoc_Some.
        -- assert (Hxin : x ∈ rows) by (by eapply list_elem_of_lookup_2).
           rewrite !lookup_insert_ne; [by apply Hrow| |].
           ++ intros ->. done.
           ++ intros ->. done.
        -- rewrite lookup_insert_ne, lookup_insert_eq by done. by rewrite Hlen.
  - destruct Hm as (Hh1 & Hhd). intros [= <- <-].
    destruct (free_rows_inv A ((Some <$> rows) ++ replicate (m - i) None) i s1 rows)
      as (Hw & Hpl & Hl).
    { rewrite Hh1. exact HA. }
    { apply take_app_length'. by rewrite length_fmap. }
    { done. }
    { done. }
    split; [by eapply same_world_trans|]. split.
    { intros Hn. destruct (plan s) as [|b pl]; [done|].
      injection Hhd as ->. destruct Hn. by left. }
    intros a Hne. rewrite Hl, Hh1.
    destruct (decide (a ∈ rows)) as [Hin|Hin]; [by rewrite Hfresh|by apply Hframe].
Qed.

Lemma elem_of_ptr_list a (p : ptr) : a ∈ option_list p ↔ p = Some a.
Proof.
  destruct p as [a'|]; simpl.
  - rewrite list_elem_of_singleton. split; congruence.
  - split; [by intros ?%elem_of_nil | done].
Qed.

Lemma lookup_restore h h4 h' (ps : list ptr) :
  (∀ a, h' !! a = if decide (Some a ∈ ps) then None else h4 !! a) →
  (∀ a, Some a ∉ ps → h4 !! a = h !! a) →
  (∀ a, Some a ∈ ps → h !! a = None) →
  h' = h.
Proof.
  intros Hl Hout Hin. apply map_eq. intros a. rewrite Hl.
  destruct (decide (Some a ∈ ps)); [by rewrite Hin | by apply Hout].
Qed.

Lemma init_parameters_cleanup_inv (I_F I_A F A : ptr) s r s' :
  init_parameters_cleanup I_F I_A F A s = (r, s') →
  r = None
  ∧ py s' = py s ∧ workers s' = workers s ∧ trace s' = trace s
  ∧ errs s' = errs s ++ [(PyExc_MemoryError,
                          "could not allocate memory in init_parameters!"%string)]
  ∧ ∀ a, heap s' !! a
         = if decide (Some a ∈ [A; F; I_A; I_F]) then None else heap s !! a.
Proof.
  unfold init_parameters_cleanup. intros [= <- <-]. split; [done|].
  set (s1 := PyErr_SetString _ _ s).
  change (free A (free F (free I_A (free I_F s1))))
    with (foldr free s1 [A; F; I_A; I_F]).
  destruct (frees_same_world [A; F; I_A; I_F] s1) as [(?&?&?&?) _].
  do 4 (split; [done|]). intros a. by rewrite frees_lookup.
Qed.

(** [init_parameters]: on failure the heap is as before the call and one
    MemoryError has been raised; on success the storage mirrors the index
    arrays. *)
Lemma init_parameters_inv P s r s' :
  init_parameters P s = (r, s') →
  (false ∉ plan s → is_Some r)
  ∧ py s' = py s ∧ workers s' = workers s ∧ trace s' = trace s
  ∧ match r with
    | None =>
        heap s' = heap s
        ∧ ∃ msg, errs s' = errs s ++ [(PyExc_MemoryError, msg)]
    | Some W =>
        errs s' = errs s
        ∧ w_n W = count_learnable pf_learnable (PF P)
        ∧ w_m W = count_learnable ad_learnable (AD P)
        ∧ load_u16 (heap s') (w_I_F W) = to_u16 <$> learnable_from pf_learnable 0 (PF P)
        ∧ load_u16 (heap s') (w_I_A W) = to_u16 <$> learnable_from ad_learnable 0 (AD P)
        ∧ (∃ f, w_F W = Some f
                ∧ heap s' !! f = Some (Pairs (replicate (w_n W) (d0, d0))))
        ∧ (∃ a rows, w_A W = Some a
                ∧ heap s' !! a = Some (Ptrs (Some <$> rows))
                ∧ length rows = w_m W
                ∧ ∀ j r, rows !! j = Some r →
                    heap s' !! r
                    = Some (Doubles
                        (replicate
                           (from_option ad_n 0
                              (AD P !! index_at (load_u16 (heap s') (w_I_A W)) j))
                           d0)))
    end.
Proof.
  unfold init_parameters.
  destruct (init_indices P s) as [[ix|] s1] eqn:Ei;
    apply init_indices_inv in Ei as (Hpl1 & Hi).
  2:{ intros [= <- <-]. destruct Hi as (Hh & He & Hp & Hk & Ht & Hf).
      split; [done|]. do 3 (split; [done|]). split; [done|]. by eexists. }
  destruct Hi as ((He1&Hp1&Hk1&Ht1) & Hn & Hm & HlF & HlA & G1).
  set (idx := option_list (i_F ix) ++ option_list (i_A ix)) in *.
  assert (Hidx : ∀ a, a ∈ idx ↔ i_F ix = Some a ∨ i_A ix = Some a).
  { intros a. unfold idx. by rewrite elem_of_app, !elem_of_ptr_list. }
  destruct (malloc (Pairs _) s1) as [[f|] s2] eqn:Ef;
    apply malloc_inv in Ef as ((He2&Hp2&Hk2&Ht2) & Hpl2 & Hf).
  2:{ intros (-> & Cp & Ck & Ct & Ce & Ch)%init_parameters_cleanup_inv.
      destruct Hf as [Hh2 Hhd]. split.
      { intros Hno. specialize (Hpl1 Hno). destruct (plan s1) as [|b pl]; [done|].
        injection Hhd as ->. destruct Hpl1. by left. }
      split; [congruence|]. split; [congruence|].
      split; [congruence|]. split; [|eexists; by rewrite Ce, He2, He1].
      destruct G1 as (_ & New & Old).
      apply (lookup_restore _ _ _ _ Ch); [rewrite Hh2|].
      - intros a Ha. apply Old. rewrite Hidx. intros [E|E]; apply Ha; rewrite E.
        + do 3 right. by left.
        + do 2 right. by left.
      - intros a Ha. apply New, Hidx.
        repeat (apply elem_of_cons in Ha as [Ha|Ha]; [try done; by auto|]).
        by apply elem_of_nil in Ha. }
  destruct Hf as (Hff & Hh2 & _).
  assert (G2 : heap_grows (heap s) (heap s2) (idx ++ [f])).
  { eapply heap_grows_app; [exact G1|]. rewrite Hh2. by apply heap_grows_insert. }
  destruct (malloc (Ptrs _) s2) as [[a|] s3] eqn:Ea;
    apply malloc_inv in Ea as ((He3&Hp3&Hk3&Ht3) & Hpl3 & Ha).
  2:{ intros (-> & Cp & Ck & Ct & Ce & Ch)%init_parameters_cleanup_inv.
      destruct Ha as [Hh3 Hhd]. split.
      { intros Hno. specialize (Hpl1 Hno).
        assert (false ∉ plan s2).
        { rewrite Hpl2. intros Hin. apply Hpl1. destruct (plan s1); [done|]. by right. }
        destruct (plan s2) as [|b pl]; [done|].
        injection Hhd as ->. destruct H0. by left. }
      split; [congruence|]. split; [congruence|].
      split; [congruence|]. split; [|eexists; by rewrite Ce, He3, He2, He1].
      destruct G2 as (_ & New & Old).
      apply (lookup_restore _ _ _ _ Ch); [rewrite Hh3|].
      - intros a Ha. apply Old. rewrite elem_of_app, Hidx, list_elem_of_singleton.
        intros [[E|E]|E]; apply Ha; rewrite ?E.
        + do 3 right. by left.
        + do 2 right. by left.
        + right. by left.
      - intros a Ha. apply New. rewrite elem_of_app, Hidx, list_elem_of_singleton.
        repeat (apply elem_of_cons in Ha as [Ha|Ha]; [try done; by (injection Ha; auto) || auto|]).
        by apply elem_of_nil in Ha. }
  destruct Ha as (Haf & Hh3 & _).
  assert (G3 : heap_grows (heap s) (heap s3) ((idx ++ [f]) ++ [a])).
  { eapply heap_grows_app; [exact G2|]. rewrite Hh3. by apply heap_grows_insert. }
  assert (HA0 : heap s3 !! a = Some (Ptrs (replicate (i_m ix) None))).
  { by rewrite Hh3, lookup_insert_eq. }
  assert (Hfa : f ≠ a).
  { intros ->. rewrite Hh2, lookup_insert_eq in Haf. done. }
  assert (Hlive : ∀ x, x ∈ idx → x ≠ a ∧ x ≠ f ∧ is_Some (heap s3 !! x)
                                ∧ heap s3 !! x = heap s1 !! x).
  { intros x Hx. destruct G1 as (_ & New1 & _). destruct (New1 x Hx) as [_ Hs].
    assert (x ≠ f) by (intros ->; destruct Hs; congruence).
    assert (x ≠ a).
    { intros ->. rewrite Hh2, lookup_insert_ne in Haf by done. destruct Hs; congruence. }
    rewrite Hh3, Hh2, !lookup_insert_ne by done. done. }
  assert (HIA : ∀ ia, i_A ix = Some ia → ia ≠ a ∧ is_Some (heap s3 !! ia)).
  { intros ia E. destruct (Hlive ia) as (?&?&?&?); [apply Hidx; by right|done]. }
  assert (Hinv0 : rows_inv P (load_u16 (heap s3) (i_A ix)) a (i_m ix) (heap s3) 0 s3 []).
  { split; [done|]. split; [constructor|]. split; [by intros ? ?%elem_of_nil|].
    split; [by rewrite Nat.sub_0_r|]. split; [done|]. intros j x Hx. done. }
  destruct (alloc_rows P (i_A ix) a 0 (i_m ix) s3) as [b s4] eqn:Er.
  eapply (alloc_rows_inv P (i_A ix) a (i_m ix) (heap s3) HA0 HIA) in Er
    as ((He4&Hp4&Hk4&Ht4) & Hpl4 & Hres); [|reflexivity|exact Hinv0].
  assert (Hplan : false ∉ plan s → b = true).
  { intros Hno. apply Hpl4. rewrite Hpl3. intros Hin.
    assert (Hs2 : false ∈ plan s2) by (destruct (plan s2); [done|by right]).
    rewrite Hpl2 in Hs2. apply (Hpl1 Hno). destruct (plan s1); [done|by right]. }
  destruct b.
  - intros [= <- <-]. destruct Hres as (rows & Hlen & Hnd & Hfresh & HA & Hframe & Hrow).
    split; [done|]. do 3 (split; [congruence|]). simpl.
    split; [congruence|]. do 2 (split; [done|]).
    assert (Hkeep : ∀ x, x ∈ idx → heap s4 !! x = heap s1 !! x).
    { intros x Hx. destruct (Hlive x Hx) as (Hxa & Hxf & [y Hy] & Hsame).
      rewrite Hframe; [done| |done]. intros Hin. specialize (Hfresh x Hin). congruence. }
    assert (HkF : load_u16 (heap s4) (i_F ix) = load_u16 (heap s1) (i_F ix)).
    { destruct (i_F ix) as [x|] eqn:E; [|done]. simpl. rewrite Hkeep; [done|].
      apply Hidx. by left. }
    assert (HkA : load_u16 (heap s4) (i_A ix) = load_u16 (heap s1) (i_A ix)).
    { destruct (i_A ix) as [x|] eqn:E; [|done]. simpl. rewrite Hkeep; [done|].
      apply Hidx. by right. }
    assert (HkA3 : load_u16 (heap s3) (i_A ix) = load_u16 (heap s1) (i_A ix)).
    { destruct (i_A ix) as [x|] eqn:E; [|done]. simpl.
      destruct (Hlive x) as (_&_&_&->); [apply Hidx; by right|done]. }
    split; [congruence|]. split; [congruence|]. split.
    + exists f. split; [done|]. rewrite Hframe; [|..].
      * by rewrite Hh3, lookup_insert_ne, Hh2, lookup_insert_eq.
      * intros Hin. specialize (Hfresh f Hin).
        rewrite Hh3, lookup_insert_ne, Hh2, lookup_insert_eq in Hfresh by done. done.
      * done.
    + exists a, rows. split; [done|]. split.
      { rewrite HA, Nat.sub_diag. simpl. by rewrite app_nil_r. }
      split; [done|]. intros j x Hx. rewrite (Hrow j x Hx), HkA, <- HkA3. done.
  - intros (-> & Cp & Ck & Ct & Ce & Ch)%init_parameters_cleanup_inv.
    split; [intros Hno; by specialize (Hplan Hno)|].
    split; [congruence|]. split; [congruence|].
    split; [congruence|].
    split; [|eexists; by rewrite Ce, He4, He3, He2, He1].
    destruct G3 as (_ & New & Old).
    apply (lookup_restore _ _ _ _ Ch).
    + intros x Hx.
      assert (Hxa : x ≠ a) by (intros ->; apply Hx; by left).
      rewrite Hres by done. apply Old.
      rewrite !elem_of_app, Hidx, !list_elem_of_singleton.
      intros [[[E|E]|E]|E]; apply Hx; rewrite ?E.
      * do 3 right. by left.
      * do 2 right. by left.
      * right. by left.
      * by left.
    + intros x Hx. apply New. rewrite !elem_of_app, Hidx, !list_elem_of_singleton.
      repeat (apply elem_of_cons in Hx as [Hx|Hx];
              [try done; by (injection Hx; auto) || auto|]).
      by apply elem_of_nil in Hx.
Qed.

End Storage.

(** ** C6 and C7: rollback and shape of the storage *)

(** C6. When [init_parameters] fails, whichever allocation failed (an index
    array, the dense array of pairs, the array of row pointers or any row),
    the heap on return is the heap before the call: every block the call had
    allocated has been freed; exactly one error, a MemoryError, has been
    raised, and no parameter structure is returned. Likewise a failing
    [init_indices] leaves the heap as it found it, both index arrays freed,
    with one MemoryError raised. Either fails only if an allocation request
    fails. *)
Theorem init_parameters_rollback {D : Type} `{DoubleOps D}
    (P : program_t D) (s s' : state D) :
  (init_parameters P s = (None, s') →
   heap s' = heap s
   ∧ (∃ msg, errs s' = errs s ++ [(PyExc_MemoryError, msg)])
   ∧ false ∈ plan s)
  ∧ (init_indices P s = (None, s') →
     heap s' = heap s
     ∧ (∃ msg, errs s' = errs s ++ [(PyExc_MemoryError, msg)])
     ∧ false ∈ plan s).
Proof.
  split.
  - intros (Hpl & _ & _ & _ & Hh & He)%init_parameters_inv.
    do 2 (split; [done|]).
    destruct (decide (false ∈ plan s)) as [|Hno]; [done|].
    by destruct (Hpl Hno).
  - intros (_ & Hh & He & _ & _ & _ & Hf)%init_indices_inv.
    split; [done|]. split; [by eexists | done].
Qed.

Lemma init_parameters_rollback_witness :
  ∃ s', init_parameters (program_rows (Q2Qc 0))
          (state_plan [true; true; true; true; true; false]) = (None, s')
        ∧ heap s' = ∅
        ∧ (∃ msg, errs s' = [] ++ [(PyExc_MemoryError, msg)])
        ∧ false ∈ [true; true; true; true; true; false].
Proof.
  eexists. split; [vm_compute; reflexivity|].
  apply (proj1 (init_parameters_rollback (program_rows (Q2Qc 0))
                  (state_plan [true; true; true; true; true; false]) _)).
  vm_compute. reflexivity.
Defined.

Lemma to_u16_bounds (k : nat) : (0 ≤ to_u16 k ≤ Z.of_nat k)%Z.
Proof.
  unfold to_u16. split; [apply Z.mod_pos_bound; lia|].
  apply Z.mod_le; lia.
Qed.

(** C7. [init_parameters] succeeds whenever no allocation request fails, and
    after a successful call the dense array of pairs has as many entries as
    the fact index array, the array of row pointers has as many entries as
    the disjunction index array, and for every [i] the row [A[i]] has as many
    entries as the disjunction referenced by entry [i] of the disjunction
    index array has outcomes. The index arrays kept in [W] are those of the
    program: they hold the positions of the learnable facts and of the
    learnable disjunctions of [P], in ascending order (as [uint16_t]
    values), [W->n] and [W->m] are the numbers of learnable facts and
    disjunctions; and for a program of at most 65536 facts and 65536
    disjunctions they are the index sets of [P], so that row [i] belongs to
    a learnable disjunction. *)
Theorem init_parameters_shape {D : Type} `{DoubleOps D}
    (P : program_t D) (s : state D) :
  (false ∉ plan s → ∃ W s', init_parameters P s = (Some W, s'))
  ∧ ∀ W s', init_parameters P s = (Some W, s') →
      (∃ f xs, w_F W = Some f ∧ heap s' !! f = Some (Pairs xs)
               ∧ length xs = length (load_u16 (heap s') (w_I_F W))
               ∧ w_n W = length xs)
      ∧ (∃ a rows, w_A W = Some a ∧ heap s' !! a = Some (Ptrs rows)
               ∧ length rows = length (load_u16 (heap s') (w_I_A W))
               ∧ w_m W = length rows
               ∧ ∀ i ia, load_u16 (heap s') (w_I_A W) !! i = Some ia →
                   ∃ r xs ad, rows !! i = Some (Some r)
                     ∧ heap s' !! r = Some (Doubles xs)
                     ∧ AD P !! Z.to_nat ia = Some ad
                     ∧ length xs = ad_n ad)
      ∧ load_u16 (heap s') (w_I_F W)
        = to_u16 <$> learnable_from pf_learnable 0 (PF P)
      ∧ load_u16 (heap s') (w_I_A W)
        = to_u16 <$> learnable_from ad_learnable 0 (AD P)
      ∧ w_n W = length (filter (λ pf, pf_learnable pf = true) (PF P))
      ∧ w_m W = length (filter (λ ad, ad_learnable ad = true) (AD P))
      ∧ ((Z.of_nat (length (PF P)) ≤ 65536)%Z →
         index_set pf_learnable (PF P) (w_n W) (load_u16 (heap s') (w_I_F W)))
      ∧ ((Z.of_nat (length (AD P)) ≤ 65536)%Z →
         index_set ad_learnable (AD P) (w_m W) (load_u16 (heap s') (w_I_A W))).
Proof.
  split.
  - intros Hno. destruct (init_parameters P s) as [[W|] s'] eqn:E; [by eauto|].
    apply init_parameters_inv in E as (Hpl & _). by destruct (Hpl Hno).
  - intros W s' (_ & _ & _ & _ & _ & Hn & Hm & HlF & HlA & HF & HA)%init_parameters_inv.
    split; [|split; [|split; [done|split; [done|split; [|split; [|split]]]]]].
    3:{ by rewrite Hn, (count_learnable_from _ _ 0), learnable_from_filter. }
    3:{ by rewrite Hm, (count_learnable_from _ _ 0), learnable_from_filter. }
    3:{ intros Hlen. rewrite HlF, Hn. by apply index_set_learnable_from. }
    3:{ intros Hlen. rewrite HlA, Hm. by apply index_set_learnable_from. }
    + destruct HF as (f & Hf & Hhf). exists f, (replicate (w_n W) (d0, d0)).
      rewrite HlF, length_fmap, length_replicate, Hn. rewrite Hn in Hhf.
      do 2 (split; [done|]). split; [apply count_learnable_from | done].
    + destruct HA as (a & rows & Ha & Hha & Hlen & Hrow).
      exists a, (Some <$> rows). rewrite length_fmap, HlA, length_fmap.
      do 2 (split; [done|]). split; [by rewrite Hlen, Hm, (count_learnable_from _ _ 0)|].
      split; [done|]. intros i ia Hia.
      destruct (lookup_lt_is_Some_2 rows i) as [r Hr].
      { apply lookup_lt_Some in Hia.
        rewrite length_fmap, <- (count_learnable_from _ _ 0) in Hia. lia. }
      assert (Hlt : Z.to_nat ia < length (AD P)).
      { rewrite list_lookup_fmap in Hia.
        destruct (learnable_from ad_learnable 0 (AD P) !! i) as [k|] eqn:Ek; [|done].
        injection Hia as <-.
        apply list_elem_of_lookup_2, learnable_from_bounds in Ek.
        pose proof (to_u16_bounds k). lia. }
      apply lookup_lt_is_Some_2 in Hlt as [ad Had].
      exists r, (replicate (ad_n ad) d0), ad.
      split; [by rewrite list_lookup_fmap, Hr|]. split; [|split; [done|]].
      * rewrite (Hrow i r Hr), HlA. unfold index_at. rewrite Hia. simpl.
        by rewrite Had.
      * by rewrite length_replicate.
Qed.

Lemma init_parameters_shape_witness :
  ∃ W s', init_parameters (program_rows (Q2Qc 0)) (state_init ∅) = (Some W, s')
    ∧ (∃ f xs, w_F W = Some f ∧ heap s' !! f = Some (Pairs xs)
         ∧ length xs = length (load_u16 (heap s') (w_I_F W))
         ∧ w_n W = length xs)
    ∧ (∃ a rows, w_A W = Some a ∧ heap s' !! a = Some (Ptrs rows)
         ∧ length rows = length (load_u16 (heap s') (w_I_A W))
         ∧ w_m W = length rows
         ∧ ∀ i ia, load_u16 (heap s') (w_I_A W) !! i = Some ia →
             ∃ r xs ad, rows !! i = Some (Some r)
               ∧ heap s' !! r = Some (Doubles xs)
               ∧ AD (program_rows (Q2Qc 0)) !! Z.to_nat ia = Some ad
               ∧ length xs = ad_n ad)
    ∧ load_u16 (heap s') (w_I_F W)
      = to_u16 <$> learnable_from pf_learnable 0 (PF (program_rows (Q2Qc 0)))
    ∧ load_u16 (heap s') (w_I_A W)
      = to_u16 <$> learnable_from ad_learnable 0 (AD (program_rows (Q2Qc 0)))
    ∧ w_n W = length (filter (λ pf, pf_learnable pf = true)
                        (PF (program_rows (Q2Qc 0))))
    ∧ w_m W = length (filter (λ ad, ad_learnable ad = true)
                        (AD (program_rows (Q2Qc 0))))
    ∧ ((Z.of_nat (length (PF (program_rows (Q2Qc 0)))) ≤ 65536)%Z →
       index_set pf_learnable (PF (program_rows (Q2Qc 0))) (w_n W)
         (load_u16 (heap s') (w_I_F W)))
    ∧ ((Z.of_nat (length (AD (program_rows (Q2Qc 0)))) ≤ 65536)%Z →
       index_set ad_learnable (AD (program_rows (Q2Qc 0))) (w_m W)
         (load_u16 (heap s') (w_I_A W))).
Proof.
  eexists _, _. split; [vm_compute; reflexivity|].
  apply (proj2 (init_parameters_shape (program_rows (Q2Qc 0)) (state_init ∅))).
  vm_compute. reflexivity.
Defined.

(** ** Index-mapped loops *)

Section FoldAlter.
Context {A : Type} (g : nat → A → A) (idx : nat → nat).

Local Abbreviation run ks l := (fold_left (λ l k, alter (g k) (idx k) l) ks l).

Lemma fold_alter_length (ks : list nat) (l : list A) :
  length (run ks l) = length l.
Proof.
  revert l. induction ks as [|k ks IH]; intros l; simpl; [done|].
  by rewrite IH, length_alter.
Qed.

Lemma fold_alter_other (ks : list nat) (l : list A) (t : nat) :
  t ∉ idx <$> ks → run ks l !! t = l !! t.
Proof.
  revert l. induction ks as [|k ks IH]; intros l Ht; simpl; [done|].
  rewrite fmap_cons, not_elem_of_cons in Ht. destruct Ht as [Hne Ht].
  rewrite IH by done. by apply list_lookup_alter_ne.
Qed.

Lemma fold_alter_hit (ks : list nat) (l : list A) (k : nat) :
  NoDup (idx <$> ks) → k ∈ ks →
  run ks l !! idx k = g k <$> l !! idx k.
Proof.
  revert l. induction ks as [|k0 ks IH]; intros l Hnd Hk; simpl.
  { by apply elem_of_nil in Hk. }
  rewrite fmap_cons in Hnd. apply NoDup_cons in Hnd as [Hk0 Hnd].
  apply elem_of_cons in Hk as [->|Hk].
  - rewrite fold_alter_other by done. apply list_lookup_alter_eq.
  - rewrite IH by done. rewrite list_lookup_alter_ne; [done|].
    intros E. apply Hk0. rewrite E. by apply list_elem_of_fmap_2.
Qed.

Lemma fold_alter_Forall2 (R : A → A → Prop) (l0 : list A) (ks : list nat)
    (l : list A) :
  (∀ k x y, R x y → R x (g k y)) →
  Forall2 R l0 l → Forall2 R l0 (run ks l).
Proof.
  intros Hg. revert l. induction ks as [|k ks IH]; intros l Hl; simpl; [done|].
  apply IH. apply Forall2_alter_r; [done|]. intros x y _ _. apply Hg.
Qed.

End FoldAlter.

Lemma Forall2_diag {A} (R : A → A → Prop) (l : list A) :
  (∀ x, R x x) → Forall2 R l l.
Proof. intros HR. induction l; constructor; auto. Qed.

Section PassSemantics.
Context {D : Type} `{DoubleOps D}.
Implicit Types (P : program_t D) (ad : annot_disj_t D) (pf : prob_fact_t D).

Lemma fold_upd_PF (f : nat → prob_fact_t D → prob_fact_t D) (idx : nat → nat)
    (ks : list nat) P :
  fold_left (λ Q k, upd_PF (f k) (idx k) Q) ks P
  = {| PF := fold_left (λ l k, alter (f k) (idx k) l) ks (PF P); AD := AD P |}.
Proof.
  revert P. induction ks as [|k ks IH]; intros P; simpl; [by destruct P|].
  by rewrite IH.
Qed.

Lemma fold_upd_AD (f : nat → annot_disj_t D → annot_disj_t D) (idx : nat → nat)
    (ks : list nat) P :
  fold_left (λ Q k, upd_AD (f k) (idx k) Q) ks P
  = {| PF := PF P; AD := fold_left (λ l k, alter (f k) (idx k) l) ks (AD P) |}.
Proof.
  revert P. induction ks as [|k ks IH]; intros P; simpl; [by destruct P|].
  by rewrite IH.
Qed.

(** The inner loop over the outcomes rewrites outcome [j] with [g j]. *)
Lemma map_ad_P_imap (g : nat → D → D) ad :
  ad_P (map_ad_P g ad) = imap g (ad_P ad).
Proof.
  unfold map_ad_P, ad_n. simpl. apply list_eq. intros j.
  rewrite list_lookup_imap. destruct (decide (j < length (ad_P ad))) as [Hlt|Hge].
  - apply (fold_alter_hit g (λ j, j)).
    + rewrite list_fmap_id. apply NoDup_seq.
    + apply elem_of_seq. lia.
  - rewrite (lookup_ge_None_2 (ad_P ad)) by lia. apply lookup_ge_None_2.
    rewrite (fold_alter_length g (λ j, j)). lia.
Qed.

Lemma ad_eq ad ad' :
  ad_P ad = ad_P ad' → ad_learnable ad = ad_learnable ad' →
  ad_self ad = ad_self ad' → ad = ad'.
Proof. destruct ad, ad'. simpl. by intros -> -> ->. Qed.

Lemma map_ad_P_compose (f g : nat → D → D) ad :
  map_ad_P f (map_ad_P g ad) = map_ad_P (λ j x, f j (g j x)) ad.
Proof.
  apply ad_eq; [|done..]. rewrite !map_ad_P_imap. apply list_eq. intros j.
  rewrite !list_lookup_imap. by destruct (ad_P ad !! j).
Qed.

Section OnePass.
Variables (I_F I_A : list Z) (n m : nat).

Lemma for_facts_AD g P : AD (for_facts I_F n g P) = AD P.
Proof. unfold for_facts. by rewrite fold_upd_PF. Qed.

Lemma for_disjs_PF g P : PF (for_disjs I_A m g P) = PF P.
Proof. unfold for_disjs. by rewrite fold_upd_AD. Qed.

Lemma for_facts_other g P t :
  t ∉ index_at I_F <$> seq 0 n → PF (for_facts I_F n g P) !! t = PF P !! t.
Proof.
  intros Ht. unfold for_facts. rewrite fold_upd_PF. simpl.
  by apply (fold_alter_other (λ k, map_pf_p (g k)) (index_at I_F)).
Qed.

Lemma for_disjs_other g P t :
  t ∉ index_at I_A <$> seq 0 m → AD (for_disjs I_A m g P) !! t = AD P !! t.
Proof.
  intros Ht. unfold for_disjs. rewrite fold_upd_AD. simpl.
  by apply (fold_alter_other (λ k, map_ad_P (g k)) (index_at I_A)).
Qed.

Lemma for_facts_hit g P k :
  NoDup (index_at I_F <$> seq 0 n) → k < n →
  PF (for_facts I_F n g P) !! index_at I_F k
  = map_pf_p (g k) <$> PF P !! index_at I_F k.
Proof.
  intros Hnd Hk. unfold for_facts. rewrite fold_upd_PF. simpl.
  apply (fold_alter_hit (λ k, map_pf_p (g k)) (index_at I_F)); [done|].
  apply elem_of_seq. lia.
Qed.

Lemma for_disjs_hit g P k :
  NoDup (index_at I_A <$> seq 0 m) → k < m →
  AD (for_disjs I_A m g P) !! index_at I_A k
  = map_ad_P (g k) <$> AD P !! index_at I_A k.
Proof.
  intros Hnd Hk. unfold for_disjs. rewrite fold_upd_AD. simpl.
  apply (fold_alter_hit (λ k, map_ad_P (g k)) (index_at I_A)); [done|].
  apply elem_of_seq. lia.
Qed.

Lemma same_shape_refl P : same_shape P P.
Proof. split; apply Forall2_diag; intros x; by repeat split. Qed.

Lemma for_facts_same_shape g P0 P :
  same_shape P0 P → same_shape P0 (for_facts I_F n g P).
Proof.
  intros [HF HA]. unfold for_facts. rewrite fold_upd_PF. split; simpl; [|done].
  apply (fold_alter_Forall2 (λ k, map_pf_p (g k)) (index_at I_F) pf_like); [|done].
  intros k x y [? ?]. by split.
Qed.

Lemma for_disjs_same_shape g P0 P :
  same_shape P0 P → same_shape P0 (for_disjs I_A m g P).
Proof.
  intros [HF HA]. unfold for_disjs. rewrite fold_upd_AD. split; simpl; [done|].
  apply (fold_alter_Forall2 (λ k, map_ad_P (g k)) (index_at I_A) ad_like); [|done].
  intros k x y (? & ? & Hn). do 2 (split; [done|]).
  unfold ad_n in *. by rewrite map_ad_P_imap, length_imap.
Qed.

Lemma accumulate_S Q0 oc On P :
  accumulate I_F I_A n m Q0 oc (S On) P
  = accumulate_obs I_F I_A n m (default q_nil (Q0 !! On))
      (PyArray_GETPTR1_int oc On) (accumulate I_F I_A n m Q0 oc On P).
Proof. unfold accumulate. by rewrite seq_S, fold_left_app. Qed.

Lemma accumulate_same_shape Q0 oc On P0 P :
  same_shape P0 P → same_shape P0 (accumulate I_F I_A n m Q0 oc On P).
Proof.
  intros HP. induction On as [|On IH]; [done|]. rewrite accumulate_S.
  by apply for_disjs_same_shape, for_facts_same_shape.
Qed.

Lemma pass_same_shape Q0 oc On N P0 P :
  same_shape P0 P → same_shape P0 (pass I_F I_A n m Q0 oc On N P).
Proof.
  intros HP. unfold pass, normalize, reset.
  apply for_disjs_same_shape, for_facts_same_shape, accumulate_same_shape.
  by apply for_disjs_same_shape, for_facts_same_shape.
Qed.

(** Entries outside the index arrays are left alone by a pass. *)
Lemma accumulate_other_PF Q0 oc On P t :
  t ∉ index_at I_F <$> seq 0 n →
  PF (accumulate I_F I_A n m Q0 oc On P) !! t = PF P !! t.
Proof.
  intros Ht. induction On as [|On IH]; [done|]. rewrite accumulate_S.
  unfold accumulate_obs. by rewrite for_disjs_PF, for_facts_other.
Qed.

Lemma accumulate_other_AD Q0 oc On P t :
  t ∉ index_at I_A <$> seq 0 m →
  AD (accumulate I_F I_A n m Q0 oc On P) !! t = AD P !! t.
Proof.
  intros Ht. induction On as [|On IH]; [done|]. rewrite accumulate_S.
  unfold accumulate_obs. by rewrite for_disjs_other, for_facts_AD.
Qed.

Lemma pass_other_PF Q0 oc On N P t :
  t ∉ index_at I_F <$> seq 0 n →
  PF (pass I_F I_A n m Q0 oc On N P) !! t = PF P !! t.
Proof.
  intros Ht. unfold pass, normalize, reset.
  rewrite for_disjs_PF, for_facts_other, accumulate_other_PF by done.
  by rewrite for_disjs_PF, for_facts_other.
Qed.

Lemma pass_other_AD Q0 oc On N P t :
  t ∉ index_at I_A <$> seq 0 m →
  AD (pass I_F I_A n m Q0 oc On N P) !! t = AD P !! t.
Proof.
  intros Ht. unfold pass, normalize, reset.
  rewrite for_disjs_other, for_facts_AD, accumulate_other_AD by done.
  by rewrite for_disjs_other, for_facts_AD.
Qed.

Lemma fact_acc_S Q0 oc On k (p : D) :
  fact_acc Q0 oc (S On) k p
  = dadd (fact_acc Q0 oc On k p)
      (soft (PyArray_GETPTR1_int oc On) (default q_nil (Q0 !! On))
         (q_F1 (default q_nil (Q0 !! On)) k)).
Proof. unfold fact_acc. by rewrite seq_S, fold_left_app. Qed.

Lemma outcome_acc_S Q0 oc On k j (p : D) :
  outcome_acc Q0 oc (S On) k j p
  = dadd (outcome_acc Q0 oc On k j p)
      (soft (PyArray_GETPTR1_int oc On) (default q_nil (Q0 !! On))
         (q_Aj (default q_nil (Q0 !! On)) k j)).
Proof. unfold outcome_acc. by rewrite seq_S, fold_left_app. Qed.

(** The entries named by the index arrays. *)
Lemma accumulate_fact Q0 oc On P k :
  NoDup (index_at I_F <$> seq 0 n) → k < n →
  PF (accumulate I_F I_A n m Q0 oc On P) !! index_at I_F k
  = map_pf_p (fact_acc Q0 oc On k) <$> PF P !! index_at I_F k.
Proof.
  intros Hnd Hk. induction On as [|On IH].
  - unfold accumulate. simpl. destruct (PF P !! _) as [[]|]; done.
  - rewrite accumulate_S. unfold accumulate_obs.
    rewrite for_disjs_PF, for_facts_hit, IH by done.
    destruct (PF P !! _) as [pf|]; [|done].
    cbn [fmap option_fmap option_map]. f_equal.
    unfold map_pf_p. cbn [pf_p pf_learnable pf_self]. f_equal.
    by rewrite fact_acc_S.
Qed.

Lemma accumulate_disj Q0 oc On P k :
  NoDup (index_at I_A <$> seq 0 m) → k < m →
  AD (accumulate I_F I_A n m Q0 oc On P) !! index_at I_A k
  = map_ad_P (outcome_acc Q0 oc On k) <$> AD P !! index_at I_A k.
Proof.
  intros Hnd Hk. induction On as [|On IH].
  - unfold accumulate. simpl. destruct (AD P !! _) as [ad|]; [|done].
    simpl. f_equal. apply ad_eq; [|done..]. rewrite map_ad_P_imap.
    apply list_eq. intros j. rewrite list_lookup_imap.
    by destruct (ad_P ad !! j).
  - rewrite accumulate_S. unfold accumulate_obs.
    rewrite for_disjs_hit, for_facts_AD, IH by done.
    destruct (AD P !! _) as [ad|]; [|done]. simpl. f_equal.
    rewrite map_ad_P_compose. apply ad_eq; [|done..].
    rewrite !map_ad_P_imap. apply imap_ext. intros j x _.
    by rewrite outcome_acc_S.
Qed.

Lemma pass_fact Q0 oc On N P k :
  NoDup (index_at I_F <$> seq 0 n) → k < n →
  PF (pass I_F I_A n m Q0 oc On N P) !! index_at I_F k
  = map_pf_p (λ _, ddiv (fact_acc Q0 oc On k d0) (d_of_size N))
      <$> PF P !! index_at I_F k.
Proof.
  intros Hnd Hk. unfold pass, normalize, reset.
  rewrite for_disjs_PF, for_facts_hit, accumulate_fact by done.
  rewrite for_disjs_PF, for_facts_hit by done.
  by destruct (PF P !! _).
Qed.

Lemma pass_disj Q0 oc On N P k :
  NoDup (index_at I_A <$> seq 0 m) → k < m →
  AD (pass I_F I_A n m Q0 oc On N P) !! index_at I_A k
  = map_ad_P (λ j _, ddiv (outcome_acc Q0 oc On k j d0) (d_of_size N))
      <$> AD P !! index_at I_A k.
Proof.
  intros Hnd Hk. unfold pass, normalize, reset.
  rewrite for_disjs_hit, for_facts_AD, accumulate_disj by done.
  rewrite for_disjs_hit, for_facts_AD by done.
  destruct (AD P !! _) as [ad|]; [|done]. simpl. f_equal.
  by rewrite !map_ad_P_compose.
Qed.

End OnePass.

End PassSemantics.

(** ** C1: the learning rule *)

Section IndexSetUse.
Context {A : Type} (learnable : A → bool) (l : list A) (n : nat) (ixs : list Z).
Hypothesis Hset : index_set learnable l n ixs.

Lemma index_set_at_fmap : index_at ixs <$> seq 0 n = Z.to_nat <$> ixs.
Proof.
  destruct Hset as (_ & _ & _ & _ & Hlen & _). apply list_eq. intros j.
  rewrite !list_lookup_fmap. destruct (decide (j < n)) as [Hlt|Hge].
  - rewrite lookup_seq_lt by done. simpl. unfold index_at.
    destruct (lookup_lt_is_Some_2 ixs j) as [z Hz]; [lia|]. by rewrite Hz.
  - rewrite lookup_seq_ge by lia. rewrite (lookup_ge_None_2 ixs) by lia. done.
Qed.

Lemma index_set_at_elem (t : nat) :
  t ∈ index_at ixs <$> seq 0 n ↔ ∃ x, l !! t = Some x ∧ learnable x = true.
Proof.
  destruct Hset as (Hmem & _ & _ & Hbnd & _ & _).
  rewrite index_set_at_fmap, <- Hmem, list_elem_of_fmap. split.
  - intros (z & -> & Hz). specialize (Hbnd z Hz). rewrite Z2Nat.id by lia. done.
  - intros Hin. exists (Z.of_nat t). by rewrite Nat2Z.id.
Qed.

Lemma index_set_at_NoDup : NoDup (index_at ixs <$> seq 0 n).
Proof.
  destruct Hset as (_ & _ & Hnd & Hbnd & _ & _). rewrite index_set_at_fmap.
  apply NoDup_fmap_2_strong; [|done]. intros x y Hx%Hbnd Hy%Hbnd E. lia.
Qed.

Lemma index_set_position (t : nat) (x : A) :
  l !! t = Some x → learnable x = true →
  ∃ k, k < n ∧ ixs !! k = Some (Z.of_nat t) ∧ index_at ixs k = t.
Proof.
  intros Hx Hl. destruct Hset as (Hmem & _ & _ & _ & Hlen & _).
  assert (Hin : Z.of_nat t ∈ ixs) by (apply Hmem; eauto).
  apply list_elem_of_lookup in Hin as (k & Hk).
  exists k. split; [apply lookup_lt_Some in Hk; lia|]. split; [done|].
  unfold index_at. rewrite Hk. simpl. lia.
Qed.

End IndexSetUse.

Lemma total_count_mod (oc : PyArrayObject) (On : nat) :
  total_count oc On = (sum_counts oc On mod 2 ^ 64)%Z.
Proof.
  unfold total_count, sum_counts. induction On as [|On IH]; [done|].
  rewrite seq_S, fmap_app, !fold_left_app. simpl. rewrite IH.
  unfold size_add. by rewrite Zplus_mod_idemp_l.
Qed.

(** C1 (as amended). In the scenario of one learnable fact and two
    observations with repeat counts 3 and 1, for which the solver answers
    [P(t=1,O) = 0.9], [P(O) = 1] and [P(t=1,O) = 0.1], [P(O) = 1], a call of
    [learn_fixpoint] with one iteration leaves the fact with probability
    [(3*0.9 + 1*0.1)/4]: exactly 7/10 in rational arithmetic, and in binary64
    the double obtained by evaluating that expression, which lies less than
    2^-53 above 7/10. In general, for a program of at most 65536 facts and
    the index array that [init_indices] builds for it, a pass sets every
    learnable fact, found at position [k] of the index array, to the sum over
    the observations [o] of [c_o * (P(t=k,O) / P(O))] divided by [N]; and the
    [N] computed by [learn_fixpoint] is the sum of the repeat counts (modulo
    2^64). *)
Theorem learn_fixpoint_learning_rule :
  (∃ x s',
     learn_with (scenario (Q2Qc 1) (Q2Qc (9 # 10)) (Q2Qc (1 # 10)))
       (program_one (Q2Qc (1 # 2))) obs_2x1 counts_3_1 atoms_1 1 false
       (state_init (py_one (Q2Qc (1 # 2))))
     = (true, program_one x, s')
     ∧ x = Q2Qc (7 # 10))
  ∧ (∃ x s',
       learn_with (scenario (B64.lit 1 1) (B64.lit 9 10) (B64.lit 1 10))
         (program_one (B64.lit 1 2)) obs_2x1 counts_3_1 atoms_1 1 false
         (state_init (py_one (B64.lit 1 2)))
       = (true, program_one x, s')
       ∧ x = B64.div
               (B64.add (B64.mul (B64.of_Z 3) (B64.lit 9 10))
                        (B64.mul (B64.of_Z 1) (B64.lit 1 10)))
               (B64.of_Z 4)
       ∧ (7 # 10 < B64.to_Q x < (7 # 10) + (1 # 9007199254740992))%Q)
  ∧ (∀ (D : Type) (ops : DoubleOps D) (P : program_t D) (I_A : list Z) (m : nat)
       (Q0 : list (prob_obs_storage_t D)) (oc : PyArrayObject) (On : nat) (N : Z)
       (t : nat) (pf : prob_fact_t D),
       (Z.of_nat (length (PF P)) ≤ 65536)%Z →
       PF P !! t = Some pf →
       pf_learnable pf = true →
       let I_F := to_u16 <$> learnable_from pf_learnable 0 (PF P) in
       ∃ k, I_F !! k = Some (Z.of_nat t)
            ∧ PF (pass I_F I_A (length I_F) m Q0 oc On N P) !! t
              = Some (map_pf_p
                        (λ _, ddiv (fact_acc Q0 oc On k d0) (d_of_size N)) pf))
  ∧ (∀ (oc : PyArrayObject) (On : nat),
       total_count oc On = (sum_counts oc On mod 2 ^ 64)%Z).
Proof.
  split; [|split; [|split]].
  - eexists _, _. split; [vm_compute; reflexivity|].
    apply Qc_is_canon. vm_compute. reflexivity.
  - eexists _, _. split; [vm_compute; reflexivity|].
    split; [vm_compute; reflexivity|]. split; vm_compute; reflexivity.
  - intros D ops P I_A m Q0 oc On N t pf Hlen Ht Hl I_F.
    pose proof (index_set_learnable_from pf_learnable (PF P) Hlen) as Hset.
    fold I_F in Hset.
    assert (Hn : count_learnable pf_learnable (PF P) = length I_F).
    { unfold I_F. by rewrite length_fmap, (count_learnable_from _ _ 0). }
    rewrite Hn in Hset.
    destruct (index_set_position _ _ _ _ Hset t pf Ht Hl) as (k & Hk & Hik & Hat).
    exists k. split; [done|]. rewrite <- Hat at 1.
    rewrite pass_fact; [|by eapply index_set_at_NoDup|done].
    by rewrite Hat, Ht.
  - apply total_count_mod.
Qed.

Lemma learn_fixpoint_learning_rule_witness :
  (Z.of_nat (length (PF (program_one (Q2Qc (1 # 2))))) ≤ 65536)%Z
  ∧ ∃ k, [0%Z] !! k = Some 0%Z
      ∧ PF (pass [0%Z] [] 1 0
              (scenario (Q2Qc 1) (Q2Qc (9 # 10)) (Q2Qc (1 # 10)))
              counts_3_1 2 4 (program_one (Q2Qc (1 # 2)))) !! 0
        = Some (map_pf_p
                  (λ _, ddiv
                          (fact_acc
                             (scenario (Q2Qc 1) (Q2Qc (9 # 10)) (Q2Qc (1 # 10)))
                             counts_3_1 2 k d0)
                          (d_of_size 4))
                  (fact (Q2Qc (1 # 2)) true 7%positive)).
Proof.
  split; [vm_compute; discriminate|].
  apply (proj1 (proj2 (proj2 learn_fixpoint_learning_rule)) Qc exact
           (program_one (Q2Qc (1 # 2))) [] 0
           (scenario (Q2Qc 1) (Q2Qc (9 # 10)) (Q2Qc (1 # 10)))
           counts_3_1 2 4%Z 0 (fact (Q2Qc (1 # 2)) true 7%positive));
    [vm_compute; discriminate | reflexivity | reflexivity].
Defined.

(** ** The driver as a whole *)

Section Frame.
Context {D : Type} `{DoubleOps D}.
Variable observations_t : Type.
Variable O_n : observations_t → nat.
Variable init_observations : PyArrayObject → PyArrayObject → option observations_t.
Variable init_prob_storage_seq : program_t D → observations_t → nat.
Variable prob_obs_reuse :
  program_t D → observations_t → bool → option (list (prob_obs_storage_t D)).
Implicit Types (s : state D) (P : program_t D).

Local Abbreviation learn := (learn_fixpoint observations_t O_n init_observations
                               init_prob_storage_seq prob_obs_reuse).
Local Abbreviation iter := (iterate observations_t O_n prob_obs_reuse).

Lemma learn_cleanup_inv (k : nat) (ix : indices_t) P s :
  ∃ s', learn_cleanup k ix P s = (false, P, s')
        ∧ py s' = py s ∧ errs s' = errs s ∧ trace s' = trace s.
Proof.
  unfold learn_cleanup. eexists. split; [done|].
  assert (Hfold : ∀ (ks : list nat) s0,
            let s1 := fold_left (λ s _, free_prob_storage_contents s) ks s0 in
            py s1 = py s0 ∧ errs s1 = errs s0 ∧ trace s1 = trace s0).
  { induction ks as [|j ks IH]; intros s0; simpl; [done|].
    destruct (IH (free_prob_storage_contents s0)) as (-> & -> & ->). done. }
  destruct (Hfold (seq 0 k) s) as (Hp & He & Ht).
  set (s1 := fold_left _ _ s) in *. unfold free_indices_contents.
  destruct (free_same_world (i_A ix) (free (i_F ix) s1)) as (?&?&?&?).
  destruct (free_same_world (i_F ix) s1) as (?&?&?&?).
  repeat split; congruence.
Qed.

(** The ways a call of [learn_fixpoint] can go: either it fails before the
    loop, or the loop is run on the index arrays of [init_indices] and, when
    the loop completes, the publish-back adapter is run on its result. *)
Lemma learn_fixpoint_inv P obs oc atoms niters ls s b P' s' :
  learn P obs oc atoms niters ls s = (b, P', s') →
  (b = false ∧ P' = P ∧ py s' = py s)
  ∨ ∃ Ob ix s1 s2 bi s3,
      init_indices P s = (Some ix, s1)
      ∧ heap s2 = heap s1 ∧ py s2 = py s
      ∧ iter Ob oc ls (load_u16 (heap s2) (i_F ix)) (load_u16 (heap s2) (i_A ix))
          (i_n ix) (i_m ix) (total_count oc (O_n Ob)) niters P s2 = (bi, P', s3)
      ∧ if bi
        then ∃ bu s4, update_program_parameters P' ix s3 = (bu, s4)
               ∧ py s' = py s4 ∧ b = bu
               ∧ (bu = false → last (errs s') = Some publish_error)
        else b = false ∧ py s' = py s.
Proof.
  unfold learn_fixpoint.
  destruct (bad_dimensions obs oc atoms).
  { destruct (learn_cleanup_inv 0 indices_zero P
                (PyErr_SetString PyExc_ValueError
                   "unexpected size dimension for obs, obs_counts and/or atoms in learn_fixpoint!" s))
      as (sc & -> & Hp & _). intros [= <- <- <-]. by left. }
  destruct (init_observations obs atoms) as [Ob|].
  2:{ destruct (learn_cleanup_inv 0 indices_zero P s) as (sc & -> & Hp & _).
      intros [= <- <- <-]. by left. }
  destruct (init_indices P s) as [[ix|] s1] eqn:Ei.
  2:{ destruct (learn_cleanup_inv 0 indices_zero P s1) as (sc & -> & Hp & _).
      intros [= <- <- <-]. left. do 2 (split; [done|]).
      apply init_indices_inv in Ei as (_ & _ & _ & Hpy & _). congruence. }
  pose proof Ei as (_ & (_ & Hpy1 & _) & _)%init_indices_inv.
  destruct (_ && _).
  { intros [= <- <- <-]. by left. }
  set (s2 := set_workers _ s1).
  destruct (init_prob_storage_seq P Ob =? 0).
  { destruct (learn_cleanup_inv (init_prob_storage_seq P Ob) ix P s2)
      as (sc & -> & Hp & _). intros [= <- <- <-]. left.
    do 2 (split; [done|]). rewrite Hp. simpl. done. }
  destruct (iter _ _ _ _ _ _ _ _ _ _ _) as [[bi P1] s3] eqn:Eit.
  pose proof Eit as (_ & _ & _ & Hpy3 & _)%iterate_inv.
  destruct bi.
  - destruct (update_program_parameters P1 ix s3) as [bu s4] eqn:Eu. destruct bu.
    + intros [= <- <- <-]. right. exists Ob, ix, s1, s2, true, s3.
      do 3 (split; [done|]). split; [done|]. exists true, s4. by repeat split.
    + destruct (learn_cleanup_inv (init_prob_storage_seq P Ob) ix P1
                  (PyErr_SetString PyExc_AttributeError
                     "could not update program parameters!" s4))
        as (sc & -> & Hp & He & _). intros [= <- <- <-]. right.
      exists Ob, ix, s1, s2, true, s3. do 3 (split; [done|]). split; [done|].
      exists false, s4. do 3 (split; [done|]). intros _. rewrite He. simpl.
      by rewrite last_snoc.
  - destruct (learn_cleanup_inv (init_prob_storage_seq P Ob) ix P1 s3)
      as (sc & -> & Hp & _). intros [= <- <- <-]. right.
    exists Ob, ix, s1, s2, false, s3. do 3 (split; [done|]). split; [done|].
    split; [done|]. simpl in *. congruence.
Qed.

(** The loop keeps the shape of the program and leaves alone the entries
    that the index arrays do not name. *)
Lemma iterate_frame Ob oc ls I_F I_A n m N P0 rem : ∀ P s b P' s',
  iter Ob oc ls I_F I_A n m N rem P s = (b, P', s') →
  same_shape P0 P →
  same_shape P0 P'
  ∧ (∀ t, t ∉ index_at I_F <$> seq 0 n → PF P' !! t = PF P !! t)
  ∧ (∀ t, t ∉ index_at I_A <$> seq 0 m → AD P' !! t = AD P !! t).
Proof.
  induction rem as [|rem IH]; intros P s b P' s'; simpl.
  { intros [= <- <- <-] HP. done. }
  destruct (prob_obs_reuse P Ob ls) as [Q0|]; [|by intros [= <- <- <-] HP].
  intros Hrec HP. apply IH in Hrec as (HP' & HF & HA).
  - split; [done|]. split.
    + intros t Ht. rewrite HF by done. by apply pass_other_PF.
    + intros t Ht. rewrite HA by done. by apply pass_other_AD.
  - by apply pass_same_shape.
Qed.

(** *** The publish-back adapter performs a prefix of the writes *)

Lemma publish_facts_writes P I_F rem : ∀ i s b s',
  publish_facts P I_F i rem s = (b, s') →
  ∃ ws, ws `prefix_of` (fact_write P I_F <$> seq i rem)
        ∧ py s' = fold_left apply_write ws (py s)
        ∧ (b = true → ws = fact_write P I_F <$> seq i rem).
Proof.
  induction rem as [|rem IH]; intros i s b s'; simpl.
  { intros [= <- <-]. by exists []. }
  unfold PyFloat_FromDouble.
  destruct (next_alloc s) as [[] s1] eqn:E1;
    apply next_alloc_frame in E1 as (_&_&_&Hp1&_).
  2:{ intros [= <- <-]. exists []. split; [apply prefix_nil|]. by split. }
  unfold PyObject_SetAttrString_p.
  destruct (py s1 !! _) as [o|] eqn:Eo; [destruct (py_p_settable o)|].
  - intros (ws & Hpre & Hpy & Hall)%IH. exists (fact_write P I_F i :: ws).
    split; [by apply prefix_cons|]. split.
    + rewrite Hpy. simpl. rewrite <- Hp1.
      by rewrite (alter_alt_Some _ _ _ _ Eo).
    + intros Hb. by rewrite (Hall Hb).
  - intros [= <- <-]. exists []. split; [apply prefix_nil|]. by split.
  - intros [= <- <-]. exists []. split; [apply prefix_nil|]. by split.
Qed.

Lemma publish_outcomes_writes ad rem : ∀ j s b s',
  publish_outcomes ad j rem s = (b, s') →
  ∃ ws, ws `prefix_of` (outcome_write ad <$> seq j rem)
        ∧ py s' = fold_left apply_write ws (py s)
        ∧ (b = true → ws = outcome_write ad <$> seq j rem).
Proof.
  induction rem as [|rem IH]; intros j s b s'; simpl.
  { intros [= <- <-]. by exists []. }
  unfold PyFloat_FromDouble.
  destruct (next_alloc s) as [[] s1] eqn:E1;
    apply next_alloc_frame in E1 as (_&_&_&Hp1&_).
  2:{ intros [= <- <-]. exists []. split; [apply prefix_nil|]. by split. }
  unfold PyList_SetItem.
  destruct (py s1 !! _) as [o|] eqn:Eo; [destruct (py_P o) as [l|] eqn:El|];
    [destruct (j <? length l)|..];
    try (intros [= <- <-]; exists []; split; [apply prefix_nil|]; by split).
  intros (ws & Hpre & Hpy & Hall)%IH. exists (outcome_write ad j :: ws).
  split; [by apply prefix_cons|]. split.
  - rewrite Hpy. simpl. rewrite <- Hp1.
    rewrite (alter_alt_Some _ _ _ _ Eo). by rewrite El.
  - intros Hb. by rewrite (Hall Hb).
Qed.

Lemma publish_disjs_writes P I_A rem : ∀ i s b s',
  publish_disjs P I_A i rem s = (b, s') →
  ∃ ws, ws `prefix_of` mjoin (disj_writes P I_A <$> seq i rem)
        ∧ py s' = fold_left apply_write ws (py s)
        ∧ (b = true → ws = mjoin (disj_writes P I_A <$> seq i rem)).
Proof.
  induction rem as [|rem IH]; intros i s b s'; simpl.
  { intros [= <- <-]. by exists []. }
  destruct (PyObject_GetAttrString_P _ s).
  2:{ intros [= <- <-]. exists []. split; [apply prefix_nil|]. by split. }
  destruct (publish_outcomes _ 0 _ s) as [[] s1] eqn:E1;
    apply publish_outcomes_writes in E1 as (ws1 & Hpre1 & Hpy1 & Hall1).
  - specialize (Hall1 eq_refl). subst ws1.
    intros (ws & Hpre & Hpy & Hall)%IH.
    exists (disj_writes P I_A i ++ ws). split; [by apply prefix_app|]. split.
    + by rewrite Hpy, Hpy1, fold_left_app.
    + intros Hb. by rewrite (Hall Hb).
  - intros [= <- <-]. exists ws1. split; [by apply prefix_app_r|]. by split.
Qed.

Lemma update_program_parameters_writes P ix s b s' :
  update_program_parameters P ix s = (b, s') →
  ∃ ws, ws `prefix_of` publish_writes P (load_u16 (heap s) (i_F ix))
                         (load_u16 (heap s) (i_A ix)) (i_n ix) (i_m ix)
        ∧ py s' = fold_left apply_write ws (py s)
        ∧ (b = true → ws = publish_writes P (load_u16 (heap s) (i_F ix))
                             (load_u16 (heap s) (i_A ix)) (i_n ix) (i_m ix)).
Proof.
  unfold update_program_parameters, publish_writes.
  destruct (publish_facts _ _ 0 _ s) as [[] s1] eqn:E1.
  - pose proof E1 as (Hh & _)%publish_facts_frame.
    apply publish_facts_writes in E1 as (ws1 & _ & Hpy1 & Hall1).
    specialize (Hall1 eq_refl). subst ws1. rewrite Hh.
    intros (ws & Hpre & Hpy & Hall)%publish_disjs_writes.
    eexists (_ ++ ws). split; [by apply prefix_app|]. split.
    + by rewrite Hpy, Hpy1, fold_left_app.
    + intros Hb. by rewrite (Hall Hb).
  - apply publish_facts_writes in E1 as (ws1 & Hpre1 & Hpy1 & _).
    intros [= <- <-]. exists ws1. split; [by apply prefix_app_r|]. by split.
Qed.

Lemma apply_writes_other (ws : list py_write) (o : gmap handle (py_obj D))
    (h : handle) :
  (∀ w, w ∈ ws → write_target w ≠ h) →
  fold_left apply_write ws o !! h = o !! h.
Proof.
  revert o. induction ws as [|w ws IH]; intros o Hws; simpl; [done|].
  rewrite IH by (intros w' Hw'; apply Hws; by right).
  assert (Hw : write_target w ≠ h) by (apply Hws; by left).
  destruct w; simpl in *; by rewrite lookup_alter_ne.
Qed.

(** Every write of [publish_writes] goes to the Python object of an entry
    named by an index array. *)
Lemma publish_writes_target P I_F I_A n m w :
  w ∈ publish_writes P I_F I_A n m →
  (∃ i, i < n ∧ write_target w
                = pf_self (default pf_nil (PF P !! index_at I_F i)))
  ∨ (∃ i, i < m ∧ write_target w
                  = ad_self (default ad_nil (AD P !! index_at I_A i))).
Proof.
  unfold publish_writes. intros [Hw|Hw]%elem_of_app.
  - left. apply list_elem_of_fmap in Hw as (i & -> & Hi%elem_of_seq).
    exists i. split; [lia|done].
  - right. apply list_elem_of_join in Hw as (ws & Hw & Hws).
    apply list_elem_of_fmap in Hws as (i & -> & Hi%elem_of_seq).
    apply list_elem_of_fmap in Hw as (j & -> & _).
    exists i. split; [lia|done].
Qed.

Lemma prefix_elem_of {A} (ws l : list A) (w : A) :
  ws `prefix_of` l → w ∈ ws → w ∈ l.
Proof. intros [k ->] Hw. apply elem_of_app. by left. Qed.

(** C10 (as amended). For every program with at most 65536 facts and at most
    65536 disjunctions, a call of [learn_fixpoint], however it ends, changes
    no fact and no disjunction whose learnable flag is unset, keeps the
    flags, the Python handles and the outcome counts of all entries, and
    changes no Python object other than those of learnable entries. *)
Theorem learn_fixpoint_frame P obs oc atoms niters ls s b P' s' :
  (Z.of_nat (length (PF P)) ≤ 65536)%Z →
  (Z.of_nat (length (AD P)) ≤ 65536)%Z →
  learn P obs oc atoms niters ls s = (b, P', s') →
  same_shape P P'
  ∧ (∀ t pf, PF P !! t = Some pf → pf_learnable pf = false → PF P' !! t = Some pf)
  ∧ (∀ t ad, AD P !! t = Some ad → ad_learnable ad = false → AD P' !! t = Some ad)
  ∧ (∀ h, (∀ pf, pf ∈ PF P → pf_learnable pf = true → pf_self pf ≠ h) →
          (∀ ad, ad ∈ AD P → ad_learnable ad = true → ad_self ad ≠ h) →
          py s' !! h = py s !! h).
Proof.
  intros HlenF HlenA
    [(-> & -> & Hpy)|(Ob & ix & s1 & s2 & bi & s3 & Ei & Hh2 & Hpy2 & Hit & Hrest)]%learn_fixpoint_inv.
  { split; [apply same_shape_refl|]. do 2 (split; [done|]). intros h _ _.
    by rewrite Hpy. }
  destruct (init_indices_built P s ix s1 HlenF HlenA Ei) as [SF SA].
  rewrite Hh2 in Hit.
  set (I_F := load_u16 (heap s1) (i_F ix)) in *.
  set (I_A := load_u16 (heap s1) (i_A ix)) in *.
  pose proof Hit as (Hh3 & _ & _ & Hpy3 & _)%iterate_inv.
  eapply iterate_frame in Hit as (Hshape & HF & HA); [|apply same_shape_refl].
  split; [done|]. split; [|split].
  - intros t pf Ht Hl. rewrite HF; [done|].
    rewrite (index_set_at_elem _ _ _ _ SF). intros (x & Hx & Hlx). congruence.
  - intros t ad Ht Hl. rewrite HA; [done|].
    rewrite (index_set_at_elem _ _ _ _ SA). intros (x & Hx & Hlx). congruence.
  - intros h HhF HhA. destruct bi.
    2:{ destruct Hrest as [_ ->]. done. }
    destruct Hrest as (bu & s4 & Eu & -> & _).
    apply update_program_parameters_writes in Eu as (ws & Hpre & -> & _).
    rewrite Hh3, Hh2 in Hpre. fold I_F I_A in Hpre.
    rewrite apply_writes_other; [congruence|].
    intros w Hw. pose proof (prefix_elem_of _ _ _ Hpre Hw) as Hin.
    destruct Hshape as [ShF ShA].
    apply publish_writes_target in Hin as [(i & Hi & ->)|(i & Hi & ->)].
    + assert (Hin : index_at I_F i ∈ index_at I_F <$> seq 0 (i_n ix)).
      { apply list_elem_of_fmap_2, elem_of_seq. lia. }
      apply (index_set_at_elem _ _ _ _ SF) in Hin as (x & Hx & Hlx).
      destruct (Forall2_lookup_l _ _ _ _ _ ShF Hx) as (y & Hy & _ & Hself).
      rewrite Hy. simpl. rewrite Hself. apply HhF; [|done].
      by eapply list_elem_of_lookup_2.
    + assert (Hin : index_at I_A i ∈ index_at I_A <$> seq 0 (i_m ix)).
      { apply list_elem_of_fmap_2, elem_of_seq. lia. }
      apply (index_set_at_elem _ _ _ _ SA) in Hin as (x & Hx & Hlx).
      destruct (Forall2_lookup_l _ _ _ _ _ ShA Hx) as (y & Hy & _ & Hself & _).
      rewrite Hy. simpl. rewrite Hself. apply HhA; [|done].
      by eapply list_elem_of_lookup_2.
Qed.

(** C4 (as amended). When [learn_fixpoint] returns [false], either no Python
    object has been changed, or the failure is that of the publish-back
    adapter (the last error raised is "could not update program
    parameters!") and the Python objects have received a prefix of the
    writes that publish the program: the entries written before the first
    failing write stay written, nothing else is changed. *)
Theorem learn_fixpoint_failure P obs oc atoms niters ls s P' s' :
  learn P obs oc atoms niters ls s = (false, P', s') →
  py s' = py s
  ∨ (last (errs s') = Some publish_error
     ∧ ∃ ix s1 ws,
         init_indices P s = (Some ix, s1)
         ∧ ws `prefix_of` publish_writes P' (load_u16 (heap s1) (i_F ix))
                            (load_u16 (heap s1) (i_A ix)) (i_n ix) (i_m ix)
         ∧ py s' = fold_left apply_write ws (py s)).
Proof.
  intros [(_ & _ & Hpy)|(Ob & ix & s1 & s2 & bi & s3 & Ei & Hh2 & Hpy2 & Hit & Hrest)]%learn_fixpoint_inv;
    [by left|].
  destruct bi; [|destruct Hrest as [_ ->]; by left].
  destruct Hrest as (bu & s4 & Eu & -> & <- & Herr). right.
  split; [by apply Herr|]. exists ix, s1.
  apply iterate_inv in Hit as (Hh3 & _ & _ & Hpy3 & _).
  apply update_program_parameters_writes in Eu as (ws & Hpre & -> & _).
  exists ws. rewrite Hh3, Hh2 in Hpre. split; [done|]. split; [done|]. congruence.
Qed.

End Frame.

Lemma learn_fixpoint_frame_witness :
  (Z.of_nat (length (PF (program_mixed half))) ≤ 65536)%Z
  ∧ ∃ b P' s',
      run_mixed = (b, P', s')
      ∧ same_shape (program_mixed half) P'
      ∧ (∀ t pf, PF (program_mixed half) !! t = Some pf →
                 pf_learnable pf = false → PF P' !! t = Some pf)
      ∧ (∀ t ad, AD (program_mixed half) !! t = Some ad →
                 ad_learnable ad = false → AD P' !! t = Some ad)
      ∧ (∀ h, (∀ pf, pf ∈ PF (program_mixed half) →
                     pf_learnable pf = true → pf_self pf ≠ h) →
              (∀ ad, ad ∈ AD (program_mixed half) →
                     ad_learnable ad = true → ad_self ad ≠ h) →
              py s' !! h = py (state_init (py_pair half true)) !! h).
Proof.
  split; [vm_compute; discriminate|].
  eexists _, _, _. split; [vm_compute; reflexivity|].
  eapply (learn_fixpoint_frame nat (λ n, n) observe one_worker
            (solver_fixed scenario_Qc) (program_mixed half) obs_2x1 counts_3_1
            atoms_1 1 false (state_init (py_pair half true)));
    [vm_compute; discriminate | vm_compute; discriminate | vm_compute; reflexivity].
Defined.

(** With a learnable fact at position 65536 the index array holds 0: the call
    succeeds, and the learnable fact still has the probability 1/2 it had
    before the call, where the learning rule gives 7/10. *)
Lemma learn_fixpoint_wide_program_rule :
  fst (fst run_wide) = true
  ∧ pf_learnable <$> PF (program_wide half) !! Z.to_nat 65536 = Some true
  ∧ (λ pf, this (pf_p pf)) <$> PF (snd (fst run_wide)) !! Z.to_nat 65536
    = Some (1 # 2)
  ∧ this (ddiv (fact_acc scenario_Qc counts_3_1 2 0 d0) (d_of_size 4)) = 7 # 10.
Proof. repeat split; vm_compute; reflexivity. Qed.

(** With a learnable fact at position 65536 the index array holds 0: the call
    succeeds, and it has overwritten the fact at position 0, which is not
    learnable, and the Python object of that fact. *)
Lemma learn_fixpoint_wide_program :
  fst (fst run_wide) = true
  ∧ pf_learnable <$> PF (program_wide half) !! 0 = Some false
  ∧ (λ pf, this (pf_p pf)) <$> PF (program_wide half) !! 0 = Some (1 # 2)
  ∧ (λ pf, this (pf_p pf)) <$> PF (snd (fst run_wide)) !! 0 = Some (7 # 10)
  ∧ (λ o, this (py_p o)) <$> py_pair half true !! 1%positive = Some (1 # 2)
  ∧ (λ o, this (py_p o)) <$> py (snd run_wide) !! 1%positive = Some (7 # 10).
Proof. repeat split; vm_compute; reflexivity. Qed.

Lemma learn_fixpoint_failure_witness :
  ∃ P' s',
    run_pair = (false, P', s')
    ∧ (py s' = py (state_init (py_pair half false))
       ∨ (last (errs s') = Some publish_error
          ∧ ∃ ix s1 ws,
              init_indices (program_pair half) (state_init (py_pair half false))
              = (Some ix, s1)
              ∧ ws `prefix_of` publish_writes P' (load_u16 (heap s1) (i_F ix))
                                 (load_u16 (heap s1) (i_A ix)) (i_n ix) (i_m ix)
              ∧ py s' = fold_left apply_write ws
                          (py (state_init (py_pair half false))))).
Proof.
  eexists _, _. split; [vm_compute; reflexivity|].
  eapply (learn_fixpoint_failure nat (λ n, n) observe one_worker
            (solver_fixed (scenario_pair (Q2Qc 1) (Q2Qc (9 # 10)) (Q2Qc (1 # 10))))
            (program_pair half) obs_2x1 counts_3_1 atoms_1 1 false
            (state_init (py_pair half false))).
  vm_compute. reflexivity.
Defined.

(** Publishing fails at the second of two learnable facts: the call returns
    [false], and the Python object of the first fact has been changed. *)
Lemma learn_fixpoint_partial_publish :
  fst (fst run_pair) = false
  ∧ (λ o, this (py_p o)) <$> py_pair half false !! 1%positive = Some (1 # 2)
  ∧ (λ o, this (py_p o)) <$> py (snd run_pair) !! 1%positive = Some (7 # 10).
Proof. repeat split; vm_compute; reflexivity. Qed.

(** ** C3: the probability mass of a disjunction *)

Section Mass.
Local Open Scope Qc_scope.

Lemma sum_Qc_cons (x : Qc) (l : list Qc) : sum_Qc (x :: l) = x + sum_Qc l.
Proof. done. Qed.

Lemma sum_Qc_add {A} (f g : A → Qc) (l : list A) :
  sum_Qc ((λ j, f j + g j) <$> l) = sum_Qc (f <$> l) + sum_Qc (g <$> l).
Proof.
  induction l as [|x l IH]; [by rewrite Qcplus_0_l|].
  rewrite !fmap_cons, !sum_Qc_cons, IH. ring.
Qed.

Lemma sum_Qc_scale {A} (c o : Qc) (f : A → Qc) (l : list A) :
  sum_Qc ((λ j, c * (f j / o)) <$> l) = c * (sum_Qc (f <$> l) / o).
Proof.
  induction l as [|x l IH]; [unfold Qcdiv; simpl; ring|].
  rewrite !fmap_cons, !sum_Qc_cons, IH. unfold Qcdiv. ring.
Qed.

Lemma sum_Qc_div {A} (N : Qc) (f : A → Qc) (l : list A) :
  sum_Qc ((λ j, f j / N) <$> l) = sum_Qc (f <$> l) / N.
Proof.
  induction l as [|x l IH]; [unfold Qcdiv; simpl; ring|].
  rewrite !fmap_cons, !sum_Qc_cons, IH. unfold Qcdiv. ring.
Qed.

Lemma sum_Qc_zero {A} (l : list A) : sum_Qc ((λ _, 0) <$> l) = 0.
Proof.
  induction l as [|x l IH]; [done|]. rewrite fmap_cons, sum_Qc_cons, IH. ring.
Qed.

Lemma sum_counts_S (oc : PyArrayObject) (On : nat) :
  sum_counts oc (S On) = (sum_counts oc On + PyArray_GETPTR1_int oc On)%Z.
Proof. unfold sum_counts. by rewrite seq_S, fmap_app, fold_left_app. Qed.

(** Summed over the outcomes of a disjunction, the accumulators hold the
    number of observations seen. *)
Lemma outcome_acc_sum (Q0 : list (prob_obs_storage_t Qc)) (oc : PyArrayObject)
    (On k nout : nat) :
  (∀ i_o, (i_o < On)%nat →
     q_o (default q_nil (Q0 !! i_o)) ≠ 0
     ∧ sum_Qc (q_Aj (default q_nil (Q0 !! i_o)) k <$> seq 0 nout)
       = q_o (default q_nil (Q0 !! i_o))) →
  sum_Qc ((λ j, outcome_acc Q0 oc On k j 0) <$> seq 0 nout)
  = Qc_of_Z (sum_counts oc On).
Proof.
  induction On as [|On IH]; intros Hc.
  - unfold outcome_acc. simpl. change (sum_counts oc 0) with 0%Z.
    rewrite Z2Qc_inj_0. apply sum_Qc_zero.
  - erewrite list_fmap_ext; [|intros i j _; apply outcome_acc_S].
    unfold soft. simpl.
    rewrite (sum_Qc_add (λ j, outcome_acc Q0 oc On k j 0)).
    rewrite IH by (intros i Hi; apply Hc; lia).
    rewrite sum_Qc_scale. destruct (Hc On) as [Hne ->]; [lia|].
    rewrite sum_counts_S, Z2Qc_inj_add. field. done.
Qed.

Section OnePassMass.
Variables (I_F I_A : list Z) (n m : nat).

Lemma pass_disj_mass (P0 P : program_t Qc) Q0 oc On N k ad :
  NoDup (index_at I_A <$> seq 0 m) → (k < m)%nat →
  same_shape P0 P →
  AD P !! index_at I_A k = Some ad →
  solver_contract P0 I_A m On Q0 →
  N = sum_counts oc On → N ≠ 0%Z →
  ∃ ad', AD (pass I_F I_A n m Q0 oc On N P) !! index_at I_A k = Some ad'
         ∧ sum_Qc (ad_P ad') = 1.
Proof.
  intros Hnd Hk [_ ShA] Had Hc -> HN. eexists. split.
  { rewrite pass_disj by done. rewrite Had. simpl. reflexivity. }
  rewrite map_ad_P_imap, imap_seq_0.
  fold (ad_n ad). simpl.
  rewrite (sum_Qc_div _ (λ j, outcome_acc Q0 oc On k j 0)).
  destruct (Forall2_lookup_r _ _ _ _ _ ShA Had) as (ad0 & Had0 & _ & _ & Hn).
  rewrite outcome_acc_sum.
  - field. intros E. apply HN. rewrite <- Z2Qc_inj_0 in E. by apply Z2Qc_inj in E.
  - intros i_o Hi. destruct (Hc i_o Hi) as [Hne Hsum]. split; [done|].
    rewrite Hn. by apply Hsum.
Qed.

End OnePassMass.

Section MassLoop.
Variable observations_t : Type.
Variable O_n : observations_t → nat.
Variable prob_obs_reuse :
  program_t Qc → observations_t → bool → option (list (prob_obs_storage_t Qc)).

Local Abbreviation iter := (iterate observations_t O_n prob_obs_reuse).

Lemma iterate_S Ob oc ls I_F I_A n m N rem (P : program_t Qc) (s : state Qc) :
  iter Ob oc ls I_F I_A n m N (S rem) P s
  = match prob_obs_reuse P Ob ls with
    | None => (false, P, log Solve s)
    | Some Q0 =>
        iter Ob oc ls I_F I_A n m N rem (pass I_F I_A n m Q0 oc (O_n Ob) N P)
          (log Normalize (log Accumulate (log Reset (log Solve s))))
    end.
Proof. done. Qed.

Lemma iterate_mass Ob oc ls I_F I_A n m N (P0 : program_t Qc) (rem : nat) :
  index_set ad_learnable (AD P0) m I_A →
  (∀ P1 Q0, prob_obs_reuse P1 Ob ls = Some Q0 →
            solver_contract P0 I_A m (O_n Ob) Q0) →
  N = sum_counts oc (O_n Ob) → N ≠ 0%Z →
  ∀ P s P' s',
    same_shape P0 P →
    iter Ob oc ls I_F I_A n m N (S rem) P s = (true, P', s') →
    ∀ t ad, AD P' !! t = Some ad → ad_learnable ad = true →
            sum_Qc (ad_P ad) = 1.
Proof.
  intros Hset Hc HN HN0. induction rem as [|rem IH]; intros P s P' s' HP Hit.
  - rewrite iterate_S in Hit.
    destruct (prob_obs_reuse P Ob ls) as [Q0|] eqn:Es; [|done].
    simpl in Hit. injection Hit as <- _. intros t ad Ht Hl.
    pose proof (pass_same_shape I_F I_A n m Q0 oc (O_n Ob) N P0 P HP) as [_ ShA'].
    destruct (Forall2_lookup_r _ _ _ _ _ ShA' Ht) as (ad0 & Had0 & Hl0 & _ & _).
    destruct (index_set_position _ _ _ _ Hset t ad0 Had0) as (k & Hk & _ & Hat);
      [congruence|].
    destruct HP as [ShF ShA].
    destruct (Forall2_lookup_l _ _ _ _ _ ShA Had0) as (adP & HadP & _).
    destruct (pass_disj_mass I_F I_A n m P0 P Q0 oc (O_n Ob) N k adP)
      as (ad' & Had' & Hsum); try done.
    + by eapply index_set_at_NoDup.
    + by rewrite Hat.
    + by eapply Hc.
    + rewrite Hat in Had'. congruence.
  - rewrite iterate_S in Hit.
    destruct (prob_obs_reuse P Ob ls) as [Q0|] eqn:Es; [|done].
    eapply IH; [|exact Hit]. by apply pass_same_shape.
Qed.

(** In rational arithmetic, over the index array of [init_indices], under
    the contract of the solver and with a positive sum of the repeat counts,
    the outcome probabilities of every learnable disjunction sum to 1 after
    every pass. *)
Lemma iterate_mass_exact Ob oc ls I_F n (rem : nat)
    (P P' : program_t Qc) (s s' : state Qc) :
  (Z.of_nat (length (AD P)) ≤ 65536)%Z →
  (∀ P1 Q0, prob_obs_reuse P1 Ob ls = Some Q0 →
     solver_contract P (to_u16 <$> learnable_from ad_learnable 0 (AD P))
       (count_learnable ad_learnable (AD P)) (O_n Ob) Q0) →
  (0 < sum_counts oc (O_n Ob) < 2 ^ 64)%Z →
  (0 < rem)%nat →
  iter Ob oc ls I_F (to_u16 <$> learnable_from ad_learnable 0 (AD P))
    n (count_learnable ad_learnable (AD P)) (total_count oc (O_n Ob)) rem P s
  = (true, P', s') →
  ∀ t ad, AD P' !! t = Some ad → ad_learnable ad = true →
          sum_Qc (ad_P ad) = 1.
Proof.
  intros Hlen Hc Hsum Hrem Hit. destruct rem as [|rem]; [lia|].
  eapply iterate_mass; [by apply index_set_learnable_from|exact Hc| | |
                        apply same_shape_refl|exact Hit].
  - rewrite total_count_mod. apply Z.mod_small. lia.
  - rewrite total_count_mod, Z.mod_small by lia. lia.
Qed.

End MassLoop.

End Mass.

(** ** C3: the probability mass under rounding *)

Section Bands.
Local Open Scope Qc_scope.
Variable ε : Qc.
Hypothesis Hε0 : 0 ≤ ε.
Hypothesis Hε1 : ε ≤ 1.

Local Abbreviation band K r v := ((1 - ε) ^ K * r ≤ v ∧ v ≤ (1 + ε) ^ K * r).

Lemma Qcle_by_diff (a b : Qc) : 0 ≤ b - a → a ≤ b.
Proof. intros Hd. apply Qcle_minus_iff. exact Hd. Qed.

Lemma Qcle_diff_nonneg (a b : Qc) : a ≤ b → 0 ≤ b - a.
Proof. intros Hd. by apply Qcle_minus_iff in Hd. Qed.

Lemma lo_nonneg : 0 ≤ 1 - ε.
Proof. apply Qcle_minus_iff in Hε1. exact Hε1. Qed.

Lemma hi_ge_1 : 1 ≤ 1 + ε.
Proof. apply Qcle_by_diff. by replace (1 + ε - 1) with ε by ring. Qed.

Lemma hi_nonneg : 0 ≤ 1 + ε.
Proof. eapply Qcle_trans; [|apply hi_ge_1]. done. Qed.

Lemma lo_le_1 : 1 - ε ≤ 1.
Proof. apply Qcle_by_diff. by replace (1 - (1 - ε)) with ε by ring. Qed.

Lemma band_zero K : band K 0 0.
Proof. rewrite !Qcmult_0_r. split; apply Qcle_refl. Qed.

Lemma band_refl r : band 0%nat r r.
Proof. simpl. rewrite !Qcmult_1_l. split; apply Qcle_refl. Qed.

Lemma band_round K r x v : band K r x → rel_err ε x v → band (S K) r v.
Proof.
  intros [Bl Bu] [Rl Ru]. simpl. split.
  - eapply Qcle_trans; [|exact Rl]. rewrite <- Qcmult_assoc.
    apply Qcmult_le_mono_nonneg_l; [apply lo_nonneg|done].
  - eapply Qcle_trans; [exact Ru|]. rewrite <- Qcmult_assoc.
    apply Qcmult_le_mono_nonneg_l; [apply hi_nonneg|done].
Qed.

Lemma band_S K r v : 0 ≤ r → band K r v → band (S K) r v.
Proof.
  intros Hr [Bl Bu]. simpl. split.
  - eapply Qcle_trans; [|exact Bl]. rewrite <- Qcmult_assoc.
    rewrite <- (Qcmult_1_l ((1 - ε) ^ K * r)) at 2.
    apply Qcmult_le_mono_nonneg_r; [|apply lo_le_1].
    apply Qcmult_nonneg_nonneg; [|done]. apply Qcpower_pos, lo_nonneg.
  - eapply Qcle_trans; [exact Bu|]. rewrite <- Qcmult_assoc.
    rewrite <- (Qcmult_1_l ((1 + ε) ^ K * r)) at 1.
    apply Qcmult_le_mono_nonneg_r; [|apply hi_ge_1].
    apply Qcmult_nonneg_nonneg; [|done]. apply Qcpower_pos, hi_nonneg.
Qed.

Lemma band_le K K' r v : (K ≤ K')%nat → 0 ≤ r → band K r v → band K' r v.
Proof.
  intros Hle Hr HB. induction Hle as [|K' _ IH]; [done|]. by apply band_S.
Qed.

Lemma band_add K r1 v1 r2 v2 :
  band K r1 v1 → band K r2 v2 → band K (r1 + r2) (v1 + v2).
Proof.
  intros [Bl1 Bu1] [Bl2 Bu2]. rewrite !Qcmult_plus_distr_r.
  split; by apply Qcplus_le_compat.
Qed.

Lemma band_scale K c r v : 0 ≤ c → band K r v → band K (c * r) (c * v).
Proof.
  intros Hc [Bl Bu]. split.
  - replace ((1 - ε) ^ K * (c * r)) with (c * ((1 - ε) ^ K * r)) by ring.
    by apply Qcmult_le_mono_nonneg_l.
  - replace ((1 + ε) ^ K * (c * r)) with (c * ((1 + ε) ^ K * r)) by ring.
    by apply Qcmult_le_mono_nonneg_l.
Qed.

Lemma Qcinv_nonneg (n : Qc) : 0 < n → 0 ≤ / n.
Proof.
  intros Hn. apply Qclt_le_weak. apply Qcinv_pos. done.
Qed.

Lemma band_div K n r v : 0 < n → band K r v → band K (r / n) (v / n).
Proof.
  intros Hn HB. unfold Qcdiv. rewrite !(Qcmult_comm _ (/ n)).
  apply band_scale; [by apply Qcinv_nonneg|done].
Qed.

Lemma band_sum {A} K (f g : A → Qc) (l : list A) :
  (∀ x, x ∈ l → band K (f x) (g x)) →
  band K (sum_Qc (f <$> l)) (sum_Qc (g <$> l)).
Proof.
  induction l as [|x l IH]; intros Hall.
  - apply band_zero.
  - rewrite !fmap_cons, !sum_Qc_cons. apply band_add.
    + apply Hall. by left.
    + apply IH. intros y Hy. apply Hall. by right.
Qed.

Local Abbreviation κ k := (Qc_of_Z (Z.of_nat k)).

Lemma kappa_S (k : nat) : κ (S k) = κ k + 1.
Proof. by rewrite Nat2Z.inj_succ, <- Z.add_1_r, Z2Qc_inj_add, Z2Qc_inj_1. Qed.

Lemma kappa_nonneg (k : nat) : 0 ≤ κ k.
Proof. rewrite <- Z2Qc_inj_0. apply (proj1 (Z2Qc_inj_le _ _)). lia. Qed.

Lemma kappa_mono (k K : nat) : (k ≤ K)%nat → κ k ≤ κ K.
Proof. intros Hle. apply (proj1 (Z2Qc_inj_le _ _)). lia. Qed.

Lemma hi_pow_bound (K k : nat) :
  2 * κ K * ε ≤ 1 → (k ≤ K)%nat → (1 + ε) ^ k ≤ 1 + 2 * κ k * ε.
Proof.
  intros HK. induction k as [|k IH]; intros Hk.
  - cbn [Qcpower]. change (Z.of_nat 0) with 0%Z. rewrite Z2Qc_inj_0.
    apply Qcle_by_diff.
    replace (1 + 2 * 0 * ε - 1) with 0 by ring. apply Qcle_refl.
  - cbn [Qcpower]. eapply Qcle_trans.
    { apply Qcmult_le_mono_nonneg_l; [apply hi_nonneg|]. apply IH. lia. }
    rewrite kappa_S. apply Qcle_by_diff.
    replace (1 + 2 * (κ k + 1) * ε - (1 + ε) * (1 + 2 * κ k * ε))
      with (ε * (1 - 2 * κ k * ε)) by ring.
    apply Qcmult_nonneg_nonneg; [done|]. apply Qcle_diff_nonneg.
    eapply Qcle_trans; [|exact HK].
    apply Qcmult_le_mono_nonneg_r; [done|].
    apply Qcmult_le_mono_nonneg_l; [done|]. apply kappa_mono. lia.
Qed.

Lemma lo_pow_bound (k : nat) : 1 - κ k * ε ≤ (1 - ε) ^ k.
Proof.
  induction k as [|k IH].
  - cbn [Qcpower]. change (Z.of_nat 0) with 0%Z. rewrite Z2Qc_inj_0.
    apply Qcle_by_diff.
    replace (1 - (1 - 0 * ε)) with 0 by ring. apply Qcle_refl.
  - cbn [Qcpower]. eapply Qcle_trans;
      [|apply Qcmult_le_mono_nonneg_l; [apply lo_nonneg|exact IH]].
    rewrite kappa_S. apply Qcle_by_diff.
    replace ((1 - ε) * (1 - κ k * ε) - (1 - (κ k + 1) * ε))
      with (κ k * (ε * ε)) by ring.
    apply Qcmult_nonneg_nonneg; [apply kappa_nonneg|].
    by apply Qcmult_nonneg_nonneg.
Qed.

Lemma band_one (K : nat) (v : Qc) :
  2 * κ K * ε ≤ 1 → band K 1 v →
  1 - 2 * κ K * ε ≤ v ∧ v ≤ 1 + 2 * κ K * ε.
Proof.
  rewrite !Qcmult_1_r. intros HK [Bl Bu]. split.
  - eapply Qcle_trans; [|exact Bl]. eapply Qcle_trans; [|apply lo_pow_bound].
    apply Qcle_by_diff.
    replace (1 - κ K * ε - (1 - 2 * κ K * ε)) with (κ K * ε) by ring.
    apply Qcmult_nonneg_nonneg; [apply kappa_nonneg|done].
  - eapply Qcle_trans; [exact Bu|]. by apply (hi_pow_bound K K).
Qed.

End Bands.

Section OutcomeBand.
Local Open Scope Qc_scope.
Context {D : Type} `{DoubleOps D} `{DoubleVal D}.
Variable ε : Qc.
Hypothesis Hε0 : 0 ≤ ε.
Hypothesis Hε1 : ε ≤ 1.
Variables (Q0 : list (prob_obs_storage_t D)) (oc : PyArrayObject).

Local Abbreviation band K r v := ((1 - ε) ^ K * r ≤ v ∧ v ≤ (1 + ε) ^ K * r).

Lemma sum_Qc_app (l1 l2 : list Qc) : sum_Qc (l1 ++ l2) = sum_Qc l1 + sum_Qc l2.
Proof.
  induction l1 as [|x l1 IH].
  - change (sum_Qc []) with (Q2Qc 0). by rewrite Qcplus_0_l.
  - rewrite <- app_comm_cons, !sum_Qc_cons, IH. ring.
Qed.

Lemma outcome_ref_S (o k j : nat) :
  outcome_ref Q0 oc (S o) k j
  = outcome_ref Q0 oc o k j
    + Qc_of_Z (PyArray_GETPTR1_int oc o)
      * (dval (q_Aj (default q_nil (Q0 !! o)) k j)
         / dval (q_o (default q_nil (Q0 !! o)))).
Proof.
  unfold outcome_ref. rewrite seq_S, fmap_app, sum_Qc_app.
  rewrite fmap_cons, fmap_nil, sum_Qc_cons.
  change (sum_Qc []) with (Q2Qc 0). cbn [Nat.add]. ring.
Qed.

Lemma Qcdiv_nonneg (a b : Qc) : 0 ≤ a → 0 < b → 0 ≤ a / b.
Proof.
  intros Ha Hb. unfold Qcdiv. apply Qcmult_nonneg_nonneg; [done|].
  by apply Qcinv_nonneg.
Qed.

Section OneOutcome.
Variables (On : nat) (N : Z) (k j : nat).
Hypothesis Hconv : counts_exact oc On N.
Hypothesis Hpos : ∀ o, (o < On)%nat →
  0 < dval (q_o (default q_nil (Q0 !! o)))
  ∧ 0 ≤ dval (q_Aj (default q_nil (Q0 !! o)) k j).
Hypothesis Hacc : outcome_accurate ε Q0 oc On N k j.
Hypothesis HN : (0 < N)%Z.

Lemma outcome_ref_nonneg (o : nat) : (o ≤ On)%nat → 0 ≤ outcome_ref Q0 oc o k j.
Proof.
  destruct Hconv as (_ & _ & Hc).
  induction o as [|o IH]; intros Ho; [apply Qcle_refl|].
  rewrite outcome_ref_S. apply Qcplus_nonneg_nonneg; [apply IH; lia|].
  destruct (Hc o) as [Hc0 _]; [lia|]. destruct (Hpos o) as [Hvo Hva]; [lia|].
  apply Qcmult_nonneg_nonneg; [|by apply Qcdiv_nonneg].
  rewrite <- Z2Qc_inj_0. by apply (proj1 (Z2Qc_inj_le _ _)).
Qed.

Lemma outcome_acc_band (o : nat) :
  (o ≤ On)%nat →
  band (o + 2) (outcome_ref Q0 oc o k j) (dval (outcome_acc Q0 oc o k j d0)).
Proof.
  destruct Hconv as (Hz & _ & Hc). destruct Hacc as [Hops _].
  induction o as [|o IH]; intros Ho.
  - change (outcome_acc Q0 oc 0 k j d0) with (@d0 D _).
    change (outcome_ref Q0 oc 0 k j) with (Q2Qc 0).
    rewrite Hz. apply band_zero.
  - destruct (Hc o) as [Hc0 Hcv]; [lia|].
    destruct (Hpos o) as [Hvo Hva]; [lia|].
    destruct (Hops o) as ((_ & Hq) & (_ & Ht) & (_ & Ha)); [lia|].
    rewrite outcome_acc_S, outcome_ref_S. unfold soft.
    set (W := default q_nil (Q0 !! o)) in *.
    set (c := d_of_int (PyArray_GETPTR1_int oc o)) in *.
    set (q := ddiv (q_Aj W k j) (q_o W)) in *.
    set (acc := outcome_acc Q0 oc o k j d0) in *.
    assert (Hc0' : 0 ≤ Qc_of_Z (PyArray_GETPTR1_int oc o)).
    { rewrite <- Z2Qc_inj_0. by apply (proj1 (Z2Qc_inj_le _ _)). }
    assert (Bq : band 1 (dval (q_Aj W k j) / dval (q_o W)) (dval q)).
    { eapply (band_round ε Hε0 Hε1 0); [apply band_refl|exact Hq]. }
    assert (Bt : band 2 (Qc_of_Z (PyArray_GETPTR1_int oc o)
                         * (dval (q_Aj W k j) / dval (q_o W)))
                   (dval (dmul c q))).
    { eapply (band_round ε Hε0 Hε1 1); [|exact Ht].
      rewrite Hcv. by apply band_scale. }
    replace (S o + 2)%nat with (S (o + 2)) by lia.
    eapply (band_round ε Hε0 Hε1 (o + 2)); [|exact Ha].
    apply band_add; [apply IH; lia|].
    apply (band_le ε Hε0 Hε1 2); [lia| |exact Bt].
    apply Qcmult_nonneg_nonneg; [done|by apply Qcdiv_nonneg].
Qed.

Lemma outcome_prob_band :
  dfinite (ddiv (outcome_acc Q0 oc On k j d0) (d_of_size N)) = true
  ∧ band (On + 3) (outcome_ref Q0 oc On k j / Qc_of_Z N)
      (dval (ddiv (outcome_acc Q0 oc On k j d0) (d_of_size N))).
Proof.
  destruct Hconv as (_ & HNv & _). destruct Hacc as [_ [Hfin Hp]].
  split; [done|]. rewrite HNv in Hp.
  replace (On + 3)%nat with (S (On + 2)) by lia.
  eapply (band_round ε Hε0 Hε1 (On + 2)); [|exact Hp].
  apply band_div; [|by apply outcome_acc_band].
  rewrite <- Z2Qc_inj_0. by apply (proj1 (Z2Qc_inj_lt _ _)).
Qed.

End OneOutcome.

(** Summed over the outcomes of a disjunction, the exact accumulators hold
    the number of observations seen. *)
Lemma outcome_ref_sum (On k nout : nat) :
  (∀ o, (o < On)%nat →
     dval (q_o (default q_nil (Q0 !! o))) ≠ 0
     ∧ sum_Qc ((λ j, dval (q_Aj (default q_nil (Q0 !! o)) k j)) <$> seq 0 nout)
       = dval (q_o (default q_nil (Q0 !! o)))) →
  sum_Qc ((λ j, outcome_ref Q0 oc On k j) <$> seq 0 nout)
  = Qc_of_Z (sum_counts oc On).
Proof.
  induction On as [|On IH]; intros Hc.
  - change (sum_counts oc 0) with 0%Z. rewrite Z2Qc_inj_0.
    erewrite list_fmap_ext; [apply sum_Qc_zero|]. by intros i j _.
  - erewrite list_fmap_ext; [|intros i j _; apply outcome_ref_S].
    rewrite (sum_Qc_add (λ j, outcome_ref Q0 oc On k j)).
    rewrite IH by (intros i Hi; apply Hc; lia).
    rewrite (sum_Qc_scale _ _ (λ j, dval (q_Aj (default q_nil (Q0 !! On)) k j))).
    destruct (Hc On) as [Hne ->]; [lia|].
    rewrite sum_counts_S, Z2Qc_inj_add. field. done.
Qed.

Section OnePassTolerance.
Variables (I_F I_A : list Z) (n m : nat).

Lemma pass_disj_tolerance (P0 P : program_t D) On N k ad :
  NoDup (index_at I_A <$> seq 0 m) → (k < m)%nat →
  same_shape P0 P →
  AD P !! index_at I_A k = Some ad →
  2 * Qc_of_Z (Z.of_nat (On + 3)) * ε ≤ 1 →
  N = sum_counts oc On → (0 < N)%Z →
  counts_exact oc On N →
  solver_contract_val P0 I_A m On Q0 →
  (∀ j, (j < ad_n ad)%nat → outcome_accurate ε Q0 oc On N k j) →
  ∃ ad', AD (pass I_F I_A n m Q0 oc On N P) !! index_at I_A k = Some ad'
         ∧ Forall (λ x, dfinite x = true) (ad_P ad')
         ∧ 1 - 2 * Qc_of_Z (Z.of_nat (On + 3)) * ε ≤ sum_Qc (dval <$> ad_P ad')
         ∧ sum_Qc (dval <$> ad_P ad') ≤ 1 + 2 * Qc_of_Z (Z.of_nat (On + 3)) * ε.
Proof.
  intros Hnd Hk [_ ShA] Had Hε HNs HN Hconv Hc Hacc. eexists. split.
  { rewrite pass_disj by done. rewrite Had. simpl. reflexivity. }
  rewrite map_ad_P_imap, imap_seq_0. fold (ad_n ad).
  destruct (Forall2_lookup_r _ _ _ _ _ ShA Had) as (ad0 & Had0 & _ & _ & Hn).
  assert (Hpos : ∀ j, (j < ad_n ad)%nat → ∀ o, (o < On)%nat →
            0 < dval (q_o (default q_nil (Q0 !! o)))
            ∧ 0 ≤ dval (q_Aj (default q_nil (Q0 !! o)) k j)).
  { intros j Hj o Ho. destruct (Hc o Ho) as [Hvo Hk0]. split; [done|].
    destruct (Hk0 k ad0 Hk Had0) as [Hnn _]. apply Hnn. by rewrite <- Hn. }
  split.
  { apply Forall_fmap, Forall_forall. intros j Hj%elem_of_seq.
    eapply (outcome_prob_band On N k j); [done|apply Hpos; lia| |done].
    apply Hacc. lia. }
  rewrite <- list_fmap_compose.
  assert (Hone : sum_Qc ((λ j, outcome_ref Q0 oc On k j / Qc_of_Z N)
                           <$> seq 0 (ad_n ad)) = 1).
  { rewrite (sum_Qc_div _ (λ j, outcome_ref Q0 oc On k j)).
    rewrite outcome_ref_sum.
    - rewrite HNs. field. rewrite <- HNs. intros E.
      rewrite <- Z2Qc_inj_0 in E. apply Z2Qc_inj in E. lia.
    - intros o Ho. destruct (Hc o Ho) as [Hvo Hk0]. split.
      + intros E. rewrite E in Hvo. exact (Qclt_not_le _ _ Hvo (Qcle_refl _)).
      + destruct (Hk0 k ad0 Hk Had0) as [_ Hsum]. by rewrite Hn. }
  apply (band_one ε Hε0 Hε1 (On + 3)); [done|].
  pose proof (band_sum ε (On + 3)
                (λ j, outcome_ref Q0 oc On k j / Qc_of_Z N)
                (dval ∘ (λ j, ddiv (outcome_acc Q0 oc On k j d0) (d_of_size N)))
                (seq 0 (ad_n ad))) as HB.
  rewrite Hone in HB. apply HB. intros j Hj%elem_of_seq. simpl.
  eapply (outcome_prob_band On N k j); [done|apply Hpos; lia| |done].
  apply Hacc. lia.
Qed.

End OnePassTolerance.

End OutcomeBand.

Section ToleranceLoop.
Local Open Scope Qc_scope.
Context {D : Type} `{DoubleOps D} `{DoubleVal D}.
Variable observations_t : Type.
Variable O_n : observations_t → nat.
Variable prob_obs_reuse :
  program_t D → observations_t → bool → option (list (prob_obs_storage_t D)).

Local Abbreviation iter := (iterate observations_t O_n prob_obs_reuse).

Lemma tolerance_small (K : nat) (ε : Qc) :
  0 ≤ ε → 2 * Qc_of_Z (Z.of_nat (K + 3)) * ε ≤ 1 → ε ≤ 1.
Proof.
  intros Hε0 Hε. eapply Qcle_trans; [|exact Hε].
  rewrite <- (Qcmult_1_l ε) at 1. apply Qcmult_le_mono_nonneg_r; [done|].
  rewrite <- Z2Qc_inj_2, <- Z2Qc_inj_mul, <- Z2Qc_inj_1.
  apply (proj1 (Z2Qc_inj_le _ _)). lia.
Qed.

Lemma iterate_tolerance Ob oc ls I_F I_A n m N (P0 : program_t D) (rem : nat)
    (ε : Qc) :
  0 ≤ ε → 2 * Qc_of_Z (Z.of_nat (O_n Ob + 3)) * ε ≤ 1 →
  index_set ad_learnable (AD P0) m I_A →
  N = sum_counts oc (O_n Ob) → (0 < N)%Z →
  counts_exact oc (O_n Ob) N →
  (∀ P1 Q0, prob_obs_reuse P1 Ob ls = Some Q0 →
     solver_contract_val P0 I_A m (O_n Ob) Q0
     ∧ ∀ k ad j, (k < m)%nat → AD P0 !! index_at I_A k = Some ad →
                 (j < ad_n ad)%nat →
                 outcome_accurate ε Q0 oc (O_n Ob) N k j) →
  ∀ P s P' s',
    same_shape P0 P →
    iter Ob oc ls I_F I_A n m N (S rem) P s = (true, P', s') →
    ∀ t ad, AD P' !! t = Some ad → ad_learnable ad = true →
      Forall (λ x, dfinite x = true) (ad_P ad)
      ∧ 1 - 2 * Qc_of_Z (Z.of_nat (O_n Ob + 3)) * ε ≤ sum_Qc (dval <$> ad_P ad)
      ∧ sum_Qc (dval <$> ad_P ad) ≤ 1 + 2 * Qc_of_Z (Z.of_nat (O_n Ob + 3)) * ε.
Proof.
  intros Hε0 Hε Hset HN HN0 Hconv Hc.
  pose proof (tolerance_small _ _ Hε0 Hε) as Hε1.
  induction rem as [|rem IH]; intros P s P' s' HP Hit; cbn [iterate] in Hit.
  - destruct (prob_obs_reuse P Ob ls) as [Q0|] eqn:Es; [|done].
    injection Hit as <- _. intros t ad Ht Hl.
    pose proof (pass_same_shape I_F I_A n m Q0 oc (O_n Ob) N P0 P HP) as [_ ShA'].
    destruct (Forall2_lookup_r _ _ _ _ _ ShA' Ht) as (ad0 & Had0 & Hl0 & _ & _).
    destruct (index_set_position _ _ _ _ Hset t ad0 Had0) as (k & Hk & _ & Hat);
      [congruence|].
    destruct HP as [ShF ShA].
    destruct (Forall2_lookup_l _ _ _ _ _ ShA Had0) as (adP & HadP & _ & _ & HnP).
    destruct (Hc P Q0 Es) as [Hcv Hacc].
    destruct (pass_disj_tolerance ε Hε0 Hε1 Q0 oc I_F I_A n m P0 P (O_n Ob) N k adP)
      as (ad' & Had' & Hres); try done.
    + by eapply index_set_at_NoDup.
    + by rewrite Hat.
    + intros j Hj. apply (Hacc k ad0 j Hk); [by rewrite Hat|]. by rewrite <- HnP.
    + rewrite Hat in Had'.
      change (normalize I_F I_A n m N
                (accumulate I_F I_A n m Q0 oc (O_n Ob) (reset I_F I_A n m P)))
        with (pass I_F I_A n m Q0 oc (O_n Ob) N P) in Ht.
      congruence.
  - destruct (prob_obs_reuse P Ob ls) as [Q0|] eqn:Es; [|done].
    eapply IH; [|exact Hit]. by apply pass_same_shape.
Qed.

End ToleranceLoop.




(** ** Further properties of the index builder and of the storage *)

Section Release.
Context {D : Type} `{DoubleOps D}.
Implicit Types (s : state D) (P : program_t D).

Lemma build_index_array_null {A} (learnable : A → bool) (l : list A) (n : nat)
    s (p : ptr) s' :
  build_index_array learnable l n s = (Some p, s') → p = None ↔ n = 0.
Proof.
  unfold build_index_array. destruct n as [|n]; [by intros [= <- <-]|].
  destruct (malloc _ s) as [[a|] s1]; [|done]. intros [= <- <-]. done.
Qed.

Lemma init_indices_null P s ix s' :
  init_indices P s = (Some ix, s') →
  (i_F ix = None ↔ i_n ix = 0) ∧ (i_A ix = None ↔ i_m ix = 0).
Proof.
  unfold init_indices, init_indices_cleanup.
  destruct (build_index_array pf_learnable _ _ s) as [[pF|] s1] eqn:E1; [|done].
  destruct (build_index_array ad_learnable _ _ s1) as [[pA|] s2] eqn:E2; [|done].
  intros [= <- <-]. simpl. split; by eapply build_index_array_null.
Qed.

Lemma count_learnable_zero {A} (learnable : A → bool) (l : list A) :
  count_learnable learnable l = 0 ↔ Forall (λ x, learnable x = false) l.
Proof.
  split.
  - rewrite (count_learnable_from learnable l 0). intros Hnil%nil_length_inv.
    apply Forall_forall. intros x (i & Hi)%list_elem_of_lookup.
    destruct (learnable x) eqn:E; [|done].
    assert (Hin : i ∈ learnable_from learnable 0 l).
    { apply learnable_from_elem. split; [lia|]. exists x. by rewrite Nat.sub_0_r. }
    rewrite Hnil in Hin. by apply elem_of_nil in Hin.
  - intros Hall. apply count_learnable_none. by apply Forall_forall.
Qed.

Lemma build_index_array_plan {A} (learnable : A → bool) (l : list A) (n : nat)
    s (p : ptr) s' :
  build_index_array learnable l n s = (Some p, s') →
  plan s' = drop (length (option_list p)) (plan s).
Proof.
  unfold build_index_array. destruct n as [|n]; [by intros [= <- <-]|].
  destruct (malloc _ s) as [[a|] s1] eqn:Em; [|done].
  apply malloc_inv in Em as (_ & Hpl & _). intros [= <- <-]. simpl.
  rewrite Hpl. by destruct (plan s).
Qed.

Lemma init_indices_plan P s ix s' :
  init_indices P s = (Some ix, s') →
  plan s' = drop (length (option_list (i_F ix) ++ option_list (i_A ix))) (plan s).
Proof.
  unfold init_indices, init_indices_cleanup.
  destruct (build_index_array pf_learnable _ _ s) as [[pF|] s1] eqn:E1; [|done].
  destruct (build_index_array ad_learnable _ _ s1) as [[pA|] s2] eqn:E2; [|done].
  intros [= <- <-]. simpl.
  rewrite (build_index_array_plan _ _ _ _ _ _ E2),
    (build_index_array_plan _ _ _ _ _ _ E1).
  by rewrite drop_drop, length_app.
Qed.

(** X1. After a successful [init_indices] an index array is [NULL] exactly
    when its collection has no learnable entry; the array of the facts and
    the array of the disjunctions are decided independently of each other.
    One allocation request is made for each collection that has a learnable
    entry and none for a collection that has none: the requests consumed
    and the blocks added to the heap are those of the arrays that are not
    [NULL], and each of these blocks has as many entries as its count,
    which is positive. No allocation of size zero is ever requested. *)
Theorem init_indices_null_iff_none_learnable P s ix s' :
  init_indices P s = (Some ix, s') →
  (i_F ix = None ↔ Forall (λ pf, pf_learnable pf = false) (PF P))
  ∧ (i_A ix = None ↔ Forall (λ ad, ad_learnable ad = false) (AD P))
  ∧ plan s'
    = drop (length (option_list (i_F ix) ++ option_list (i_A ix))) (plan s)
  ∧ heap_grows (heap s) (heap s') (option_list (i_F ix) ++ option_list (i_A ix))
  ∧ (∀ a, i_F ix = Some a →
       ∃ xs, heap s' !! a = Some (U16s xs) ∧ length xs = i_n ix ∧ 0 < i_n ix)
  ∧ (∀ a, i_A ix = Some a →
       ∃ xs, heap s' !! a = Some (U16s xs) ∧ length xs = i_m ix ∧ 0 < i_m ix).
Proof.
  intros Ei. destruct (init_indices_null P s ix s' Ei) as [HF HA].
  pose proof (init_indices_plan P s ix s' Ei) as Hpl.
  apply init_indices_inv in Ei as (_ & _ & Hn & Hm & HlF & HlA & G).
  assert (Hblock : ∀ (p : ptr) (n : nat) (xs : list Z) a,
            (p = None ↔ n = 0) → load_u16 (heap s') p = xs → length xs = n →
            p = Some a →
            ∃ ys, heap s' !! a = Some (U16s ys) ∧ length ys = n ∧ 0 < n).
  { intros p n xs a Hnull Hload Hlen ->. simpl in Hload.
    assert (n ≠ 0) by (intros E; by apply Hnull in E).
    destruct (heap s' !! a) as [[ys| | |]|]; subst xs; simpl in *; try lia.
    exists ys. split; [done|]. split; [done|lia]. }
  split; [|split; [|split; [done|split; [done|split]]]].
  - rewrite HF, Hn. apply count_learnable_zero.
  - rewrite HA, Hm. apply count_learnable_zero.
  - intros a Ea. apply (Hblock _ _ _ a HF HlF); [|done].
    by rewrite length_fmap, Hn, (count_learnable_from _ _ 0).
  - intros a Ea. apply (Hblock _ _ _ a HA HlA); [|done].
    by rewrite length_fmap, Hm, (count_learnable_from _ _ 0).
Qed.

(** X2. Whatever the size of the program, also beyond the range of
    [uint16_t], every index stored by [init_indices] is a valid position of
    its collection, and each array has as many entries as its count says:
    the loops that go through the index arrays never leave the program. *)
Theorem init_indices_in_range P s ix s' :
  init_indices P s = (Some ix, s') →
  length (load_u16 (heap s') (i_F ix)) = i_n ix
  ∧ length (load_u16 (heap s') (i_A ix)) = i_m ix
  ∧ (∀ k, k < i_n ix → index_at (load_u16 (heap s') (i_F ix)) k < length (PF P))
  ∧ (∀ k, k < i_m ix → index_at (load_u16 (heap s') (i_A ix)) k < length (AD P)).
Proof.
  intros (_ & _ & -> & -> & -> & -> & _)%init_indices_inv.
  rewrite !length_fmap, <- !(count_learnable_from _ _ 0).
  do 2 (split; [done|]).
  assert (G : ∀ {A} (f : A → bool) (l : list A) k,
            k < count_learnable f l →
            index_at (to_u16 <$> learnable_from f 0 l) k < length l).
  { intros A f l k Hk. rewrite (count_learnable_from f l 0) in Hk.
    destruct (lookup_lt_is_Some_2 _ _ Hk) as [t Ht].
    unfold index_at. rewrite list_lookup_fmap, Ht. simpl.
    apply list_elem_of_lookup_2, learnable_from_bounds in Ht.
    pose proof (to_u16_bounds t). lia. }
  split; intros k Hk; by apply G.
Qed.

Lemma init_indices_release P s ix s' :
  init_indices P s = (Some ix, s') →
  heap (free_indices_contents ix s') = heap s.
Proof.
  intros (_ & _ & _ & _ & _ & _ & (_ & New & Old))%init_indices_inv.
  assert (Hin : ∀ a, Some a ∈ [i_A ix; i_F ix]
                     ↔ a ∈ option_list (i_F ix) ++ option_list (i_A ix)).
  { intros a. rewrite elem_of_app, !elem_of_ptr_list, !elem_of_cons, elem_of_nil.
    split; [intros [->| [->|[]]]; auto | intros [->| ->]; auto]. }
  apply (lookup_restore _ (heap s') _ [i_A ix; i_F ix]).
  - intros a. unfold free_indices_contents.
    change (free (i_A ix) (free (i_F ix) s')) with (foldr free s' [i_A ix; i_F ix]).
    apply frees_lookup.
  - intros a Ha. apply Old. by rewrite <- Hin.
  - intros a Ha. by apply New, Hin.
Qed.

(** X3. [init_indices] followed by [free_indices_contents] is a round trip:
    the heap is as before the call of [init_indices], and so are the error
    log, the Python objects, the worker storage and the trace. *)
Theorem init_indices_round_trip P s ix s' :
  init_indices P s = (Some ix, s') →
  heap (free_indices_contents ix s') = heap s
  ∧ same_world s (free_indices_contents ix s').
Proof.
  intros Ei. split; [by eapply init_indices_release|].
  apply init_indices_inv in Ei as (_ & Hw & _).
  eapply same_world_trans; [exact Hw|]. unfold free_indices_contents.
  eapply same_world_trans; apply free_same_world.
Qed.

(** X4. [init_indices] fails only when an allocation request fails, and
    only for a program that has a learnable entry. It then leaves the heap
    as it was (an index array of the facts that was already allocated is
    freed again), raises its MemoryError and nothing else, and touches no
    Python object. *)
Theorem init_indices_failure P s s' :
  init_indices P s = (None, s') →
  heap s' = heap s
  ∧ errs s' = errs s ++ [(PyExc_MemoryError,
                          "could not allocate memory in init_indices!"%string)]
  ∧ py s' = py s
  ∧ false ∈ plan s
  ∧ ¬ (Forall (λ pf, pf_learnable pf = false) (PF P)
       ∧ Forall (λ ad, ad_learnable ad = false) (AD P)).
Proof.
  intros Ei. pose proof Ei as (_ & Hh & He & Hp & _ & _ & Hpl)%init_indices_inv.
  do 4 (split; [done|]). intros [HF HA].
  rewrite (init_indices_none_learnable P s HF HA) in Ei. done.
Qed.

(** What a successful [init_parameters] has added to the heap: the index
    arrays, the array of pairs, the array of row pointers and the rows, all
    at fresh, pairwise distinct addresses. *)
Lemma init_parameters_grows P s W s' :
  init_parameters P s = (Some W, s') →
  ∃ f a rows,
    w_F W = Some f ∧ w_A W = Some a
    ∧ length rows = w_m W
    ∧ heap s' !! a = Some (Ptrs (Some <$> rows))
    ∧ heap_grows (heap s) (heap s')
        ((((option_list (w_I_F W) ++ option_list (w_I_A W)) ++ [f]) ++ [a]) ++ rows).
Proof.
  unfold init_parameters.
  destruct (init_indices P s) as [[ix|] s1] eqn:Ei; [|done].
  apply init_indices_inv in Ei as (_ & _ & _ & _ & _ & _ & G1).
  set (idx := option_list (i_F ix) ++ option_list (i_A ix)) in *.
  destruct (malloc (Pairs _) s1) as [[f|] s2] eqn:Ef.
  2:{ by intros (? & _)%init_parameters_cleanup_inv. }
  apply malloc_inv in Ef as (_ & _ & Hff & Hh2 & _).
  assert (G2 : heap_grows (heap s) (heap s2) (idx ++ [f])).
  { eapply heap_grows_app; [exact G1|]. rewrite Hh2. by apply heap_grows_insert. }
  destruct (malloc (Ptrs _) s2) as [[a|] s3] eqn:Ea.
  2:{ by intros (? & _)%init_parameters_cleanup_inv. }
  apply malloc_inv in Ea as (_ & _ & Haf & Hh3 & _).
  assert (G3 : heap_grows (heap s) (heap s3) ((idx ++ [f]) ++ [a])).
  { eapply heap_grows_app; [exact G2|]. rewrite Hh3. by apply heap_grows_insert. }
  assert (HA0 : heap s3 !! a = Some (Ptrs (replicate (i_m ix) None))).
  { by rewrite Hh3, lookup_insert_eq. }
  assert (HIA : ∀ ia, i_A ix = Some ia → ia ≠ a ∧ is_Some (heap s3 !! ia)).
  { intros ia E. destruct G3 as (ND & New & _).
    assert (Hin : ia ∈ (idx ++ [f]) ++ [a]).
    { unfold idx. rewrite !elem_of_app. do 2 left. right.
      by apply elem_of_ptr_list. }
    split; [|by apply New]. intros ->.
    apply NoDup_app in ND as (_ & Hd & _). apply (Hd a); [|by left].
    unfold idx. rewrite !elem_of_app. left. right. by apply elem_of_ptr_list. }
  assert (Hinv0 : rows_inv P (load_u16 (heap s3) (i_A ix)) a (i_m ix) (heap s3) 0 s3 []).
  { split; [done|]. split; [constructor|]. split; [by intros ? ?%elem_of_nil|].
    split; [by rewrite Nat.sub_0_r|]. split; [done|]. intros j x Hx. done. }
  destruct (alloc_rows P (i_A ix) a 0 (i_m ix) s3) as [b s4] eqn:Er.
  eapply (alloc_rows_inv P (i_A ix) a (i_m ix) (heap s3) HA0 HIA) in Er
    as (_ & _ & Hres); [|reflexivity|exact Hinv0].
  destruct b.
  2:{ by intros (? & _)%init_parameters_cleanup_inv. }
  intros [= <- <-]. simpl.
  destruct Hres as (rows & Hlen & Hnd & Hfresh & HA & Hframe & Hrow).
  exists f, a, rows. do 3 (split; [done|]). split.
  { rewrite HA, Nat.sub_diag. simpl. by rewrite app_nil_r. }
  assert (HnA : a ∉ rows).
  { intros Hin. specialize (Hfresh a Hin). congruence. }
  destruct G3 as (ND3 & New3 & Old3). split; [|split].
  - apply NoDup_app. split; [done|]. split; [|done].
    intros x Hx Hr. destruct (New3 x Hx) as [_ [y Hy]].
    specialize (Hfresh x Hr). congruence.
  - intros x [Hx|Hx]%elem_of_app.
    + destruct (New3 x Hx) as [Hn Hs]. split; [done|].
      destruct (decide (x = a)) as [->|Hne]; [by rewrite HA|].
      rewrite Hframe; [done| |done].
      intros Hr. specialize (Hfresh x Hr). destruct Hs. congruence.
    + split.
      * rewrite <- Old3; [by apply Hfresh|].
        intros Hin. destruct (New3 x Hin) as [_ [y Hy]].
        specialize (Hfresh x Hx). congruence.
      * apply list_elem_of_lookup in Hx as (j & Hj). rewrite (Hrow j x Hj). eauto.
  - intros x [Hx Hr]%not_elem_of_app.
    assert (x ≠ a).
    { intros ->. apply Hx. apply elem_of_app. right. by left. }
    rewrite Hframe by done. by apply Old3.
Qed.

(** X5. [init_parameters] followed by [free_parameters_contents] is a round
    trip on the heap: the array of pairs, every row, the array of row
    pointers and the two index arrays are released, and no other block is
    touched. *)
Theorem init_parameters_round_trip P s W s' :
  init_parameters P s = (Some W, s') →
  heap (free_parameters_contents W s') = heap s.
Proof.
  intros (f & a & rows & HF & HA & Hlen & Hrows & (ND & New & Old))%init_parameters_grows.
  unfold free_parameters_contents, free_parameter_rows. rewrite HF, HA.
  set (s1 := free (Some f) s').
  assert (Hfa : f ≠ a).
  { intros ->. apply NoDup_app in ND as (ND & _ & _).
    apply NoDup_app in ND as (_ & Hd & _). apply (Hd a); [|by left].
    apply elem_of_app. right. by left. }
  assert (HnA : a ∉ rows).
  { intros Hin. apply NoDup_app in ND as (_ & Hd & _). apply (Hd a); [|done].
    apply elem_of_app. right. by left. }
  destruct (free_rows_inv a (Some <$> rows) (w_m W) s1 rows) as (_ & _ & Hl).
  { unfold s1. rewrite free_lookup, decide_False by congruence. done. }
  { apply take_ge. rewrite length_fmap. lia. }
  { done. }
  { done. }
  unfold free_rows in Hl. set (s2 := fold_left _ _ s1) in *.
  apply map_eq. intros x.
  change (free (w_I_A W) (free (w_I_F W) (free (Some a) s2)))
    with (foldr free s2 [w_I_A W; w_I_F W; Some a]).
  rewrite frees_lookup, Hl. unfold s1. rewrite free_lookup.
  set (new := (((option_list (w_I_F W) ++ option_list (w_I_A W)) ++ [f]) ++ [a])
              ++ rows) in *.
  destruct (decide (x ∈ new)) as [Hin|Hout].
  - rewrite (proj1 (New x Hin)).
    destruct (decide (Some x ∈ [w_I_A W; w_I_F W; Some a])); [done|].
    destruct (decide (x ∈ rows)); [done|].
    destruct (decide (Some f = Some x)); [done|].
    exfalso. unfold new in Hin.
    rewrite !elem_of_app, !elem_of_ptr_list, !list_elem_of_singleton in Hin.
    destruct Hin as [[[[E|E]|E]|E]|E]; try done.
    + apply n. rewrite <- E. right. by left.
    + apply n. rewrite <- E. by left.
    + congruence.
    + apply n. subst x. do 2 right. by left.
  - rewrite <- (Old x Hout). unfold new in Hout.
    rewrite !not_elem_of_app, !elem_of_ptr_list, !list_elem_of_singleton in Hout.
    destruct Hout as [[[[H1 H2] H3] H4] H5].
    rewrite decide_False.
    + rewrite decide_False by done. rewrite decide_False; [done|congruence].
    + rewrite !elem_of_cons, elem_of_nil. intros [E|[E|[E|[]]]]; congruence.
Qed.

End Release.

Lemma init_indices_null_iff_none_learnable_witness :
  ∃ ix s',
    init_indices (program_small (Q2Qc 0)) (state_plan [true; false])
    = (Some ix, s')
    ∧ (i_F ix = None
       ↔ Forall (λ pf, pf_learnable pf = false) (PF (program_small (Q2Qc 0))))
    ∧ (i_A ix = None
       ↔ Forall (λ ad, ad_learnable ad = false) (AD (program_small (Q2Qc 0))))
    ∧ plan s'
      = drop (length (option_list (i_F ix) ++ option_list (i_A ix)))
          (plan (state_plan (D := Qc) [true; false]))
    ∧ heap_grows (heap (state_plan (D := Qc) [true; false])) (heap s')
        (option_list (i_F ix) ++ option_list (i_A ix))
    ∧ (∀ a, i_F ix = Some a →
         ∃ xs, heap s' !! a = Some (U16s xs) ∧ length xs = i_n ix ∧ 0 < i_n ix)
    ∧ (∀ a, i_A ix = Some a →
         ∃ xs, heap s' !! a = Some (U16s xs) ∧ length xs = i_m ix ∧ 0 < i_m ix).
Proof.
  eexists _, _. split; [vm_compute; reflexivity|].
  eapply (init_indices_null_iff_none_learnable (program_small (Q2Qc 0))
            (state_plan [true; false])).
  vm_compute. reflexivity.
Defined.

Lemma init_indices_in_range_witness :
  ∃ ix s',
    init_indices (program_small (Q2Qc 0)) (state_init ∅) = (Some ix, s')
    ∧ length (load_u16 (heap s') (i_F ix)) = i_n ix
    ∧ length (load_u16 (heap s') (i_A ix)) = i_m ix
    ∧ (∀ k, k < i_n ix →
         index_at (load_u16 (heap s') (i_F ix)) k
         < length (PF (program_small (Q2Qc 0))))
    ∧ (∀ k, k < i_m ix →
         index_at (load_u16 (heap s') (i_A ix)) k
         < length (AD (program_small (Q2Qc 0)))).
Proof.
  eexists _, _. split; [vm_compute; reflexivity|].
  eapply (init_indices_in_range (program_small (Q2Qc 0)) (state_init ∅)).
  vm_compute. reflexivity.
Defined.

Lemma init_indices_round_trip_witness :
  ∃ ix s',
    init_indices (program_rows (Q2Qc 0)) (state_init ∅) = (Some ix, s')
    ∧ heap (free_indices_contents ix s') = heap (state_init (D := Qc) ∅)
    ∧ same_world (state_init ∅) (free_indices_contents ix s').
Proof.
  eexists _, _. split; [vm_compute; reflexivity|].
  eapply (init_indices_round_trip (program_rows (Q2Qc 0)) (state_init ∅)).
  vm_compute. reflexivity.
Defined.

Lemma init_indices_failure_witness :
  ∃ s',
    init_indices (program_rows (Q2Qc 0)) (state_plan [true; false]) = (None, s')
    ∧ heap s' = heap (state_plan (D := Qc) [true; false])
    ∧ errs s' = errs (state_plan (D := Qc) [true; false])
                ++ [(PyExc_MemoryError,
                     "could not allocate memory in init_indices!"%string)]
    ∧ py s' = py (state_plan (D := Qc) [true; false])
    ∧ false ∈ plan (state_plan (D := Qc) [true; false])
    ∧ ¬ (Forall (λ pf, pf_learnable pf = false) (PF (program_rows (Q2Qc 0)))
         ∧ Forall (λ ad, ad_learnable ad = false) (AD (program_rows (Q2Qc 0)))).
Proof.
  eexists. split; [vm_compute; reflexivity|].
  eapply (init_indices_failure (program_rows (Q2Qc 0)) (state_plan [true; false])).
  vm_compute. reflexivity.
Defined.

Lemma init_parameters_round_trip_witness :
  ∃ W s',
    init_parameters (program_rows (Q2Qc 0)) (state_init ∅) = (Some W, s')
    ∧ heap (free_parameters_contents W s') = heap (state_init (D := Qc) ∅).
Proof.
  eexists _, _. split; [vm_compute; reflexivity|].
  eapply (init_parameters_round_trip (program_rows (Q2Qc 0)) (state_init ∅)).
  vm_compute. reflexivity.
Defined.

(** ** Further properties of the driver *)

Section Resources.
Context {D : Type} `{DoubleOps D}.
Variable observations_t : Type.
Variable O_n : observations_t → nat.
Variable init_observations : PyArrayObject → PyArrayObject → option observations_t.
Variable init_prob_storage_seq : program_t D → observations_t → nat.
Variable prob_obs_reuse :
  program_t D → observations_t → bool → option (list (prob_obs_storage_t D)).
Implicit Types (s : state D) (P : program_t D).

Local Abbreviation learn := (learn_fixpoint observations_t O_n init_observations
                               init_prob_storage_seq prob_obs_reuse).
Local Abbreviation iter := (iterate observations_t O_n prob_obs_reuse).

Lemma free_indices_contents_heap ix s t :
  heap s = heap t →
  heap (free_indices_contents ix s) = heap (free_indices_contents ix t).
Proof.
  intros E. unfold free_indices_contents.
  destruct (i_F ix), (i_A ix); simpl; by rewrite E.
Qed.

(** The label [cleanup]: the heap is that of [free_indices_contents], and
    one worker storage is released per round of the loop. *)
Lemma learn_cleanup_resources (k : nat) (ix : indices_t) P s :
  ∃ s', learn_cleanup k ix P s = (false, P, s')
        ∧ heap s' = heap (free_indices_contents ix s)
        ∧ workers s' = workers s - k.
Proof.
  unfold learn_cleanup. eexists. split; [done|].
  assert (Hfold : ∀ (ks : list nat) s0,
            let s1 := fold_left (λ s _, free_prob_storage_contents s) ks s0 in
            heap s1 = heap s0 ∧ workers s1 = workers s0 - length ks).
  { induction ks as [|j ks IH]; intros s0; simpl; [split; [done|lia]|].
    destruct (IH (free_prob_storage_contents s0)) as (-> & ->). simpl.
    split; [done|lia]. }
  destruct (Hfold (seq 0 k) s) as (Hh & Hw). rewrite length_seq in Hw.
  set (s1 := fold_left _ _ s) in *. split.
  - by apply free_indices_contents_heap.
  - unfold free_indices_contents.
    destruct (free_same_world (i_A ix) (free (i_F ix) s1)) as (_&_&->&_).
    destruct (free_same_world (i_F ix) s1) as (_&_&->&_). done.
Qed.

(** X6. Whenever [learn_fixpoint] returns [false], on whichever path, it has
    released what the call had set up: the heap is as before the call (the
    index arrays are freed) and the number of worker storages is as before
    the call. *)
Theorem learn_fixpoint_releases_on_failure P obs oc atoms niters ls s P' s' :
  learn_fixpoint observations_t O_n init_observations init_prob_storage_seq
    prob_obs_reuse P obs oc atoms niters ls s = (false, P', s') →
  heap s' = heap s ∧ workers s' = workers s.
Proof.
  unfold learn_fixpoint.
  destruct (bad_dimensions obs oc atoms).
  { destruct (learn_cleanup_resources 0 indices_zero P
                (PyErr_SetString PyExc_ValueError
                   "unexpected size dimension for obs, obs_counts and/or atoms in learn_fixpoint!" s))
      as (sc & -> & Hh & Hw). intros [= <- <-]. rewrite Hh, Hw. simpl.
    split; [done|lia]. }
  destruct (init_observations obs atoms) as [Ob|].
  2:{ destruct (learn_cleanup_resources 0 indices_zero P s) as (sc & -> & Hh & Hw).
      intros [= <- <-]. rewrite Hh, Hw. simpl. split; [done|lia]. }
  destruct (init_indices P s) as [[ix|] s1] eqn:Ei.
  2:{ destruct (learn_cleanup_resources 0 indices_zero P s1) as (sc & -> & Hh & Hw).
      intros [= <- <-]. rewrite Hh, Hw. simpl.
      apply init_indices_inv in Ei as (_ & Hh1 & _ & _ & Hw1 & _).
      split; [exact Hh1|lia]. }
  pose proof (init_indices_release P s ix s1 Ei) as Hrel.
  pose proof (init_indices_null P s ix s1 Ei) as [HnF HnA].
  pose proof Ei as (_ & (_ & _ & Hw1 & _) & _)%init_indices_inv.
  destruct (_ && _) eqn:E0.
  { intros [= <- <-]. simpl. split; [|done].
    apply andb_true_iff in E0 as [En%Nat.eqb_eq Em%Nat.eqb_eq].
    unfold free_indices_contents in Hrel.
    by rewrite (proj2 HnF En), (proj2 HnA Em) in Hrel. }
  set (np := init_prob_storage_seq P Ob).
  set (s2 := set_workers _ s1).
  assert (Hh2 : heap s2 = heap s1) by done.
  assert (Hrel2 : ∀ t, heap t = heap s2 → heap (free_indices_contents ix t) = heap s).
  { intros t Ht. rewrite (free_indices_contents_heap ix t s1); [done|congruence]. }
  destruct (np =? 0).
  { destruct (learn_cleanup_resources np ix P s2) as (sc & -> & Hh & Hw).
    intros [= <- <-]. rewrite Hh, Hw, Hrel2 by done. simpl. split; [done|lia]. }
  destruct (iter _ _ _ _ _ _ _ _ _ _ _) as [[bi P1] s3] eqn:Eit.
  apply iterate_inv in Eit as (Hh3 & _ & _ & _ & Hw3 & _).
  destruct bi.
  - destruct (update_program_parameters P1 ix s3) as [bu s4] eqn:Eu.
    apply update_program_parameters_frame in Eu as (Hh4 & Hw4 & _).
    destruct bu; [done|].
    destruct (learn_cleanup_resources np ix P1
                (PyErr_SetString PyExc_AttributeError
                   "could not update program parameters!" s4))
      as (sc & -> & Hh & Hw). intros [= <- <-]. rewrite Hh, Hw.
    rewrite Hrel2 by (cbn [heap PyErr_SetString]; congruence).
    cbn [workers PyErr_SetString]. rewrite Hw4, Hw3. simpl.
    split; [done|lia].
  - destruct (learn_cleanup_resources np ix P1 s3) as (sc & -> & Hh & Hw).
    intros [= <- <-]. rewrite Hh, Hw, Hrel2 by done. rewrite Hw3. simpl.
    split; [done|lia].
Qed.

(** X7. When [learn_fixpoint] returns [true] it has released nothing: the
    [return true] does not pass through the label [cleanup]. The heap is the
    one that [init_indices] produced, so that an index array allocated by
    the call, at an address that was free before it, is still allocated
    after it; and the worker storages set up by [init_prob_storage_seq], at
    least one, are still counted. *)
Theorem learn_fixpoint_success_keeps P obs oc atoms niters ls s P' s' :
  learn P obs oc atoms niters ls s = (true, P', s') →
  ∃ Ob ix s1,
    init_observations obs atoms = Some Ob
    ∧ init_indices P s = (Some ix, s1)
    ∧ heap s' = heap s1
    ∧ (∃ a, (i_F ix = Some a ∨ i_A ix = Some a)
            ∧ heap s !! a = None ∧ is_Some (heap s' !! a))
    ∧ workers s' = workers s + init_prob_storage_seq P Ob
    ∧ workers s < workers s'.
Proof.
  unfold learn_fixpoint, learn_cleanup.
  destruct (bad_dimensions obs oc atoms); [done|].
  destruct (init_observations obs atoms) as [Ob|]; [|done].
  destruct (init_indices P s) as [[ix|] s1] eqn:Ei; [|done].
  pose proof (init_indices_null P s ix s1 Ei) as [HnF HnA].
  pose proof Ei as (_ & (_ & _ & Hw1 & _) & _ & _ & _ & _ & (_ & New & _))%init_indices_inv.
  destruct (_ && _) eqn:E0; [done|].
  destruct (init_prob_storage_seq P Ob =? 0) eqn:Enp; [done|].
  apply Nat.eqb_neq in Enp.
  destruct (iter _ _ _ _ _ _ _ _ _ _ _) as [[[] P1] s3] eqn:Eit; [|done].
  apply iterate_inv in Eit as (Hh3 & _ & _ & _ & Hw3 & _).
  destruct (update_program_parameters P1 ix s3) as [[] s4] eqn:Eu; [|done].
  apply update_program_parameters_frame in Eu as (Hh4 & Hw4 & _).
  intros [= <- <-]. exists Ob, ix, s1. do 2 (split; [done|]).
  assert (Hh : heap s4 = heap s1) by (rewrite Hh4, Hh3; done).
  split; [done|]. split.
  - rewrite Hh. apply andb_false_iff in E0 as [En%Nat.eqb_neq|Em%Nat.eqb_neq].
    + destruct (i_F ix) as [a|] eqn:EF; [|by destruct En; apply HnF].
      exists a. split; [by left|]. apply New. apply elem_of_app. left. by left.
    + destruct (i_A ix) as [a|] eqn:EA; [|by destruct Em; apply HnA].
      exists a. split; [by right|]. apply New. apply elem_of_app. right. by left.
  - rewrite Hw4, Hw3. simpl. rewrite Hw1. split; lia.
Qed.

(** X8. When the loop of [learn_fixpoint] fails, it is because the solver
    failed at the head of some pass [k < niters]: the [k] passes before it
    were completed, the program is exactly as they left it (the failing pass
    has reset nothing), and the only trace of the failing pass is the solver
    call. *)
Theorem iterate_solver_failure Ob oc ls I_F I_A n m N (rem : nat) : ∀ P s P' s',
  iter Ob oc ls I_F I_A n m N rem P s = (false, P', s') →
  ∃ k s1, k < rem
    ∧ iter Ob oc ls I_F I_A n m N k P s = (true, P', s1)
    ∧ prob_obs_reuse P' Ob ls = None
    ∧ s' = log Solve s1
    ∧ trace s' = trace s ++ concat (replicate k pass_phases) ++ [Solve].
Proof.
  induction rem as [|rem IH]; intros P s P' s'; [done|]. cbn [iterate].
  destruct (prob_obs_reuse P Ob ls) as [Q0|] eqn:EQ.
  - intros (k & s1 & Hk & Hit & Hnone & -> & Htr)%IH.
    exists (S k), s1. split; [lia|]. cbn [iterate]. rewrite EQ.
    do 3 (split; [done|]). rewrite Htr. simpl. by rewrite <- !app_assoc.
  - intros [= <- <-]. exists 0, s. split; [lia|]. do 3 (split; [done|]).
    simpl. done.
Qed.

(** X9. The loop composes: [a + b] passes are [a] passes followed, when they
    succeed, by [b] passes on the program and the state they produced; when
    the first [a] passes fail, nothing more is run. *)
Theorem iterate_compose Ob oc ls I_F I_A n m N (a b : nat) : ∀ P s,
  iterate observations_t O_n prob_obs_reuse Ob oc ls I_F I_A n m N (a + b) P s
  = match iterate observations_t O_n prob_obs_reuse Ob oc ls I_F I_A n m N a P s with
    | (true, P1, s1) =>
        iterate observations_t O_n prob_obs_reuse Ob oc ls I_F I_A n m N b P1 s1
    | (false, P1, s1) => (false, P1, s1)
    end.
Proof.
  induction a as [|a IH]; intros P s; [done|]. cbn [Nat.add iterate].
  destruct (prob_obs_reuse P Ob ls) as [Q0|]; [|done]. apply IH.
Qed.

(** X10. Whatever the size of the program, and however the call ends,
    [learn_fixpoint] changes nothing but probabilities: the program keeps
    its numbers of facts and of disjunctions, and every entry keeps its
    learnable flag, its Python handle and its number of outcomes. *)
Theorem learn_fixpoint_same_shape P obs oc atoms niters ls s b P' s' :
  learn P obs oc atoms niters ls s = (b, P', s') →
  same_shape P P'
  ∧ length (PF P') = length (PF P) ∧ length (AD P') = length (AD P).
Proof.
  assert (G : same_shape P P' →
              same_shape P P'
              ∧ length (PF P') = length (PF P) ∧ length (AD P') = length (AD P)).
  { intros HS. split; [done|]. destruct HS as [HF HA].
    by rewrite (Forall2_length _ _ _ HF), (Forall2_length _ _ _ HA). }
  intros [(_ & -> & _)|(Ob & ix & s1 & s2 & bi & s3 & _ & _ & _ & Hit & _)]%learn_fixpoint_inv;
    apply G; [apply same_shape_refl|].
  eapply iterate_frame in Hit as (HS & _); [done|apply same_shape_refl].
Qed.

End Resources.

Lemma learn_fixpoint_releases_on_failure_witness :
  ∃ P' s',
    run_pair = (false, P', s')
    ∧ heap s' = heap (state_init (py_pair half false))
    ∧ workers s' = workers (state_init (py_pair half false)).
Proof.
  eexists _, _. split; [vm_compute; reflexivity|].
  eapply (learn_fixpoint_releases_on_failure nat (λ n, n) observe one_worker
            (solver_fixed (scenario_pair (Q2Qc 1) (Q2Qc (9 # 10)) (Q2Qc (1 # 10))))
            (program_pair half) obs_2x1 counts_3_1 atoms_1 1 false
            (state_init (py_pair half false))).
  vm_compute. reflexivity.
Defined.

Lemma learn_fixpoint_success_keeps_witness :
  ∃ P' s',
    learn_with scenario_Qc (program_one half) obs_2x1 counts_3_1 atoms_1 1 false
      (state_init (py_one half)) = (true, P', s')
    ∧ ∃ Ob ix s1,
        observe obs_2x1 atoms_1 = Some Ob
        ∧ init_indices (program_one half) (state_init (py_one half)) = (Some ix, s1)
        ∧ heap s' = heap s1
        ∧ (∃ a, (i_F ix = Some a ∨ i_A ix = Some a)
                ∧ heap (state_init (py_one half)) !! a = None
                ∧ is_Some (heap s' !! a))
        ∧ workers s'
          = workers (state_init (py_one half)) + one_worker (program_one half) Ob
        ∧ workers (state_init (py_one half)) < workers s'.
Proof.
  eexists _, _. split; [vm_compute; reflexivity|].
  eapply (learn_fixpoint_success_keeps nat (λ n, n) observe one_worker
            (solver_fixed scenario_Qc) (program_one half) obs_2x1 counts_3_1
            atoms_1 1 false (state_init (py_one half))).
  vm_compute. reflexivity.
Defined.

Lemma iterate_solver_failure_witness :
  ∃ P' s',
    iterate nat (λ n, n) (solver_while_half scenario_Qc) 2 counts_3_1 false
      [0%Z] [] 1 0 4 3 (program_one half) (state_init ∅) = (false, P', s')
    ∧ ∃ k s1,
        k < 3
        ∧ iterate nat (λ n, n) (solver_while_half scenario_Qc) 2 counts_3_1 false
            [0%Z] [] 1 0 4 k (program_one half) (state_init ∅) = (true, P', s1)
        ∧ solver_while_half scenario_Qc P' 2 false = None
        ∧ s' = log Solve s1
        ∧ trace s' = trace (state_init (D := Qc) ∅)
                     ++ concat (replicate k pass_phases) ++ [Solve].
Proof.
  eexists _, _. split; [vm_compute; reflexivity|].
  eapply (iterate_solver_failure nat (λ n, n) (solver_while_half scenario_Qc)
            2 counts_3_1 false [0%Z] [] 1 0 4 3 (program_one half) (state_init ∅)).
  vm_compute. reflexivity.
Defined.

Lemma learn_fixpoint_same_shape_witness :
  ∃ b P' s',
    run_mixed = (b, P', s')
    ∧ same_shape (program_mixed half) P'
    ∧ length (PF P') = length (PF (program_mixed half))
    ∧ length (AD P') = length (AD (program_mixed half)).
Proof.
  eexists _, _, _. split; [vm_compute; reflexivity|].
  eapply (learn_fixpoint_same_shape nat (λ n, n) observe one_worker
            (solver_fixed scenario_Qc) (program_mixed half) obs_2x1 counts_3_1
            atoms_1 1 false (state_init (py_pair half true))).
  vm_compute. reflexivity.
Defined.

(** ** Further properties of a pass *)

Section PassProperties.
Context {D : Type} `{DoubleOps D}.
Implicit Types (P : program_t D).

Lemma program_eq P Q : PF P = PF Q → AD P = AD Q → P = Q.
Proof. destruct P, Q. simpl. by intros -> ->. Qed.

Lemma imap_const_length {A B} (c : B) (l1 l2 : list A) :
  length l1 = length l2 →
  imap (λ _ _, c) l1 = imap (λ _ _, c) l2.
Proof.
  intros Hlen. apply list_eq. intros j. rewrite !list_lookup_imap.
  destruct (l1 !! j) as [x|] eqn:E1.
  - destruct (lookup_lt_is_Some_2 l2 j) as [y ->]; [|done].
    apply lookup_lt_Some in E1. lia.
  - apply lookup_ge_None in E1. rewrite (lookup_ge_None_2 l2) by lia. done.
Qed.

Section Forget.
Variables (I_F I_A : list Z) (n m : nat).
Hypothesis HndF : NoDup (index_at I_F <$> seq 0 n).
Hypothesis HndA : NoDup (index_at I_A <$> seq 0 m).

Lemma reset_forgets P1 P2 :
  same_shape P1 P2 →
  (∀ t, t ∉ index_at I_F <$> seq 0 n → PF P1 !! t = PF P2 !! t) →
  (∀ t, t ∉ index_at I_A <$> seq 0 m → AD P1 !! t = AD P2 !! t) →
  reset I_F I_A n m P1 = reset I_F I_A n m P2.
Proof.
  intros [ShF ShA] HF HA. unfold reset. apply program_eq.
  - rewrite !for_disjs_PF. apply list_eq. intros t.
    destruct (decide (t ∈ index_at I_F <$> seq 0 n)) as [Hin|Hout].
    + apply list_elem_of_fmap in Hin as (k & -> & Hk%elem_of_seq).
      rewrite !for_facts_hit by (done || lia).
      destruct (PF P1 !! index_at I_F k) as [x|] eqn:E1.
      * destruct (Forall2_lookup_l _ _ _ _ _ ShF E1) as (y & -> & Hl & Hs).
        simpl. f_equal. unfold map_pf_p. by rewrite Hl, Hs.
      * apply lookup_ge_None in E1. rewrite (Forall2_length _ _ _ ShF) in E1.
        by rewrite (lookup_ge_None_2 (PF P2)).
    + rewrite !for_facts_other by done. by apply HF.
  - apply list_eq. intros t.
    destruct (decide (t ∈ index_at I_A <$> seq 0 m)) as [Hin|Hout].
    + apply list_elem_of_fmap in Hin as (k & -> & Hk%elem_of_seq).
      rewrite !for_disjs_hit, !for_facts_AD by (done || lia).
      destruct (AD P1 !! index_at I_A k) as [x|] eqn:E1.
      * destruct (Forall2_lookup_l _ _ _ _ _ ShA E1) as (y & -> & Hl & Hs & Hn).
        simpl. f_equal. apply ad_eq; [|done..]. rewrite !map_ad_P_imap.
        apply imap_const_length. unfold ad_n in Hn. done.
      * apply lookup_ge_None in E1. rewrite (Forall2_length _ _ _ ShA) in E1.
        by rewrite (lookup_ge_None_2 (AD P2)).
    + rewrite !for_disjs_other, !for_facts_AD by done. by apply HA.
Qed.

End Forget.

(** X11. A pass does not depend on the current values of the learnable
    parameters: for index arrays without repetition, two programs that
    differ only in the probabilities of the entries named by the index
    arrays are taken to the same program by a pass on the same solver
    output. The reset at the head of the pass erases whatever was there. *)
Theorem pass_forgets (I_F I_A : list Z) (n m : nat) Q0 oc On N P1 P2 :
  NoDup (index_at I_F <$> seq 0 n) →
  NoDup (index_at I_A <$> seq 0 m) →
  same_shape P1 P2 →
  (∀ t, t ∉ index_at I_F <$> seq 0 n → PF P1 !! t = PF P2 !! t) →
  (∀ t, t ∉ index_at I_A <$> seq 0 m → AD P1 !! t = AD P2 !! t) →
  pass I_F I_A n m Q0 oc On N P1 = pass I_F I_A n m Q0 oc On N P2.
Proof.
  intros HndF HndA HS HF HA. unfold pass.
  by rewrite (reset_forgets I_F I_A n m HndF HndA P1 P2).
Qed.

(** X12. The learning rule for the disjunctions: for a program of at most
    65536 facts and at most 65536 disjunctions and the index arrays that
    [init_indices] has built for it, a pass sets outcome [j] of every
    learnable disjunction, found at position [k] of the index array, to the
    sum over the observations [o] of [c_o * (P(t=j,O) / P(O))] divided by
    [N], and keeps the flag, the handle and the number of outcomes. *)
Theorem pass_disjunction_rule P (s : state D) ix s' Q0 oc On N t ad :
  (Z.of_nat (length (PF P)) ≤ 65536)%Z →
  (Z.of_nat (length (AD P)) ≤ 65536)%Z →
  init_indices P s = (Some ix, s') →
  AD P !! t = Some ad →
  ad_learnable ad = true →
  ∃ k ad',
    k < i_m ix
    ∧ load_u16 (heap s') (i_A ix) !! k = Some (Z.of_nat t)
    ∧ AD (pass (load_u16 (heap s') (i_F ix)) (load_u16 (heap s') (i_A ix))
            (i_n ix) (i_m ix) Q0 oc On N P) !! t = Some ad'
    ∧ ad_learnable ad' = true ∧ ad_self ad' = ad_self ad
    ∧ length (ad_P ad') = length (ad_P ad)
    ∧ ∀ j, j < length (ad_P ad) →
           ad_P ad' !! j
           = Some (ddiv (outcome_acc Q0 oc On k j d0) (d_of_size N)).
Proof.
  intros HlenF HlenA Ei Ht Hl.
  destruct (init_indices_built P s ix s' HlenF HlenA Ei) as [_ SA].
  destruct (index_set_position _ _ _ _ SA t ad Ht Hl) as (k & Hk & Hik & Hat).
  exists k. eexists. split; [done|]. split; [done|]. split.
  { rewrite <- Hat at 1. rewrite pass_disj; [|by eapply index_set_at_NoDup|done].
    rewrite Hat, Ht. reflexivity. }
  cbn [map_ad_P ad_learnable ad_self]. do 2 (split; [done|]).
  rewrite map_ad_P_imap. split; [by rewrite length_imap|].
  intros j Hj. rewrite list_lookup_imap.
  destruct (lookup_lt_is_Some_2 (ad_P ad) j Hj) as [x ->]. done.
Qed.

End PassProperties.

Lemma pass_forgets_witness :
  pass [0%Z] [] 1 0 scenario_Qc counts_3_1 2 4 (program_one half)
  = pass [0%Z] [] 1 0 scenario_Qc counts_3_1 2 4 (program_one (Q2Qc (1 # 3))).
Proof.
  apply (pass_forgets [0%Z] [] 1 0 scenario_Qc counts_3_1 2 4).
  - compute_done.
  - compute_done.
  - split; repeat constructor.
  - intros [|t] Ht; [|reflexivity]. destruct Ht. compute_done.
  - intros t _. reflexivity.
Defined.

Lemma pass_disjunction_rule_witness :
  ∃ ix s',
    init_indices (program_disj half) (state_init ∅) = (Some ix, s')
    ∧ ∃ k ad',
        k < i_m ix
        ∧ load_u16 (heap s') (i_A ix) !! k = Some (Z.of_nat 0)
        ∧ AD (pass (load_u16 (heap s') (i_F ix)) (load_u16 (heap s') (i_A ix))
                (i_n ix) (i_m ix) scenario_disj counts_3_1 2 4
                (program_disj half)) !! 0 = Some ad'
        ∧ ad_learnable ad' = true
        ∧ ad_self ad' = ad_self (disj [half; half] true 1%positive)
        ∧ length (ad_P ad') = length (ad_P (disj [half; half] true 1%positive))
        ∧ ∀ j, j < length (ad_P (disj [half; half] true 1%positive)) →
               ad_P ad' !! j
               = Some (ddiv (outcome_acc scenario_disj counts_3_1 2 k j d0)
                         (d_of_size 4)).
Proof.
  eexists _, _. split; [vm_compute; reflexivity|].
  eapply (pass_disjunction_rule (program_disj half) (state_init ∅) _ _
            scenario_disj counts_3_1 2 4 0 (disj [half; half] true 1%positive));
    [vm_compute; discriminate | vm_compute; discriminate
    | vm_compute; reflexivity | reflexivity | reflexivity].
Defined.

(** ** Further properties of the publish-back adapter *)

Section Publish.
Context {D : Type} `{DoubleOps D}.
Implicit Types (s : state D) (P : program_t D).

Lemma publish_facts_errs P I_F rem : ∀ i s s',
  publish_facts P I_F i rem s = (true, s') → errs s' = errs s.
Proof.
  induction rem as [|rem IH]; intros i s s'; simpl; [by intros [= <-]|].
  unfold PyFloat_FromDouble.
  destruct (next_alloc s) as [[] s1] eqn:E1; [|done].
  apply next_alloc_frame in E1 as (_&_&_&_&He1).
  unfold PyObject_SetAttrString_p.
  destruct (py s1 !! _) as [o|]; [destruct (py_p_settable o)|]; [|done..].
  intros ->%IH. done.
Qed.

Lemma publish_outcomes_errs ad rem : ∀ j s s',
  publish_outcomes ad j rem s = (true, s') → errs s' = errs s.
Proof.
  induction rem as [|rem IH]; intros j s s'; simpl; [by intros [= <-]|].
  unfold PyFloat_FromDouble.
  destruct (next_alloc s) as [[] s1] eqn:E1; [|done].
  apply next_alloc_frame in E1 as (_&_&_&_&He1).
  unfold PyList_SetItem.
  destruct (py s1 !! _) as [o|]; [destruct (py_P o) as [l|]|];
    [destruct (j <? length l)|..]; [|done..].
  intros ->%IH. done.
Qed.

Lemma publish_disjs_errs P I_A rem : ∀ i s s',
  publish_disjs P I_A i rem s = (true, s') → errs s' = errs s.
Proof.
  induction rem as [|rem IH]; intros i s s'; simpl; [by intros [= <-]|].
  destruct (PyObject_GetAttrString_P _ s); [|done].
  destruct (publish_outcomes _ 0 _ s) as [[] s1] eqn:E1; [|done].
  apply publish_outcomes_errs in E1. intros ->%IH. done.
Qed.

Lemma update_program_parameters_errs P ix s s' :
  update_program_parameters P ix s = (true, s') → errs s' = errs s.
Proof.
  unfold update_program_parameters.
  destruct (publish_facts _ _ 0 _ s) as [[] s1] eqn:E1; [|done].
  apply publish_facts_errs in E1. intros Eu%publish_disjs_errs. congruence.
Qed.

(** X13. When [update_program_parameters] returns [true], every write that
    publishes the program has been applied to the Python objects, in the
    order of the two loops, no error has been raised, and the heap is
    untouched. *)
Theorem update_program_parameters_publishes_all P ix s s' :
  update_program_parameters P ix s = (true, s') →
  py s' = fold_left apply_write
            (publish_writes P (load_u16 (heap s) (i_F ix))
               (load_u16 (heap s) (i_A ix)) (i_n ix) (i_m ix)) (py s)
  ∧ errs s' = errs s
  ∧ heap s' = heap s.
Proof.
  intros Eu. split; [|split].
  - apply update_program_parameters_writes in Eu as (ws & _ & -> & Hall).
    by rewrite (Hall eq_refl).
  - by apply update_program_parameters_errs in Eu.
  - by apply update_program_parameters_frame in Eu as (? & _).
Qed.

Lemma publish_facts_errs_fail P I_F rem : ∀ i s s',
  publish_facts P I_F i rem s = (false, s') →
  ∃ e, e ∈ [float_error; (PyExc_AttributeError, "could not update PF.p!"%string)]
       ∧ errs s' = errs s ++ [e].
Proof.
  induction rem as [|rem IH]; intros i s s'; simpl; [done|].
  unfold PyFloat_FromDouble.
  destruct (next_alloc s) as [[] s1] eqn:E1;
    apply next_alloc_frame in E1 as (_&_&_&_&He1).
  2:{ intros [= <-]. exists float_error. split; [by left|]. simpl. by rewrite He1. }
  unfold PyObject_SetAttrString_p.
  destruct (py s1 !! _) as [o|]; [destruct (py_p_settable o)|].
  - intros (e & He & ->)%IH. exists e. split; [done|]. simpl. by rewrite He1.
  - intros [= <-]. eexists. split; [right; by left|]. simpl. by rewrite He1.
  - intros [= <-]. eexists. split; [right; by left|]. simpl. by rewrite He1.
Qed.

Lemma publish_outcomes_errs_fail ad rem : ∀ j s s',
  publish_outcomes ad j rem s = (false, s') →
  errs s' = errs s ∨ errs s' = errs s ++ [float_error].
Proof.
  induction rem as [|rem IH]; intros j s s'; simpl; [done|].
  unfold PyFloat_FromDouble.
  destruct (next_alloc s) as [[] s1] eqn:E1;
    apply next_alloc_frame in E1 as (_&_&_&_&He1).
  2:{ intros [= <-]. right. simpl. by rewrite He1. }
  unfold PyList_SetItem.
  destruct (py s1 !! _) as [o|]; [destruct (py_P o) as [l|]|];
    [destruct (j <? length l)|..]; try (intros [= <-]; by left).
  intros [->| ->]%IH; [left|right]; simpl; by rewrite He1.
Qed.

Lemma publish_disjs_errs_fail P I_A rem : ∀ i s s',
  publish_disjs P I_A i rem s = (false, s') →
  errs s' = errs s
  ∨ ∃ e, e ∈ [float_error;
              (PyExc_AttributeError, "could not retrieve AD.P!"%string)]
         ∧ errs s' = errs s ++ [e].
Proof.
  induction rem as [|rem IH]; intros i s s'; simpl; [done|].
  destruct (PyObject_GetAttrString_P _ s).
  2:{ intros [= <-]. right. eexists. split; [right; by left|done]. }
  destruct (publish_outcomes _ 0 _ s) as [[] s1] eqn:E1.
  - apply publish_outcomes_errs in E1. rewrite <- E1. apply IH.
  - apply publish_outcomes_errs_fail in E1. intros [= <-].
    destruct E1 as [->| ->]; [by left|]. right. eexists. split; [by left|done].
Qed.

(** X14. When [update_program_parameters] returns [false] it has raised at
    most one error: either exactly one of its own three (the TypeError of
    [PyFloat_FromDouble], the AttributeError of [PF.p], the AttributeError
    of [AD.P]), or none at all, which is the case of a refused
    [PyList_SetItem], after which the function returns without a call of
    [PyErr_SetString]. *)
Theorem update_program_parameters_failure P ix s s' :
  update_program_parameters P ix s = (false, s') →
  errs s' = errs s
  ∨ ∃ e, e ∈ [float_error;
              (PyExc_AttributeError, "could not update PF.p!"%string);
              (PyExc_AttributeError, "could not retrieve AD.P!"%string)]
         ∧ errs s' = errs s ++ [e].
Proof.
  unfold update_program_parameters.
  destruct (publish_facts _ _ 0 _ s) as [[] s1] eqn:E1.
  - apply publish_facts_errs in E1. rewrite <- E1.
    intros [->|(e & He & ->)]%publish_disjs_errs_fail; [by left|].
    right. exists e. split; [|done].
    apply elem_of_cons in He as [->|He]; [by left|].
    apply list_elem_of_singleton in He as ->. do 2 right. by left.
  - apply publish_facts_errs_fail in E1 as (e & He & Hs'). intros [= <-].
    right. exists e. split; [|done].
    apply elem_of_cons in He as [->|He]; [by left|].
    apply list_elem_of_singleton in He as ->. right. by left.
Qed.

Lemma py_keeps_refl (o : gmap handle (py_obj D)) : py_keeps o o.
Proof. intros h ob Hob. exists ob. split; [done|]. split; [done|]. eauto. Qed.

Lemma py_keeps_trans (o1 o2 o3 : gmap handle (py_obj D)) :
  py_keeps o1 o2 → py_keeps o2 o3 → py_keeps o1 o3.
Proof.
  intros H12 H23 h ob Hob.
  destruct (H12 h ob Hob) as (ob2 & Hob2 & Hs2 & Hl2).
  destruct (H23 h ob2 Hob2) as (ob3 & Hob3 & Hs3 & Hl3).
  exists ob3. split; [done|]. split; [auto|].
  intros l Hl. destruct (Hl2 l Hl) as (l2 & Hl2' & Hlen2).
  destruct (Hl3 l2 Hl2') as (l3 & Hl3' & Hlen3). exists l3. split; [done|lia].
Qed.

Lemma next_alloc_ok s :
  false ∉ plan s →
  ∃ s1, next_alloc s = (true, s1) ∧ py s1 = py s ∧ false ∉ plan s1.
Proof.
  unfold next_alloc. intros Hpl. destruct (plan s) as [|[] pl] eqn:E.
  - exists s. by rewrite E.
  - eexists. split; [done|]. split; [done|]. simpl. intros Hin. apply Hpl. by right.
  - destruct Hpl. by left.
Qed.

Lemma PyObject_SetAttrString_p_ok h v s ob :
  py s !! h = Some ob → py_p_settable ob = true →
  ∃ s1, PyObject_SetAttrString_p h v s = (true, s1)
        ∧ py_keeps (py s) (py s1) ∧ plan s1 = plan s.
Proof.
  intros Hob Hset. unfold PyObject_SetAttrString_p. rewrite Hob, Hset.
  eexists. split; [done|]. split; [|done]. simpl. intros h' ob' Hob'.
  destruct (decide (h' = h)) as [->|Hne].
  - rewrite lookup_insert_eq. eexists. split; [done|]. simpl.
    assert (ob' = ob) as -> by congruence. split; [done|]. eauto.
  - rewrite lookup_insert_ne by done. by apply py_keeps_refl.
Qed.

Lemma PyList_SetItem_ok h j v s ob l :
  py s !! h = Some ob → py_P ob = Some l → j < length l →
  ∃ s1, PyList_SetItem h j v s = (true, s1)
        ∧ py_keeps (py s) (py s1) ∧ plan s1 = plan s.
Proof.
  intros Hob Hl Hj. unfold PyList_SetItem. rewrite Hob, Hl.
  rewrite (proj2 (Nat.ltb_lt _ _) Hj).
  eexists. split; [done|]. split; [|done]. simpl. intros h' ob' Hob'.
  destruct (decide (h' = h)) as [->|Hne].
  - rewrite lookup_insert_eq. eexists. split; [done|]. simpl.
    assert (ob' = ob) as -> by congruence. split; [done|].
    intros l0 Hl0. exists (<[j:=v]> l). split; [done|].
    rewrite length_insert. congruence.
  - rewrite lookup_insert_ne by done. by apply py_keeps_refl.
Qed.

Lemma publish_facts_ready P I_F rem : ∀ i s,
  false ∉ plan s →
  (∀ k, i ≤ k < i + rem →
     ∃ ob, py s !! pf_self (default pf_nil (PF P !! index_at I_F k)) = Some ob
           ∧ py_p_settable ob = true) →
  ∃ s', publish_facts P I_F i rem s = (true, s')
        ∧ py_keeps (py s) (py s') ∧ false ∉ plan s'.
Proof.
  induction rem as [|rem IH]; intros i s Hpl Hr; simpl.
  { exists s. split; [done|]. split; [apply py_keeps_refl|done]. }
  unfold PyFloat_FromDouble.
  destruct (next_alloc_ok s Hpl) as (s1 & -> & Hpy1 & Hpl1).
  destruct (Hr i) as (ob & Hob & Hset); [lia|]. rewrite <- Hpy1 in Hob.
  destruct (PyObject_SetAttrString_p_ok _
              (pf_p (default pf_nil (PF P !! index_at I_F i))) s1 ob Hob Hset)
    as (s2 & -> & Hk2 & Hpl2).
  destruct (IH (S i) s2) as (s' & -> & Hk & Hpl').
  - by rewrite Hpl2.
  - intros k Hk. destruct (Hr k) as (ob' & Hob' & Hset'); [lia|].
    rewrite <- Hpy1 in Hob'.
    destruct (Hk2 _ _ Hob') as (ob2 & Hob2 & Hs2 & _). eauto.
  - exists s'. split; [done|]. split; [|done].
    rewrite <- Hpy1. by eapply py_keeps_trans.
Qed.

Lemma publish_outcomes_ready ad rem : ∀ j s ob l,
  false ∉ plan s →
  py s !! ad_self ad = Some ob → py_P ob = Some l → j + rem ≤ length l →
  ∃ s', publish_outcomes ad j rem s = (true, s')
        ∧ py_keeps (py s) (py s') ∧ false ∉ plan s'.
Proof.
  induction rem as [|rem IH]; intros j s ob l Hpl Hob Hl Hlen; simpl.
  { exists s. split; [done|]. split; [apply py_keeps_refl|done]. }
  unfold PyFloat_FromDouble.
  destruct (next_alloc_ok s Hpl) as (s1 & -> & Hpy1 & Hpl1).
  rewrite <- Hpy1 in Hob.
  destruct (PyList_SetItem_ok (ad_self ad) j (default d0 (ad_P ad !! j)) s1 ob l
              Hob Hl) as (s2 & -> & Hk2 & Hpl2); [lia|].
  destruct (Hk2 _ _ Hob) as (ob2 & Hob2 & _ & Hl2).
  destruct (Hl2 l Hl) as (l2 & Hl2' & Hlen2).
  destruct (IH (S j) s2 ob2 l2) as (s' & -> & Hk & Hpl'); [by rewrite Hpl2|done..|lia|].
  exists s'. split; [done|]. split; [|done].
  rewrite <- Hpy1. by eapply py_keeps_trans.
Qed.

Lemma publish_disjs_ready P I_A rem : ∀ i s,
  false ∉ plan s →
  (∀ k, i ≤ k < i + rem →
     ∃ ob l, py s !! ad_self (default ad_nil (AD P !! index_at I_A k)) = Some ob
             ∧ py_P ob = Some l
             ∧ ad_n (default ad_nil (AD P !! index_at I_A k)) ≤ length l) →
  ∃ s', publish_disjs P I_A i rem s = (true, s')
        ∧ py_keeps (py s) (py s') ∧ false ∉ plan s'.
Proof.
  induction rem as [|rem IH]; intros i s Hpl Hr; simpl.
  { exists s. split; [done|]. split; [apply py_keeps_refl|done]. }
  destruct (Hr i) as (ob & l & Hob & Hl & Hlen); [lia|].
  unfold PyObject_GetAttrString_P. rewrite Hob, Hl.
  destruct (publish_outcomes_ready (default ad_nil (AD P !! index_at I_A i))
              (ad_n (default ad_nil (AD P !! index_at I_A i))) 0 s ob l)
    as (s1 & -> & Hk1 & Hpl1); [done..|].
  destruct (IH (S i) s1) as (s' & -> & Hk & Hpl'); [done| |].
  - intros k Hk. destruct (Hr k) as (ob' & l' & Hob' & Hl' & Hlen'); [lia|].
    destruct (Hk1 _ _ Hob') as (ob2 & Hob2 & _ & Hl2).
    destruct (Hl2 l' Hl') as (l2 & Hl2' & Hlen2).
    exists ob2, l2. split; [done|]. split; [done|lia].
  - exists s'. split; [done|]. split; [|done]. by eapply py_keeps_trans.
Qed.

Lemma update_program_parameters_ready P ix s :
  false ∉ plan s →
  py_ready P (load_u16 (heap s) (i_F ix)) (load_u16 (heap s) (i_A ix))
    (i_n ix) (i_m ix) (py s) →
  ∃ s', update_program_parameters P ix s = (true, s')
        ∧ py_keeps (py s) (py s') ∧ false ∉ plan s'.
Proof.
  intros Hpl [HF HA]. unfold update_program_parameters.
  destruct (publish_facts_ready P (load_u16 (heap s) (i_F ix)) (i_n ix) 0 s Hpl)
    as (s1 & E1 & Hk1 & Hpl1).
  { intros k Hk. apply HF. lia. }
  rewrite E1. apply publish_facts_frame in E1 as (Hh1 & _). rewrite Hh1.
  destruct (publish_disjs_ready P (load_u16 (heap s) (i_A ix)) (i_m ix) 0 s1 Hpl1)
    as (s' & -> & Hk & Hpl').
  { intros k Hk. destruct (HA k) as (ob & l & Hob & Hl & Hlen); [lia|].
    destruct (Hk1 _ _ Hob) as (ob2 & Hob2 & _ & Hl2).
    destruct (Hl2 l Hl) as (l2 & Hl2' & Hlen2).
    exists ob2, l2. split; [done|]. split; [done|lia]. }
  exists s'. split; [done|]. split; [|done]. by eapply py_keeps_trans.
Qed.

(** X15. [update_program_parameters] succeeds whenever no allocation fails
    and the Python side is ready: the object of every fact named by the
    index array lets its attribute [p] be set, and the object of every
    disjunction named by the index array has a list [P] at least as long as
    the disjunction has outcomes. The objects are still ready afterwards. *)
Theorem update_program_parameters_succeeds P ix s :
  false ∉ plan s →
  py_ready P (load_u16 (heap s) (i_F ix)) (load_u16 (heap s) (i_A ix))
    (i_n ix) (i_m ix) (py s) →
  ∃ s', update_program_parameters P ix s = (true, s')
        ∧ py_ready P (load_u16 (heap s') (i_F ix)) (load_u16 (heap s') (i_A ix))
            (i_n ix) (i_m ix) (py s').
Proof.
  intros Hpl Hr.
  destruct (update_program_parameters_ready P ix s Hpl Hr) as (s' & Eu & Hk & _).
  exists s'. split; [done|].
  apply update_program_parameters_frame in Eu as (-> & _).
  destruct Hr as [HF HA]. split.
  - intros i Hi. destruct (HF i Hi) as (ob & Hob & Hset).
    destruct (Hk _ _ Hob) as (ob' & Hob' & Hs' & _). eauto.
  - intros i Hi. destruct (HA i Hi) as (ob & l & Hob & Hl & Hlen).
    destruct (Hk _ _ Hob) as (ob' & Hob' & _ & Hl').
    destruct (Hl' l Hl) as (l' & Hl2 & Hlen2).
    exists ob', l'. split; [done|]. split; [done|lia].
Qed.

End Publish.

Lemma update_program_parameters_publishes_all_witness :
  ∃ ix s1 s',
    init_indices (program_one half) (state_init (py_one half)) = (Some ix, s1)
    ∧ update_program_parameters (program_one half) ix s1 = (true, s')
    ∧ py s' = fold_left apply_write
                (publish_writes (program_one half) (load_u16 (heap s1) (i_F ix))
                   (load_u16 (heap s1) (i_A ix)) (i_n ix) (i_m ix)) (py s1)
    ∧ errs s' = errs s1
    ∧ heap s' = heap s1.
Proof.
  eexists _, _, _. split; [vm_compute; reflexivity|].
  split; [vm_compute; reflexivity|].
  eapply (update_program_parameters_publishes_all (program_one half)).
  vm_compute. reflexivity.
Defined.

Lemma update_program_parameters_failure_witness :
  init_indices (program_pair half) (state_init (py_pair half false))
  = (Some indices_pair, state_pair false)
  ∧ ∃ s',
      update_program_parameters (program_pair half) indices_pair
        (state_pair false) = (false, s')
      ∧ (errs s' = errs (state_pair false)
         ∨ ∃ e, e ∈ [float_error;
                     (PyExc_AttributeError, "could not update PF.p!"%string);
                     (PyExc_AttributeError, "could not retrieve AD.P!"%string)]
                ∧ errs s' = errs (state_pair false) ++ [e]).
Proof.
  split; [vm_compute; reflexivity|].
  eexists. split; [vm_compute; reflexivity|].
  eapply (update_program_parameters_failure (program_pair half) indices_pair
            (state_pair false)).
  vm_compute. reflexivity.
Defined.

Lemma update_program_parameters_succeeds_witness :
  ∃ ix s1,
    init_indices (program_one half) (state_init (py_one half)) = (Some ix, s1)
    ∧ ∃ s', update_program_parameters (program_one half) ix s1 = (true, s')
            ∧ py_ready (program_one half) (load_u16 (heap s') (i_F ix))
                (load_u16 (heap s') (i_A ix)) (i_n ix) (i_m ix) (py s').
Proof.
  eexists _, _. split; [vm_compute; reflexivity|].
  apply (update_program_parameters_succeeds (program_one half)).
  - simpl. apply not_elem_of_nil.
  - split.
    + intros [|i] Hi; [|simpl in Hi; lia].
      eexists. split; [vm_compute; reflexivity|reflexivity].
    + intros i Hi. simpl in Hi. lia.
Defined.

(** ** A sufficient condition for success *)

Section Success.
Context {D : Type} `{DoubleOps D}.
Variable observations_t : Type.
Variable O_n : observations_t → nat.
Variable init_observations : PyArrayObject → PyArrayObject → option observations_t.
Variable init_prob_storage_seq : program_t D → observations_t → nat.
Variable prob_obs_reuse :
  program_t D → observations_t → bool → option (list (prob_obs_storage_t D)).
Implicit Types (s : state D) (P : program_t D).

Local Abbreviation learn := (learn_fixpoint observations_t O_n init_observations
                               init_prob_storage_seq prob_obs_reuse).
Local Abbreviation iter := (iterate observations_t O_n prob_obs_reuse).

Lemma iterate_total Ob oc ls I_F I_A n m N (rem : nat) : ∀ P s,
  (∀ P1, is_Some (prob_obs_reuse P1 Ob ls)) →
  ∃ P' s', iter Ob oc ls I_F I_A n m N rem P s = (true, P', s').
Proof.
  induction rem as [|rem IH]; intros P s Hs; cbn [iterate]; [eauto|].
  destruct (Hs P) as [Q0 ->]. by apply IH.
Qed.

(** X16. [learn_fixpoint] returns [true] whenever nothing around it fails:
    the dimensions pass the test, the observations and the worker storage
    are set up, the solver answers in every pass, no allocation fails, the
    program (of at most 65536 facts and 65536 disjunctions) has a learnable
    entry, and the Python object of every learnable entry accepts the
    write. There is no other way for the call to fail. *)
Theorem learn_fixpoint_succeeds P obs oc atoms niters ls s Ob :
  (Z.of_nat (length (PF P)) ≤ 65536)%Z →
  (Z.of_nat (length (AD P)) ≤ 65536)%Z →
  bad_dimensions obs oc atoms = false →
  init_observations obs atoms = Some Ob →
  init_prob_storage_seq P Ob ≠ 0 →
  (∀ P1, is_Some (prob_obs_reuse P1 Ob ls)) →
  false ∉ plan s →
  ¬ (Forall (λ pf, pf_learnable pf = false) (PF P)
     ∧ Forall (λ ad, ad_learnable ad = false) (AD P)) →
  (∀ pf, pf ∈ PF P → pf_learnable pf = true →
     ∃ ob, py s !! pf_self pf = Some ob ∧ py_p_settable ob = true) →
  (∀ ad, ad ∈ AD P → ad_learnable ad = true →
     ∃ ob l, py s !! ad_self ad = Some ob ∧ py_P ob = Some l
             ∧ ad_n ad ≤ length l) →
  ∃ P' s', learn P obs oc atoms niters ls s = (true, P', s').
Proof.
  intros HlenF HlenA Hdim Hobs Hnp Hsolver Hpl Hlearn HrF HrA.
  unfold learn_fixpoint. rewrite Hdim, Hobs.
  destruct (init_indices P s) as [[ix|] s1] eqn:Ei.
  2:{ by apply init_indices_inv in Ei as (_ & _ & _ & _ & _ & _ & Hin). }
  pose proof Ei as (Hpl1 & (_ & Hpy1 & _) & Hn & Hm & _)%init_indices_inv.
  destruct (init_indices_built P s ix s1 HlenF HlenA Ei) as [SF SA].
  assert (E0 : (i_n ix =? 0) && (i_m ix =? 0) = false).
  { apply not_true_is_false. intros [En%Nat.eqb_eq Em%Nat.eqb_eq]%andb_true_iff.
    apply Hlearn. rewrite Hn in En. rewrite Hm in Em.
    split; by apply count_learnable_zero. }
  rewrite E0. cbv zeta. rewrite (proj2 (Nat.eqb_neq _ _) Hnp).
  set (s2 := set_workers _ s1).
  assert (Hh2 : heap s2 = heap s1) by done.
  assert (Hpy2 : py s2 = py s1) by done.
  assert (Hpl2 : plan s2 = plan s1) by done.
  rewrite Hh2.
  set (I_F := load_u16 (heap s1) (i_F ix)) in *.
  set (I_A := load_u16 (heap s1) (i_A ix)) in *.
  destruct (iterate_total Ob oc ls I_F I_A (i_n ix) (i_m ix)
              (total_count oc (O_n Ob)) niters P s2 Hsolver) as (P1 & s3 & Eit).
  rewrite Eit.
  pose proof Eit as (Hh3 & Hpl3 & _ & Hpy3 & _)%iterate_inv.
  eapply iterate_frame in Eit as ([ShF ShA] & _ & _); [|apply same_shape_refl].
  destruct (update_program_parameters_ready P1 ix s3) as (s4 & -> & _); [| |eauto].
  { rewrite Hpl3, Hpl2. by apply Hpl1. }
  rewrite Hh3, Hh2, Hpy3, Hpy2, Hpy1. fold I_F I_A. split.
  - intros i Hi.
    assert (Hin : index_at I_F i ∈ index_at I_F <$> seq 0 (i_n ix)).
    { apply list_elem_of_fmap_2, elem_of_seq. lia. }
    apply (index_set_at_elem _ _ _ _ SF) in Hin as (x & Hx & Hlx).
    destruct (Forall2_lookup_l _ _ _ _ _ ShF Hx) as (y & Hy & _ & Hself).
    rewrite Hy. simpl. rewrite Hself. apply HrF; [|done].
    by eapply list_elem_of_lookup_2.
  - intros i Hi.
    assert (Hin : index_at I_A i ∈ index_at I_A <$> seq 0 (i_m ix)).
    { apply list_elem_of_fmap_2, elem_of_seq. lia. }
    apply (index_set_at_elem _ _ _ _ SA) in Hin as (x & Hx & Hlx).
    destruct (Forall2_lookup_l _ _ _ _ _ ShA Hx) as (y & Hy & _ & Hself & Hny).
    rewrite Hy. simpl. rewrite Hself, Hny. apply HrA; [|done].
    by eapply list_elem_of_lookup_2.
Qed.

(** X17. When [learn_fixpoint] returns [true] it has raised no error, and
    the Python objects have received every write that publishes the program
    the call returns, through the index arrays of [init_indices], in the
    order of the two loops of [update_program_parameters]. *)
Theorem learn_fixpoint_success_publishes P obs oc atoms niters ls s P' s' :
  learn_fixpoint observations_t O_n init_observations init_prob_storage_seq
    prob_obs_reuse P obs oc atoms niters ls s = (true, P', s') →
  errs s' = errs s
  ∧ ∃ ix s1,
      init_indices P s = (Some ix, s1)
      ∧ py s' = fold_left apply_write
                  (publish_writes P' (load_u16 (heap s1) (i_F ix))
                     (load_u16 (heap s1) (i_A ix)) (i_n ix) (i_m ix)) (py s).
Proof.
  unfold learn_fixpoint, learn_cleanup.
  destruct (bad_dimensions obs oc atoms); [done|].
  destruct (init_observations obs atoms) as [Ob|]; [|done].
  destruct (init_indices P s) as [[ix|] s1] eqn:Ei; [|done].
  pose proof Ei as (_ & (He1 & Hpy1 & _) & _)%init_indices_inv.
  destruct (_ && _); [done|].
  destruct (init_prob_storage_seq P Ob =? 0); [done|].
  destruct (iter _ _ _ _ _ _ _ _ _ _ _) as [[[] P1] s3] eqn:Eit; [|done].
  apply iterate_inv in Eit as (Hh3 & _ & He3 & Hpy3 & _).
  destruct (update_program_parameters P1 ix s3) as [[] s4] eqn:Eu; [|done].
  intros [= <- <-]. split.
  - apply update_program_parameters_errs in Eu. rewrite Eu, He3. simpl. done.
  - exists ix, s1. split; [done|].
    apply update_program_parameters_writes in Eu as (ws & _ & -> & Hall).
    rewrite (Hall eq_refl), Hh3, Hpy3. simpl. by rewrite Hpy1.
Qed.

End Success.

Lemma learn_fixpoint_success_publishes_witness :
  ∃ P' s',
    learn_with scenario_Qc (program_one half) obs_2x1 counts_3_1 atoms_1 1 false
      (state_init (py_one half)) = (true, P', s')
    ∧ errs s' = errs (state_init (py_one half))
    ∧ ∃ ix s1,
        init_indices (program_one half) (state_init (py_one half)) = (Some ix, s1)
        ∧ py s' = fold_left apply_write
                    (publish_writes P' (load_u16 (heap s1) (i_F ix))
                       (load_u16 (heap s1) (i_A ix)) (i_n ix) (i_m ix))
                    (py (state_init (py_one half))).
Proof.
  eexists _, _. split; [vm_compute; reflexivity|].
  eapply (learn_fixpoint_success_publishes nat (λ n, n) observe one_worker
            (solver_fixed scenario_Qc) (program_one half) obs_2x1 counts_3_1
            atoms_1 1 false (state_init (py_one half))).
  vm_compute. reflexivity.
Defined.

Lemma learn_fixpoint_succeeds_witness :
  ∃ P' s',
    learn_with scenario_Qc (program_one half) obs_2x1 counts_3_1 atoms_1 1 false
      (state_init (py_one half)) = (true, P', s').
Proof.
  apply (learn_fixpoint_succeeds nat (λ n, n) observe one_worker
           (solver_fixed scenario_Qc) (program_one half) obs_2x1 counts_3_1
           atoms_1 1 false (state_init (py_one half)) 2).
  - vm_compute. discriminate.
  - vm_compute. discriminate.
  - vm_compute. reflexivity.
  - reflexivity.
  - discriminate.
  - intros P1. by eexists.
  - simpl. apply not_elem_of_nil.
  - intros [HF _]. inversion HF as [|? ? Hl _]. discriminate Hl.
  - intros pf ->%list_elem_of_singleton _.
    eexists. split; [vm_compute; reflexivity|reflexivity].
  - intros ad Hin. by apply elem_of_nil in Hin.
Defined.

(** ** The learned parameters are probabilities *)

Section Bounds.
Local Open Scope Qc_scope.

Lemma Qcdiv_unit (x o : Qc) : 0 < o → 0 ≤ x → x ≤ o → 0 ≤ x / o ∧ x / o ≤ 1.
Proof.
  intros Ho H0 H1.
  assert (Hne : o ≠ 0).
  { intros ->. exact (Qclt_not_le _ _ Ho (Qcle_refl _)). }
  assert (Hr : x / o * o = x) by (field; done).
  split; apply (Qcmult_lt_0_le_reg_r _ _ o Ho); rewrite Hr.
  - by rewrite Qcmult_0_l.
  - by rewrite Qcmult_1_l.
Qed.

Lemma soft_bounds (c : Z) (W : prob_obs_storage_t Qc) (x : Qc) :
  (0 ≤ c)%Z → 0 < q_o W → 0 ≤ x → x ≤ q_o W →
  0 ≤ soft c W x ∧ soft c W x ≤ Qc_of_Z c.
Proof.
  intros Hc Ho H0 H1. unfold soft. simpl.
  destruct (Qcdiv_unit x (q_o W) Ho H0 H1) as [Hr0 Hr1].
  assert (Hc' : 0 ≤ Qc_of_Z c).
  { rewrite <- Z2Qc_inj_0. exact (proj1 (Z2Qc_inj_le 0 c) Hc). }
  split; [by apply Qcmult_nonneg_nonneg|].
  rewrite <- (Qcmult_1_r (Qc_of_Z c)) at 2.
  by apply Qcmult_le_mono_nonneg_l.
Qed.

Lemma fact_acc_bounds (Q0 : list (prob_obs_storage_t Qc)) (oc : PyArrayObject)
    (On k : nat) :
  (∀ i_o, (i_o < On)%nat →
     (0 ≤ PyArray_GETPTR1_int oc i_o)%Z
     ∧ 0 < q_o (default q_nil (Q0 !! i_o))
     ∧ 0 ≤ q_F1 (default q_nil (Q0 !! i_o)) k
     ∧ q_F1 (default q_nil (Q0 !! i_o)) k ≤ q_o (default q_nil (Q0 !! i_o))) →
  0 ≤ fact_acc Q0 oc On k 0
  ∧ fact_acc Q0 oc On k 0 ≤ Qc_of_Z (sum_counts oc On).
Proof.
  induction On as [|On IH]; intros Hc.
  - unfold fact_acc. simpl. change (sum_counts oc 0) with 0%Z.
    rewrite Z2Qc_inj_0. split; apply Qcle_refl.
  - rewrite fact_acc_S, sum_counts_S, Z2Qc_inj_add.
    destruct IH as [IH0 IH1]; [intros i Hi; apply Hc; lia|].
    destruct (Hc On) as (Hc0 & Ho & Hx0 & Hx1); [lia|].
    destruct (soft_bounds _ _ _ Hc0 Ho Hx0 Hx1) as [Hs0 Hs1].
    change (@dadd Qc exact) with Qcplus. split.
    + by apply Qcplus_nonneg_nonneg.
    + by apply Qcplus_le_compat.
Qed.

(** X18. In rational arithmetic the value that a pass gives to a learnable
    fact is a probability: when the repeat counts are not negative and not
    all zero, [N] is their sum, and for every observation the solver gives
    [P(O)] positive and [P(t=k,O)] between zero and [P(O)], the fact at
    position [k] of an index array without repetition ends between 0 and
    1. *)
Theorem pass_fact_probability (I_F I_A : list Z) (n m : nat)
    (Q0 : list (prob_obs_storage_t Qc)) (oc : PyArrayObject) (On : nat) (N : Z)
    (P : program_t Qc) (k : nat) (pf : prob_fact_t Qc) :
  NoDup (index_at I_F <$> seq 0 n) → (k < n)%nat →
  PF P !! index_at I_F k = Some pf →
  (∀ i_o, (i_o < On)%nat →
     (0 ≤ PyArray_GETPTR1_int oc i_o)%Z
     ∧ 0 < q_o (default q_nil (Q0 !! i_o))
     ∧ 0 ≤ q_F1 (default q_nil (Q0 !! i_o)) k
     ∧ q_F1 (default q_nil (Q0 !! i_o)) k ≤ q_o (default q_nil (Q0 !! i_o))) →
  N = sum_counts oc On → (0 < N)%Z →
  ∃ pf', PF (pass I_F I_A n m Q0 oc On N P) !! index_at I_F k = Some pf'
         ∧ 0 ≤ pf_p pf' ∧ pf_p pf' ≤ 1.
Proof.
  intros Hnd Hk Hpf Hc -> HN. eexists. split.
  { rewrite pass_fact by done. rewrite Hpf. reflexivity. }
  cbn [map_pf_p pf_p].
  destruct (fact_acc_bounds Q0 oc On k Hc) as [H0 H1].
  change (@ddiv Qc exact) with Qcdiv. change (@d_of_size Qc exact) with Qc_of_Z.
  change (@d0 Qc exact) with (Q2Qc 0).
  apply Qcdiv_unit; [|done..].
  rewrite <- Z2Qc_inj_0. exact (proj1 (Z2Qc_inj_lt 0 _) HN).
Qed.

End Bounds.

Lemma pass_fact_probability_witness :
  ∃ pf',
    PF (pass [0%Z] [] 1 0 scenario_Qc counts_3_1 2 4 (program_one half))
      !! index_at [0%Z] 0 = Some pf'
    ∧ (0 ≤ pf_p pf')%Qc ∧ (pf_p pf' ≤ 1)%Qc.
Proof.
  apply (pass_fact_probability [0%Z] [] 1 0 scenario_Qc counts_3_1 2 4
           (program_one half) 0 (fact half true 7%positive)).
  - compute_done.
  - lia.
  - reflexivity.
  - intros [|[|i]] Hi; [| |lia];
      repeat split; vm_compute; first [reflexivity | discriminate].
  - vm_compute. reflexivity.
  - lia.
Defined.
